(** * rag_try: chunker, embedding client, vector index and incremental builder

    A shallow embedding of [src/chunker.py], [src/embedder.py],
    [src/indexer.py] and [src/incremental_indexer.py], with the properties
    the design document states about them.

    Python integers are [Z]; Python lists are [list]; the set of processed
    document ids is a [gset string]; the external capabilities (tokenizer,
    embedding service, float32 kernels of numpy/faiss) are interfaces given
    as type classes. *)

From Stdlib Require Import ZArith Lia Ascii String.
From stdpp Require Import base gmap sets list strings sorting pretty.

Local Open Scope string_scope.
Local Open Scope list_scope.
Local Open Scope Z_scope.

(* ===================================================================== *)
(** * Python primitives *)
(* ===================================================================== *)

Module Py.

(** Exceptions that the modelled code can raise. *)
Inductive exn : Type :=
  | IndexError
  | AssertionError
  | ValueError
  | ZeroDivisionError
  | EmbedException.

Inductive result (A : Type) : Type :=
  | Ok (a : A)
  | Raise (e : exn).
Global Arguments Ok {A} a.
Global Arguments Raise {A} e.

Definition len {A} (l : list A) : Z := Z.of_nat (length l).

(** Normalisation of one slice bound, as [list.__getitem__] does for
    [l[start:stop]]: a negative bound counts from the end, and bounds are
    clamped into [0, len]. *)
Definition clamp (n i : Z) : Z :=
  if i <? 0 then Z.max 0 (i + n) else Z.min i n.

(** [l[start:stop]] *)
Definition slice {A} (l : list A) (start stop : Z) : list A :=
  let lo := clamp (len l) start in
  let hi := clamp (len l) stop in
  take (Z.to_nat (hi - lo)) (drop (Z.to_nat lo) l).

(** [l[i]]: a negative index counts from the end; out of range raises
    [IndexError]. *)
Definition index {A} (l : list A) (i : Z) : result A :=
  let j := if i <? 0 then i + len l else i in
  if j <? 0 then Raise IndexError
  else match l !! Z.to_nat j with
       | Some x => Ok x
       | None => Raise IndexError
       end.

(** [str.isspace] on one character, for code points below 256. *)
Definition isspace (a : ascii) : bool :=
  let c := Z.of_nat (nat_of_ascii a) in
  ((9 <=? c) && (c <=? 13)) || ((28 <=? c) && (c <=? 32))
  || (c =? 133) || (c =? 160).

Fixpoint lstrip (s : string) : string :=
  match s with
  | EmptyString => EmptyString
  | String a s' => if isspace a then lstrip s' else s
  end.

Fixpoint rstrip (s : string) : string :=
  match s with
  | EmptyString => EmptyString
  | String a s' =>
      match rstrip s' with
      | EmptyString => if isspace a then EmptyString else String a EmptyString
      | r => String a r
      end
  end.

(** [s.strip()] *)
Definition strip (s : string) : string := rstrip (lstrip s).

(** Truth value of a [str]. *)
Definition truthy (s : string) : bool :=
  match s with EmptyString => false | _ => true end.

(** [not text or not text.strip()] *)
Definition blank (text : string) : bool :=
  negb (truthy text) || negb (truthy (strip text)).

End Py.

(* ===================================================================== *)
(** * src/chunker.py *)
(* ===================================================================== *)

(** The tokenizer ([tiktoken]'s gpt2 encoder in the source): [None] stands
    for a raised exception. *)
Class Tokenizer := {
  encode : string → option (list Z);
  decode : list Z → option string;
}.

Module Chunker.

Record Chunk := mkChunk {
  id : string;
  text : string;
  start_token : Z;
  end_token : Z;
}.

(** Safety limit of the source: at most 1000 chunks per document. *)
Definition max_chunks : Z := 1000.

Section WithTokenizer.
Context {tok : Tokenizer}.

(** The [while] loop of [chunk_text]; [fuel] bounds the number of loop
    tests, [None] is returned when it runs out. *)
Fixpoint chunk_loop (fuel : nat) (tokens : list Z) (max_tokens overlap : Z)
    (start idx : Z) (chunks : list Chunk) : option (list Chunk) :=
  match fuel with
  | O => None
  | S fuel' =>
      if (start <? Py.len tokens) && (idx <? max_chunks) then
        let end_ := Z.min (start + max_tokens) (Py.len tokens) in
        let chunk_tokens := Py.slice tokens start end_ in
        match decode chunk_tokens with
        | None =>
            chunk_loop fuel' tokens max_tokens overlap (end_ - overlap) idx chunks
        | Some chunk_text =>
            chunk_loop fuel' tokens max_tokens overlap (end_ - overlap) (idx + 1)
              (chunks ++ [ {| id := "chunk_" +:+ pretty idx;
                              text := chunk_text;
                              start_token := start;
                              end_token := end_ |} ])
        end
      else Some chunks
  end.

Definition chunk_text (fuel : nat) (text : string) (max_tokens overlap : Z)
    : option (list Chunk) :=
  if Py.blank text then Some []
  else match encode text with
       | None => Some []
       | Some tokens =>
           if Py.len tokens =? 0 then Some []
           else chunk_loop fuel tokens max_tokens overlap 0 0 []
       end.

End WithTokenizer.

(** [chain L m o s cs s']: starting with the loop variable [start = s], the
    loop emits the windows [cs] one after another and leaves [start = s']. *)
Inductive chain (L m o : Z) : Z → list Chunk → Z → Prop :=
  | chain_nil s : chain L m o s [] s
  | chain_cons s c cs s' :
      start_token c = s →
      end_token c = Z.min (s + m) L →
      chain L m o (end_token c - o) cs s' →
      chain L m o s (c :: cs) s'.

End Chunker.

(** A character-level tokenizer: one token per character, the token id is
    the character code; like the gpt2 encoder with its default arguments it
    rejects a text that contains the special token [<|endoftext|>]. *)
Definition char_encode (s : string) : option (list Z) :=
  match String.index 0%nat "<|endoftext|>" s with
  | Some _ => None
  | None => Some ((λ a, Z.of_nat (nat_of_ascii a)) <$> list_ascii_of_string s)
  end.

Definition char_decode (l : list Z) : option string :=
  Some (string_of_list_ascii ((λ z, ascii_of_nat (Z.to_nat z)) <$> l)).

Definition char_tokenizer : Tokenizer :=
  {| encode := char_encode; decode := char_decode |}.

(* ===================================================================== *)
(** * src/embedder.py *)
(* ===================================================================== *)

Inductive task_type : Type := retrieval_query | retrieval_document.

(** The remote embedding capability ([genai.embed_content]): a call takes
    the state of the outside world to a new one and either yields the
    embedding or fails ([None], an exception in the source). *)
Class EmbedService (F W : Type) := {
  embed_content : task_type → string → W → option (list F) * W;
}.

Module Embedder.

(** How a [for attempt in range(max_retries)] loop around a [try] ends:
    the body succeeded, the last attempt failed (the exception is
    re-raised), or the range was empty. *)
Inductive attempts (A : Type) : Type :=
  | Succeeded (a : A)
  | Failed
  | Exhausted.
Global Arguments Succeeded {A} a.
Global Arguments Failed {A}.
Global Arguments Exhausted {A}.

(** Sub-batch size of the source. *)
Definition batch_size : nat := 50.
(** Default value of the [max_retries] argument. *)
Definition default_max_retries : nat := 3.

(** [range(0, stop, step)] *)
Definition range_step (stop step : nat) : list nat :=
  (λ j, j * step)%nat <$> seq 0 ((stop + step - 1) / step)%nat.

Section WithService.
Context {F W : Type} {svc : EmbedService F W}.

(** [remaining] attempts are left; a failure is retried unless it was the
    last attempt ([attempt < max_retries - 1]). *)
Fixpoint with_retries {A} (remaining : nat) (body : W → option A * W) (w : W)
    : attempts A * W :=
  match remaining with
  | O => (Exhausted, w)
  | S r =>
      match body w with
      | (Some a, w') => (Succeeded a, w')
      | (None, w') =>
          match r with
          | O => (Failed, w')
          | S _ => with_retries r body w'
          end
      end
  end.

(** The inner loop [for text in batch]: one request per text, the first
    failure aborts the attempt. *)
Fixpoint embed_each (batch : list string) (w : W) : option (list (list F)) * W :=
  match batch with
  | [] => (Some [], w)
  | text :: rest =>
      match embed_content retrieval_document text w with
      | (None, w') => (None, w')
      | (Some e, w') =>
          let '(r, w'') := embed_each rest w' in (cons e <$> r, w'')
      end
  end.

(** The loop over the sub-batches; [None] is the raised exception. *)
Fixpoint embed_batches (max_retries : nat) (batches : list (list string))
    (embeddings : list (list F)) (w : W) : option (list (list F)) * W :=
  match batches with
  | [] => (Some embeddings, w)
  | batch :: rest =>
      match with_retries max_retries (embed_each batch) w with
      | (Succeeded batch_embeddings, w') =>
          embed_batches max_retries rest (embeddings ++ batch_embeddings) w'
      | (Exhausted, w') => embed_batches max_retries rest embeddings w'
      | (Failed, w') => (None, w')
      end
  end.

Definition embed_query (text : string) (w : W) : option (list (list F)) * W :=
  let '(r, w') := embed_content retrieval_query text w in ((λ e, [e]) <$> r, w').

Definition embed_texts (texts : list string) (max_retries : nat) (w : W)
    : option (list (list F)) * W :=
  let batches :=
    (λ i, Py.slice texts (Z.of_nat i) (Z.of_nat i + Z.of_nat batch_size))
      <$> range_step (length texts) batch_size in
  match texts with
  | [text] =>
      match with_retries max_retries (embed_query text) w with
      | (Succeeded r, w') => (Some r, w')
      | (Failed, w') => (None, w')
      | (Exhausted, w') => embed_batches max_retries batches [] w'
      end
  | _ => embed_batches max_retries batches [] w
  end.

(** [v] is an answer of the service to a request for [text] with [task]. *)
Definition answers (task : task_type) (text : string) (v : list F) : Prop :=
  ∃ w0 w1, embed_content task text w0 = (Some v, w1).

End WithService.
End Embedder.

(* ===================================================================== *)
(** * src/indexer.py *)
(* ===================================================================== *)

(** The float32 kernels the index relies on: row normalisation
    ([faiss.normalize_L2]), the inner product of [IndexFlatIP], the order
    on scores, and the score faiss reports for a missing neighbour
    ([-FLT_MAX]). *)
Class FloatOps (F : Type) := {
  normalize_L2 : list F → list F;
  inner_product : list F → list F → F;
  fle : F → F → bool;
  lowest : F;
}.

(** The order on scores is a total order: scores are float values other
    than NaN, the two zeros counting as one value. *)
Class FloatOrder (F : Type) {fl : FloatOps F} : Prop := {
  fle_total : ∀ x y : F, fle x y = true ∨ fle y x = true;
  fle_trans : ∀ x y z : F, fle x y = true → fle y z = true → fle x z = true;
  fle_antisym : ∀ x y : F, fle x y = true → fle y x = true → x = y;
}.

(** A metadata record is a Python dict from strings to strings. *)
Abbreviation Metadata := (gmap string string).

Module Indexer.

(** [faiss.IndexFlatIP]: the dimension and the stored rows, in insertion
    order. *)
Record FlatIndex (F : Type) := mkFlatIndex {
  d : Z;
  xb : list (list F);
}.
Global Arguments mkFlatIndex {F} d xb.
Global Arguments d {F} _.
Global Arguments xb {F} _.

Record FaissIndexer (F : Type) := mkFaissIndexer {
  dim : Z;
  index : FlatIndex F;
  metadatas : list Metadata;
}.
Global Arguments mkFaissIndexer {F} dim index metadatas.
Global Arguments dim {F} _.
Global Arguments index {F} _.
Global Arguments metadatas {F} _.

(** One element of the list [query] returns. *)
Record Hit (F : Type) := mkHit {
  score : F;
  metadata : Metadata;
}.
Global Arguments mkHit {F} score metadata.
Global Arguments score {F} _.
Global Arguments metadata {F} _.

(** The two files [save] writes and [load] reads. *)
Record IndexFiles (F : Type) := mkIndexFiles {
  index_file : option (FlatIndex F);
  meta_file : option (list Metadata);
}.
Global Arguments mkIndexFiles {F} index_file meta_file.
Global Arguments index_file {F} _.
Global Arguments meta_file {F} _.

Section WithFloats.
Context {F : Type} {fl : FloatOps F}.

(** [FaissIndexer(dim)] *)
Definition new (dim : Z) : FaissIndexer F :=
  {| dim := dim; index := {| d := dim; xb := [] |}; metadatas := [] |}.

(** [np.array(vectors).astype('float32')] followed by the shape access of
    [faiss.normalize_L2]: the number of columns of a rectangular matrix.
    An empty list gives a one-dimensional array, whose [shape[1]] is an
    [IndexError]; ragged rows are a [ValueError]. *)
Definition columns (vectors : list (list F)) : Py.result Z :=
  match vectors with
  | [] => Py.Raise Py.IndexError
  | v :: _ =>
      if forallb (λ r, Py.len r =? Py.len v) vectors then Py.Ok (Py.len v)
      else Py.Raise Py.ValueError
  end.

(** [index.add(x)] asserts the dimension and appends the rows. *)
Definition add (self : FaissIndexer F) (vectors : list (list F))
    (metas : list Metadata) : Py.result (FaissIndexer F) :=
  match columns vectors with
  | Py.Raise e => Py.Raise e
  | Py.Ok c =>
      let x := normalize_L2 <$> vectors in
      if c =? d (index self) then
        Py.Ok {| dim := dim self;
                 index := {| d := d (index self); xb := xb (index self) ++ x |};
                 metadatas := metadatas self ++ metas |}
      else Py.Raise Py.AssertionError
  end.

(** Descending order on (score, label) pairs. *)
Definition score_ge (a b : F * Z) : Prop := fle b.1 a.1 = true.

Global Instance score_ge_dec a b : Decision (score_ge a b) :=
  decide (fle b.1 a.1 = true).

(** The inner products of the query row with the stored rows, each with
    the position of its row. *)
Definition scored (ix : FlatIndex F) (q : list F) : list (F * Z) :=
  imap (λ i x, (inner_product q x, Z.of_nat i)) (xb ix).

(** [index.search(v, k)] for one query row: the [k] best inner products
    in descending order with the positions of their rows; when fewer than
    [k] rows are stored the tail is filled with label [-1] and the lowest
    score. Rows of equal score are ranked here by the merge sort; faiss
    does not fix their order. *)
Definition search (ix : FlatIndex F) (q : list F) (k : Z) : list (F * Z) :=
  let top := take (Z.to_nat k) (merge_sort score_ge (scored ix q)) in
  top ++ replicate (Z.to_nat k - length top) (lowest, -1).

(** The loop of [query] over [zip(distances[0], idxs[0])]. *)
Fixpoint collect (metas : list Metadata) (hits : list (F * Z))
    (results : list (Hit F)) : Py.result (list (Hit F)) :=
  match hits with
  | [] => Py.Ok results
  | (s, idx) :: rest =>
      if idx <? Py.len metas then
        match Py.index metas idx with
        | Py.Ok meta => collect metas rest (results ++ [ {| score := s; metadata := meta |} ])
        | Py.Raise e => Py.Raise e
        end
      else collect metas rest results
  end.

(** [query]: the search asserts the dimension of the probe and [k > 0]. *)
Definition query (self : FaissIndexer F) (vector : list F) (k : Z)
    : Py.result (list (Hit F)) :=
  let v := normalize_L2 vector in
  if (Py.len vector =? d (index self)) && (0 <? k) then
    collect (metadatas self) (search (index self) v k) []
  else Py.Raise Py.AssertionError.

(** [save]: both files are written. *)
Definition save (self : FaissIndexer F) (fs : IndexFiles F) : IndexFiles F :=
  {| index_file := Some (index self); meta_file := Some (metadatas self) |}.

(** [load]: both files are read when both exist. *)
Definition load (self : FaissIndexer F) (fs : IndexFiles F)
    : FaissIndexer F * bool :=
  match index_file fs, meta_file fs with
  | Some ix, Some metas =>
      ({| dim := dim self; index := ix; metadatas := metas |}, true)
  | _, _ => (self, false)
  end.

End WithFloats.
End Indexer.

(* ===================================================================== *)
(** * src/incremental_indexer.py *)
(* ===================================================================== *)

(** The content hash used for documents without an id
    ([hashlib.md5(...).hexdigest()]). *)
Class Hasher := {
  md5_hexdigest : string → string;
}.

Module Builder.
Import Indexer.

(** A document: the keys ['id'] (already in its [str] form), ['text'] and
    ['metadata'] may each be absent. *)
Record Document := mkDocument {
  doc_id : option string;
  doc_text : option string;
  doc_metadata : option Metadata;
}.

Record IncrementalIndexBuilder := mkBuilder {
  batch_size : Z;
  chunk_size : Z;
  chunk_overlap : Z;
  processed_ids : gset string;
  total_chunks : Z;
}.

(** [checkpoint_info.json], without its timestamp. *)
Record CheckpointInfo := mkCheckpointInfo {
  ci_docs_processed : Z;
  ci_total_chunks : Z;
  ci_processed_ids_count : Z;
}.

(** The persisted artifacts. *)
Record Disk (F : Type) := mkDisk {
  index_files : IndexFiles F;
  processed_ids_file : option (gset string);
  checkpoint_info_file : option CheckpointInfo;
}.
Global Arguments mkDisk {F} index_files processed_ids_file checkpoint_info_file.
Global Arguments index_files {F} _.
Global Arguments processed_ids_file {F} _.
Global Arguments checkpoint_info_file {F} _.

(** Observable steps of a run, in program order. [EvFlush] is the entry
    of [_process_batch], with the in-memory processed ids at that
    moment. *)
Inductive event : Type :=
  | EvSkipped (doc : string)
  | EvChunked (doc : string) (chunks : nat)
  | EvMarked (doc : string)
  | EvFlush (metas : list Metadata) (ids : gset string)
  | EvIndexed (chunks : nat)
  | EvFlushFailed (e : Py.exn)
  | EvCheckpoint (ids : gset string).

(** The processed-id file after the checkpoints among [evs], when it held
    [init] before them. *)
Definition last_checkpoint (evs : list event) (init : option (gset string))
    : option (gset string) :=
  foldl (λ file ev, match ev with EvCheckpoint ids => Some ids | _ => file end)
    init evs.

(** Every record of a batch names a document that is in [ids]. *)
Definition flush_ok (metas : list Metadata) (ids : gset string) : Prop :=
  ∀ m, m ∈ metas → ∃ doc, m !! "doc_id" = Some doc ∧ doc ∈ ids.

(** The traces of a run as long as no flush has failed. *)
Inductive quiet : list event → Prop :=
  | quiet_nil : quiet []
  | quiet_skipped evs doc :
      quiet evs → quiet (evs ++ [EvSkipped doc])
  | quiet_chunked evs doc n :
      quiet evs → quiet (evs ++ [EvChunked doc n; EvMarked doc])
  | quiet_flushed evs metas ids n :
      quiet evs → flush_ok metas ids →
      quiet (evs ++ [EvFlush metas ids; EvIndexed n])
  | quiet_checkpoint evs ids :
      quiet evs → quiet (evs ++ [EvCheckpoint ids]).

(** In [evs] every chunking of a document is followed at once by the
    marking of that document. *)
Definition marked_at_once (evs : list event) : Prop :=
  ∀ pre doc n post,
    evs = pre ++ EvChunked doc n :: post →
    ∃ post', post = EvMarked doc :: post'.

(** In [evs] every flush starts with all documents of its batch among the
    in-memory processed ids. *)
Definition flushes_marked (evs : list event) : Prop :=
  ∀ metas ids, EvFlush metas ids ∈ evs → flush_ok metas ids.

(** In [evs] a failed flush is the last event, and it failed with [e]. *)
Definition failure_is_last (e : Py.exn) (evs : list event) : Prop :=
  ∀ pre e' post, evs = pre ++ EvFlushFailed e' :: post → post = [] ∧ e' = e.

(** Everything a run reads and mutates outside its local variables. *)
Record Env (F W : Type) := mkEnv {
  builder : IncrementalIndexBuilder;
  indexer : FaissIndexer F;
  disk : Disk F;
  world : W;
  trace : list event;
}.
Global Arguments mkEnv {F W} builder indexer disk world trace.
Global Arguments builder {F W} _.
Global Arguments indexer {F W} _.
Global Arguments disk {F W} _.
Global Arguments world {F W} _.
Global Arguments trace {F W} _.

(** The local variables of [process_documents]. *)
Record Locals := mkLocals {
  batch_texts : list string;
  batch_metadatas : list Metadata;
  docs_processed : Z;
  docs_skipped : Z;
}.

(** How a piece of the run ends: normally, with an exception (the
    mutations made so far persist), or without an answer because the
    chunker ran out of fuel. *)
Inductive outcome (F W A : Type) : Type :=
  | Done (a : A) (s : Env F W)
  | Raised (e : Py.exn) (s : Env F W)
  | OutOfFuel.
Global Arguments Done {F W A} a s.
Global Arguments Raised {F W A} e s.
Global Arguments OutOfFuel {F W A}.

(** [doc.get('metadata', {}).get(key, dflt)] *)
Definition dict_get (m : option Metadata) (key dflt : string) : string :=
  default dflt (m ≫= (.!! key)).

Section WithCapabilities.
Context {F W : Type} {tok : Tokenizer} {svc : EmbedService F W}
  {fl : FloatOps F} {hash : Hasher}.

Definition log (ev : event) (s : Env F W) : Env F W :=
  mkEnv (builder s) (indexer s) (disk s) (world s) (trace s ++ [ev]).

Definition set_builder (b : IncrementalIndexBuilder) (s : Env F W) : Env F W :=
  mkEnv b (indexer s) (disk s) (world s) (trace s).

Definition set_indexer (ix : FaissIndexer F) (s : Env F W) : Env F W :=
  mkEnv (builder s) ix (disk s) (world s) (trace s).

Definition set_disk (dk : Disk F) (s : Env F W) : Env F W :=
  mkEnv (builder s) (indexer s) dk (world s) (trace s).

Definition set_world (w : W) (s : Env F W) : Env F W :=
  mkEnv (builder s) (indexer s) (disk s) w (trace s).

(** [_load_processed_ids] *)
Definition load_processed_ids (dk : Disk F) : gset string :=
  match processed_ids_file dk with
  | Some ids => ids
  | None => ∅
  end.

(** [IncrementalIndexBuilder(batch_size=..., chunk_size=..., chunk_overlap=...)] *)
Definition new (batch_size chunk_size chunk_overlap : Z) (dk : Disk F)
    : IncrementalIndexBuilder :=
  {| batch_size := batch_size; chunk_size := chunk_size;
     chunk_overlap := chunk_overlap;
     processed_ids := load_processed_ids dk; total_chunks := 0 |}.

(** [_get_doc_id] *)
Definition get_doc_id (doc : Document) : string :=
  match doc_id doc with
  | Some i => i
  | None =>
      md5_hexdigest
        (default "" (doc_text doc) +:+ dict_get (doc_metadata doc) "url" "")
  end.

Definition mark_processed (doc : string) (b : IncrementalIndexBuilder)
    : IncrementalIndexBuilder :=
  mkBuilder (batch_size b) (chunk_size b) (chunk_overlap b)
    (processed_ids b ∪ {[doc]}) (total_chunks b).

Definition count_chunks (n : Z) (b : IncrementalIndexBuilder)
    : IncrementalIndexBuilder :=
  mkBuilder (batch_size b) (chunk_size b) (chunk_overlap b)
    (processed_ids b) (total_chunks b + n).

(** [_save_checkpoint]: the processed ids, then the progress snapshot. *)
Definition save_checkpoint (docs_processed : Z) (s : Env F W) : Env F W :=
  let ids := processed_ids (builder s) in
  let info := {| ci_docs_processed := docs_processed;
                 ci_total_chunks := total_chunks (builder s);
                 ci_processed_ids_count := Z.of_nat (size ids) |} in
  log (EvCheckpoint ids)
    (set_disk (mkDisk (index_files (disk s)) (Some ids) (Some info)) s).

(** [_process_batch]: embed, add to the index, count; an exception of
    either call is re-raised. *)
Definition process_batch (texts : list string) (metas : list Metadata)
    (s : Env F W) : outcome F W unit :=
  let s := log (EvFlush metas (processed_ids (builder s))) s in
  match Embedder.embed_texts texts Embedder.default_max_retries (world s) with
  | (None, w') =>
      Raised Py.EmbedException (log (EvFlushFailed Py.EmbedException) (set_world w' s))
  | (Some vectors, w') =>
      let s := set_world w' s in
      match Indexer.add (indexer s) vectors metas with
      | Py.Raise e => Raised e (log (EvFlushFailed e) s)
      | Py.Ok ix =>
          Done tt
            (log (EvIndexed (length texts))
               (set_builder (count_chunks (Py.len texts) (builder s))
                  (set_indexer ix s)))
      end
  end.

(** The metadata record built for one chunk of a document. *)
Definition chunk_metadata (doc : Document) (chunk : Chunker.Chunk) : Metadata :=
  {[ "doc_id" := get_doc_id doc;
     "chunk_id" := Chunker.id chunk;
     "text" := Chunker.text chunk;
     "source" := dict_get (doc_metadata doc) "url" "unknown";
     "title" := dict_get (doc_metadata doc) "title" "";
     "created_at" := dict_get (doc_metadata doc) "created_at" "" ]}.

(** The body of the loop [for doc in documents]. *)
Definition process_doc (fuel : nat) (doc : Document) (l : Locals) (s : Env F W)
    : outcome F W Locals :=
  let b := builder s in
  let id := get_doc_id doc in
  if decide (id ∈ processed_ids b) then
    Done (mkLocals (batch_texts l) (batch_metadatas l) (docs_processed l)
            (docs_skipped l + 1))
         (log (EvSkipped id) s)
  else
    let text := default "" (doc_text doc) in
    if Py.blank text then Done l s
    else
      match Chunker.chunk_text fuel text (chunk_size b) (chunk_overlap b) with
      | None => OutOfFuel
      | Some chunks =>
          let texts := batch_texts l ++ (Chunker.text <$> chunks) in
          let metas := batch_metadatas l ++ (chunk_metadata doc <$> chunks) in
          let processed := docs_processed l + 1 in
          let s := log (EvMarked id)
                     (set_builder (mark_processed id b)
                        (log (EvChunked id (length chunks)) s)) in
          if batch_size b <=? Py.len texts then
            match process_batch texts metas s with
            | Done _ s =>
                let l' := mkLocals [] [] processed (docs_skipped l) in
                if batch_size b * 10 =? 0 then Raised Py.ZeroDivisionError s
                else if processed mod (batch_size b * 10) =? 0
                     then Done l' (save_checkpoint processed s)
                     else Done l' s
            | Raised e s => Raised e s
            | OutOfFuel => OutOfFuel
            end
          else Done (mkLocals texts metas processed (docs_skipped l)) s
      end.

Fixpoint process_loop (fuel : nat) (documents : list Document) (l : Locals)
    (s : Env F W) : outcome F W Locals :=
  match documents with
  | [] => Done l s
  | doc :: rest =>
      match process_doc fuel doc l s with
      | Done l' s' => process_loop fuel rest l' s'
      | Raised e s' => Raised e s'
      | OutOfFuel => OutOfFuel
      end
  end.

(** [process_documents]; the result is the pair of counters the run
    reports, documents processed and documents skipped. *)
Definition process_documents (fuel : nat) (documents : list Document)
    (s : Env F W) : outcome F W (Z * Z) :=
  match process_loop fuel documents (mkLocals [] [] 0 0) s with
  | Done l s =>
      let flushed :=
        match batch_texts l with
        | [] => Done tt s
        | _ => process_batch (batch_texts l) (batch_metadatas l) s
        end in
      match flushed with
      | Done _ s =>
          Done (docs_processed l, docs_skipped l)
               (save_checkpoint (docs_processed l) s)
      | Raised e s => Raised e s
      | OutOfFuel => OutOfFuel
      end
  | Raised e s => Raised e s
  | OutOfFuel => OutOfFuel
  end.

(** Since [s0] the counter of the builder, the metadata list and the row
    list of the index have grown by one and the same amount. *)
Definition grown (s0 s : Env F W) : Prop :=
  total_chunks (builder s) - total_chunks (builder s0)
  = Py.len (metadatas (indexer s)) - Py.len (metadatas (indexer s0)) ∧
  Py.len (metadatas (indexer s)) - Py.len (metadatas (indexer s0))
  = Py.len (xb (index (indexer s))) - Py.len (xb (index (indexer s0))).

(** The same, with the two buffers of the run of one length. *)
Definition accounted (s0 : Env F W) (l : Locals) (s : Env F W) : Prop :=
  length (batch_texts l) = length (batch_metadatas l) ∧ grown s0 s.

(** A document id that only blank documents of the stream carry stays out
    of the processed ids, in memory and on disk. *)
Definition kept_out (id : string) (s : Env F W) : Prop :=
  (id ∉ processed_ids (builder s)) ∧ (id ∉ load_processed_ids (disk s)).

(** The state of a run that has not failed, relative to its start [s0]:
    the events so far are [quiet], the buffered records belong to marked
    documents, and the processed-id file is what the last checkpoint
    wrote. *)
Definition traced (s0 : Env F W) (l : Locals) (s : Env F W) : Prop :=
  ∃ evs,
    trace s = trace s0 ++ evs ∧ quiet evs ∧
    flush_ok (batch_metadatas l) (processed_ids (builder s)) ∧
    processed_ids_file (disk s)
    = last_checkpoint evs (processed_ids_file (disk s0)).

(** The state of a run aborted with [e]: a quiet trace, possibly followed
    by the flush that failed. *)
Definition aborted (s0 : Env F W) (e : Py.exn) (s : Env F W) : Prop :=
  ∃ evs tail,
    trace s = trace s0 ++ evs ++ tail ∧ quiet evs ∧
    processed_ids_file (disk s)
    = last_checkpoint evs (processed_ids_file (disk s0)) ∧
    (tail = [] ∨
     ∃ metas ids, tail = [EvFlush metas ids; EvFlushFailed e] ∧
                  flush_ok metas ids).

(** Since [s0] nothing was taken away: the processed ids have only grown,
    rows and metadata were only appended, and the parameters of the
    builder, the dimension of the index and the index files are those of
    [s0]. *)
Definition extends (s0 s : Env F W) : Prop :=
  processed_ids (builder s0) ⊆ processed_ids (builder s) ∧
  metadatas (indexer s0) `prefix_of` metadatas (indexer s) ∧
  xb (index (indexer s0)) `prefix_of` xb (index (indexer s)) ∧
  d (index (indexer s)) = d (index (indexer s0)) ∧
  total_chunks (builder s0) ≤ total_chunks (builder s) ∧
  batch_size (builder s) = batch_size (builder s0) ∧
  chunk_size (builder s) = chunk_size (builder s0) ∧
  chunk_overlap (builder s) = chunk_overlap (builder s0) ∧
  index_files (disk s) = index_files (disk s0).

(** The metadata records a pass over [documents] produces, in stream
    order, when [ids] are the processed ids at its start: a document is
    passed over when its id is among them or its text is blank, and
    otherwise contributes the records of its chunks and its id. *)
Fixpoint chunk_records (fuel : nat) (chunk_size chunk_overlap : Z)
    (documents : list Document) (ids : gset string) : list Metadata :=
  match documents with
  | [] => []
  | doc :: rest =>
      if decide (get_doc_id doc ∈ ids) then
        chunk_records fuel chunk_size chunk_overlap rest ids
      else if Py.blank (default "" (doc_text doc)) then
        chunk_records fuel chunk_size chunk_overlap rest ids
      else
        match Chunker.chunk_text fuel (default "" (doc_text doc))
                chunk_size chunk_overlap with
        | Some chunks =>
            (chunk_metadata doc <$> chunks)
            ++ chunk_records fuel chunk_size chunk_overlap rest
                 (ids ∪ {[get_doc_id doc]})
        | None => []
        end
  end.

(** One build as [build_index_from_jsonl] runs it: a fresh indexer that
    loads the persisted index when there is one, a fresh builder that loads
    the persisted processed ids, one [process_documents] pass, and the
    final [indexer.save()]. *)
Definition build_index (dim batch_size chunk_size chunk_overlap : Z)
    (fuel : nat) (documents : list Document) (dk : Disk F) (w : W)
    : outcome F W (Z * Z) :=
  let ix := (Indexer.load (Indexer.new dim) (index_files dk)).1 in
  let b := new batch_size chunk_size chunk_overlap dk in
  match process_documents fuel documents (mkEnv b ix dk w []) with
  | Done r s =>
      Done r
        (set_disk
           (mkDisk (Indexer.save (indexer s) (index_files (disk s)))
              (processed_ids_file (disk s)) (checkpoint_info_file (disk s)))
           s)
  | Raised e s => Raised e s
  | OutOfFuel => OutOfFuel
  end.

Definition build_index_from_jsonl :=
  build_index 768 50 300 50.

End WithCapabilities.
End Builder.

(* ===================================================================== *)
(** * Concrete capabilities, used to run the model on examples *)
(* ===================================================================== *)

(** Float arithmetic on the rows where it is exact: a row with at most one
    non-zero entry normalises to the signed axis vector (a zero row is left
    as it is, as faiss does), and inner products of such rows are [-1], [0]
    or [1]. Scores are integers; [lowest] is [-FLT_MAX]. Rows of another
    shape are left unchanged; the examples below do not use them. *)
Definition axis_normalize (v : list Z) : list Z :=
  if decide (length (filter (λ x : Z, x ≠ 0%Z) v) ≤ 1)%nat then Z.sgn <$> v else v.

Definition dot (u v : list Z) : Z :=
  foldr Z.add 0 (zip_with Z.mul u v).

Definition axis_floats : FloatOps Z :=
  {| normalize_L2 := axis_normalize;
     inner_product := dot;
     fle := Z.leb;
     lowest := - (2 ^ 128 - 2 ^ 104) |}.

(** An embedding service whose state counts the requests made. It rejects
    a text that starts with [!]; a text that starts with [a] is embedded on
    the first axis, any other text on the second. *)
Definition toy_embed (task : task_type) (text : string) (w : nat)
    : option (list Z) * nat :=
  (if String.prefix "!" text then None
   else if String.prefix "a" text then Some [1; 0] else Some [0; 1],
   S w).

Definition toy_service : EmbedService Z nat :=
  {| embed_content := toy_embed |}.

Definition toy_hasher : Hasher :=
  {| md5_hexdigest := λ s, "md5:" +:+ s |}.

Definition empty_disk : Builder.Disk Z :=
  Builder.mkDisk (Indexer.mkIndexFiles None None) None None.

(** [build_index] on the concrete capabilities, for a 2-dimensional index
    and windows of 4 tokens without overlap. *)
Definition toy_build (batch_size : Z) (documents : list Builder.Document)
    (dk : Builder.Disk Z) (w : nat) : Builder.outcome Z nat (Z * Z) :=
  Builder.build_index (tok:=char_tokenizer) (svc:=toy_service)
    (fl:=axis_floats) (hash:=toy_hasher) 2 batch_size 4 0 1001 documents dk w.

Definition doc (id text : string) : Builder.Document :=
  Builder.mkDocument (Some id) (Some text) None.

(** ** Example data *)

Definition alpha : Metadata := {[ "text" := "alpha" ]}.
Definition beta : Metadata := {[ "text" := "beta" ]}.
Definition gamma : Metadata := {[ "text" := "gamma" ]}.

(** The index after [add([[1, 0]], [alpha])] on a fresh 2-dimensional
    indexer. *)
Definition one_record : Indexer.FaissIndexer Z :=
  Indexer.mkFaissIndexer 2 (Indexer.mkFlatIndex 2 [[1; 0]]) [alpha].

(** The index after adding the same vector twice. *)
Definition twins : Indexer.FaissIndexer Z :=
  Indexer.mkFaissIndexer 2 (Indexer.mkFlatIndex 2 [[1; 0]; [1; 0]]) [alpha; beta].

(** Three stored vectors whose similarities to the probe [[1, 0]] are
    [0], [1] and [-1]. *)
Definition ranked3 : Indexer.FaissIndexer Z :=
  Indexer.mkFaissIndexer 2
    (Indexer.mkFlatIndex 2 [[0; 1]; [1; 0]; [-1; 0]]) [alpha; beta; gamma].

(** A text of 1001 tokens. *)
Definition long_text : string :=
  string_of_list_ascii (replicate 1001 "a"%char).

(** A stream with one ordinary document and one blank one. *)
Definition stream_with_blank : list Builder.Document :=
  [doc "1" "abcdefgh"; doc "2" "  "].

(** The environment in which a first build starts. *)
Definition fresh_env (batch_size : Z) : Builder.Env Z nat :=
  Builder.mkEnv (Builder.new batch_size 4 0 empty_disk) (Indexer.new 2)
    empty_disk 0%nat [].

(** The environment a completed first build leaves. *)
Definition built (batch_size : Z) (documents : list Builder.Document)
    : Builder.Env Z nat :=
  match toy_build batch_size documents empty_disk 0%nat with
  | Builder.Done _ s => s
  | _ => fresh_env batch_size
  end.

(** A document whose text the tokenizer rejects. *)
Definition rejected_doc : Builder.Document := doc "3" "x<|endoftext|>".

(** A tokenizer that encodes like [char_tokenizer] and whose [decode]
    fails on every token sequence. *)
Definition mute_tokenizer : Tokenizer :=
  {| encode := char_encode; decode := λ _, None |}.

(** An embedding service that answers every request. *)
Definition steady_service : EmbedService Z nat :=
  {| embed_content := λ _ _ w, (Some [1; 0], S w) |}.

(** [process_documents] on the concrete capabilities, from [fresh_env]. *)
Definition toy_run (batch_size : Z) (documents : list Builder.Document)
    : Builder.outcome Z nat (Z * Z) :=
  Builder.process_documents (tok:=char_tokenizer) (svc:=toy_service)
    (fl:=axis_floats) (hash:=toy_hasher) 1001 documents (fresh_env batch_size).

(** The environment a completed [toy_run] leaves. *)
Definition ran (batch_size : Z) (documents : list Builder.Document)
    : Builder.Env Z nat :=
  match toy_run batch_size documents with
  | Builder.Done _ s => s
  | _ => fresh_env batch_size
  end.

(** A stream in which one id occurs twice, followed by a blank document. *)
Definition stream_with_repeat : list Builder.Document :=
  [doc "1" "abcdefgh"; doc "1" "abcdefgh"; doc "2" "  "].

(* ===================================================================== *)
(** * src/utils.py and src/index_build.py *)
(* ===================================================================== *)

Module IndexBuild.
Import Indexer.

Definition DATA_DIR : string := "data".

(** [s.endswith(suffix)] *)
Definition endswith (s suffix : string) : bool :=
  let ls := list_ascii_of_string s in
  let lx := list_ascii_of_string suffix in
  bool_decide (drop (length ls - length lx) ls = lx).

(** The data folder: the names [os.listdir] gives, and what reading a path
    gives ([None] when [read_text] raises). *)
Record DataFolder := mkDataFolder {
  listing : list string;
  read_text : string → option string;
}.

(** [list_text_files]: the [.txt] entries, joined to the folder. *)
Definition list_text_files (folder : string) (names : list string)
    : list string :=
  (λ f, folder +:+ "/" +:+ f) <$> filter (λ f, endswith f ".txt" = true) names.

(** How [build_index] ends when it returns. *)
Inductive status : Type :=
  | NoFiles
  | NoChunks
  | EmbedFailed
  | EmbedMismatch
  | Built (chunks : nat).

(** The end of a call: a return, with the index files and the state of the
    embedding service it leaves; an exception that escapes; or no answer
    because the chunker ran out of fuel. *)
Inductive ending (F W : Type) : Type :=
  | Finished (st : status) (fs : IndexFiles F) (w : W)
  | Failed (e : Py.exn) (fs : IndexFiles F) (w : W)
  | OutOfFuel.
Global Arguments Finished {F W} st fs w.
Global Arguments Failed {F W} e fs w.
Global Arguments OutOfFuel {F W}.

(** The metadata record of one chunk of the file at [fpath]. *)
Definition file_metadata (fpath : string) (c : Chunker.Chunk) : Metadata :=
  {[ "source" := fpath; "chunk_id" := Chunker.id c; "text" := Chunker.text c ]}.

Section WithCapabilities.
Context {F W : Type} {tok : Tokenizer} {svc : EmbedService F W}
  {fl : FloatOps F}.

(** The loop over the files: an unreadable file, a blank file and a file
    without chunks are passed over. *)
Fixpoint chunk_files (fuel : nat) (read : string → option string)
    (files : list string) (all_chunks : list string)
    (metadatas : list Metadata) : option (list string * list Metadata) :=
  match files with
  | [] => Some (all_chunks, metadatas)
  | fpath :: rest =>
      match read fpath with
      | None => chunk_files fuel read rest all_chunks metadatas
      | Some txt =>
          if negb (Py.truthy (Py.strip txt)) then
            chunk_files fuel read rest all_chunks metadatas
          else
            match Chunker.chunk_text fuel txt 300 50 with
            | None => None
            | Some [] => chunk_files fuel read rest all_chunks metadatas
            | Some chunks =>
                chunk_files fuel read rest
                  (all_chunks ++ (Chunker.text <$> chunks))
                  (metadatas ++ (file_metadata fpath <$> chunks))
            end
      end
  end.

Definition build_index (fuel : nat) (folder : DataFolder)
    (fs : IndexFiles F) (w : W) : ending F W :=
  match list_text_files DATA_DIR (listing folder) with
  | [] => Finished NoFiles fs w
  | files =>
      match chunk_files fuel (read_text folder) files [] [] with
      | None => OutOfFuel
      | Some ([], _) => Finished NoChunks fs w
      | Some (all_chunks, metadatas) =>
          match Embedder.embed_texts all_chunks Embedder.default_max_retries w
          with
          | (None, w') => Finished EmbedFailed fs w'
          | (Some [], w') => Finished EmbedMismatch fs w'
          | (Some (v0 :: vs), w') =>
              let vectors := v0 :: vs in
              if bool_decide (length vectors ≠ length all_chunks) then
                Finished EmbedMismatch fs w'
              else
                match add (new (Py.len v0)) vectors metadatas with
                | Py.Raise e => Failed e fs w'
                | Py.Ok indexer =>
                    Finished (Built (length vectors)) (save indexer fs) w'
                end
          end
      end
  end.

End WithCapabilities.
End IndexBuild.

(* ===================================================================== *)
(** * src/retriever_api.py *)
(* ===================================================================== *)

(** The remote answer generation ([model.generate_content] and the access
    to [response.text]): [None] stands for a raised exception. *)
Class GenerateService (W : Type) := {
  generate_content : string → W → option string * W;
}.

Module Retriever.
Import Indexer.

(** The line feed and the double quote. *)
Definition nl : string := String (ascii_of_nat 10) EmptyString.
Definition dq : string := String (ascii_of_nat 34) EmptyString.

Definition system_prompt : string :=
  "You are an assistant that answers using ONLY the provided sources. " +:+ nl
  +:+ "If the answer is not in the sources, say " +:+ dq
  +:+ "I don't know from the provided sources." +:+ dq +:+ nl
  +:+ "Keep answers concise and cite source numbers in brackets like [1], [2].".

(** [s[:n]] *)
Definition str_prefix (n : nat) (s : string) : string := String.substring 0 n s.

(** One element of the ['retrieved'] list of a response. *)
Record Retrieved (F : Type) := mkRetrieved {
  source : option string;
  text : string;
  score : F;
}.
Global Arguments mkRetrieved {F} source text score.
Global Arguments source {F} _.
Global Arguments text {F} _.
Global Arguments score {F} _.

(** What the detail of an error response reports. *)
Inductive detail : Type :=
  | EmbedFailed
  | GenerateFailed
  | Unexpected (e : Py.exn).

Inductive response (F : Type) : Type :=
  | Answered (answer : string) (retrieved : list (Retrieved F))
  | HttpError (status_code : Z) (d : detail).
Global Arguments Answered {F} answer retrieved.
Global Arguments HttpError {F} status_code d.

Section WithCapabilities.
Context {F W : Type} {svc : EmbedService F W} {gen : GenerateService W}
  {fl : FloatOps F}.

(** [startup_event]: the index must load ([None] is the [RuntimeError]). *)
Definition startup_event (fs : IndexFiles F) : option (FaissIndexer F) :=
  let '(indexer, loaded) := load (new 768) fs in
  if loaded then Some indexer else None.

(** The loop that appends one numbered source per result. *)
Fixpoint add_sources (i : Z) (results : list (Hit F)) (user_prompt : string)
    : string :=
  match results with
  | [] => user_prompt
  | r :: rest =>
      let meta := Indexer.metadata r in
      let text := str_prefix 500 (default "" (meta !! "text")) in
      let source := default "unknown" (meta !! "source") in
      add_sources (i + 1) rest
        (user_prompt +:+ "[" +:+ pretty (i + 1) +:+ "] (from " +:+ source
         +:+ ") " +:+ text +:+ nl +:+ nl)
  end.

Definition build_prompt (question : string) (results : list (Hit F)) : string :=
  let user_prompt := "Question: " +:+ question +:+ nl +:+ nl +:+ "Sources:" +:+ nl in
  let user_prompt := add_sources 0 results user_prompt in
  let user_prompt :=
    user_prompt +:+ nl
    +:+ "Answer the question using only the information above. Cite sources using [1], [2], etc." in
  system_prompt +:+ nl +:+ nl +:+ user_prompt.

Definition retrieved_of (r : Hit F) : Retrieved F :=
  {| source := Indexer.metadata r !! "source";
     text := str_prefix 200 (default "" (Indexer.metadata r !! "text"));
     score := Indexer.score r |}.

(** The handler of [POST /query]: every exception becomes a response with
    status 500. *)
Definition query (indexer : FaissIndexer F) (question : string) (top_k : Z)
    (w : W) : response F * W :=
  match Embedder.embed_texts [question] Embedder.default_max_retries w with
  | (None, w') => (HttpError 500 EmbedFailed, w')
  | (Some [], w') => (HttpError 500 EmbedFailed, w')
  | (Some (question_embedding :: _), w') =>
      match Indexer.query indexer question_embedding top_k with
      | Py.Raise e => (HttpError 500 (Unexpected e), w')
      | Py.Ok results =>
          match generate_content (build_prompt question results) w' with
          | (None, w'') => (HttpError 500 GenerateFailed, w'')
          | (Some answer, w'') =>
              (Answered answer (retrieved_of <$> results), w'')
          end
      end
  end.

End WithCapabilities.
End Retriever.

(* ===================================================================== *)
(** * src/api_ingestion.py *)
(* ===================================================================== *)

(** The JSON body of a page: the keys ['results'] and ['data'] may each be
    absent. *)
Record Page (R : Type) := mkPage {
  page_results : option (list R);
  page_data : option (list R);
}.
Global Arguments mkPage {R} page_results page_data.
Global Arguments page_results {R} _.
Global Arguments page_data {R} _.

(** The remote API ([session.get] with the [limit] and [offset]
    parameters, [raise_for_status] and [json]): [None] stands for a
    [RequestException]. *)
Class HttpService (R W : Type) := {
  http_get : Z → Z → W → option (Page R) * W;
}.

Module ApiIngestion.

Record APIDataFetcher := mkFetcher {
  rate_limit : Z;
  batch_size : Z;
}.

(** How the generator ends: it returns, the last retry of a request
    failed, the rate-limiting sleep raised, or the model ran out of
    fuel. *)
Inductive ending : Type :=
  | Returned
  | RequestFailed
  | Raised (e : Py.exn)
  | OutOfFuel.

(** A record of the API, with the keys [fetch_rest_api] reads. *)
Record ApiRecord := mkApiRecord {
  rec_id : option string;
  rec_content : option string;
  rec_description : option string;
  rec_title : option string;
  rec_url : option string;
  rec_created_at : option string;
  rec_category : option string;
}.

(** The document [fetch_rest_api] yields for a record. The key ['id'] is
    always set, to [None] when the record has none, and [str(None)] is
    ["None"]. *)
Definition to_document (record : ApiRecord) : Builder.Document :=
  Builder.mkDocument
    (Some (default "None" (rec_id record)))
    (Some (match rec_content record with
           | Some c => c
           | None => default "" (rec_description record)
           end))
    (Some {[ "title" := default "" (rec_title record);
             "url" := default "" (rec_url record);
             "created_at" := default "" (rec_created_at record);
             "category" := default "" (rec_category record) ]}).

(** The ids under which the documents of a list of records are
    processed. *)
Definition record_ids (records : list ApiRecord) : gset string :=
  list_to_set ((λ record, default "None" (rec_id record)) <$> records).

Section WithService.
Context {R W : Type} {http : HttpService R W}.

(** [data.get('results', data.get('data', []))] *)
Definition page_records (page : Page R) : list R :=
  match page_results page with
  | Some records => records
  | None => default [] (page_data page)
  end.

(** The [while True] loop of [fetch_paginated]: the batches it yields, how
    it ends and the state of the API it leaves. [fuel] bounds the passes of
    the loop; a pass sleeps for [1.0 / rate_limit] seconds, which raises
    for a rate of zero ([ZeroDivisionError]) and for a negative one
    ([ValueError]); a request that fails is retried, and the failure of
    the last attempt is raised again. *)
Fixpoint fetch_loop (fuel : nat) (self : APIDataFetcher)
    (total_records : option Z) (max_retries : nat)
    (offset records_fetched : Z) (w : W) : list (list R) * ending * W :=
  match fuel with
  | O => ([], OutOfFuel, w)
  | S fuel' =>
      if rate_limit self =? 0 then ([], Raised Py.ZeroDivisionError, w)
      else if rate_limit self <? 0 then ([], Raised Py.ValueError, w)
      else
        match Embedder.with_retries max_retries
                (http_get (batch_size self) offset) w with
        | (Embedder.Exhausted, w') =>
            fetch_loop fuel' self total_records max_retries offset
              records_fetched w'
        | (Embedder.Failed, w') => ([], RequestFailed, w')
        | (Embedder.Succeeded page, w') =>
            match page_records page with
            | [] => ([], Returned, w')
            | records =>
                let fetched := records_fetched + Py.len records in
                let reached :=
                  match total_records with
                  | Some total => negb (total =? 0) && (total <=? fetched)
                  | None => false
                  end in
                if reached then ([records], Returned, w')
                else
                  let '(batches, e, w'') :=
                    fetch_loop fuel' self total_records max_retries
                      (offset + batch_size self) fetched w' in
                  (records :: batches, e, w'')
            end
        end
  end.

(** [fetch_paginated], run until the generator ends. *)
Definition fetch_paginated (fuel : nat) (self : APIDataFetcher)
    (total_records : option Z) (max_retries : nat) (w : W)
    : list (list R) * ending * W :=
  fetch_loop fuel self total_records max_retries 0 0 w.

End WithService.

(** [CustomAPIFetcher.fetch_rest_api]: the documents of all batches. *)
Definition fetch_rest_api {W : Type} {http : HttpService ApiRecord W}
    (fuel : nat) (w : W) : list Builder.Document * ending * W :=
  let '(batches, e, w') :=
    fetch_paginated fuel (mkFetcher 5 100) None 3 w in
  (to_document <$> concat batches, e, w').

End ApiIngestion.

(* ===================================================================== *)
(** * Concrete capabilities and data for the pipelines *)
(* ===================================================================== *)

(** A data folder with two text files, one file of another kind and one
    text file that cannot be read. *)
Definition toy_folder : IndexBuild.DataFolder :=
  IndexBuild.mkDataFolder ["a.txt"; "notes.md"; "locked.txt"; "b.txt"]
    (λ path,
       if decide (path = "data/a.txt") then Some "abcdefgh"
       else if decide (path = "data/b.txt") then Some "   "
       else None).

(** The file-based build on the concrete capabilities, in a directory
    without index files. *)
Definition toy_index_build : IndexBuild.ending Z nat :=
  IndexBuild.build_index (tok:=char_tokenizer) (svc:=toy_service)
    (fl:=axis_floats) 1001 toy_folder (Indexer.mkIndexFiles None None) 0%nat.

(** A generation service that gives the same answer to every prompt and
    counts the requests like [toy_service]. *)
Definition toy_generator : GenerateService nat :=
  {| generate_content := λ _ w,
       (Some "I don't know from the provided sources.", S w) |}.

(** A metadata record with a source and a text of 300 characters. *)
Definition long_record (source : string) : Metadata :=
  {[ "source" := source;
     "text" := string_of_list_ascii (replicate 300 "t"%char) ]}.

Definition sourced3 : Indexer.FaissIndexer Z :=
  Indexer.mkFaissIndexer 2
    (Indexer.mkFlatIndex 2 [[0; 1]; [1; 0]; [-1; 0]])
    [long_record "data/a.txt"; long_record "data/b.txt"; alpha].

(** An API that serves the records of a list, [limit] at a time, under the
    key ['results'], and counts the requests. *)
Definition paged_service {R : Type} (all : list R) : HttpService R nat :=
  {| http_get := λ limit offset w,
       (Some (mkPage (Some (Py.slice all offset (offset + limit))) None),
        S w) |}.

(** An API record that has a content and nothing else. *)
Definition anonymous (content : string) : ApiIngestion.ApiRecord :=
  ApiIngestion.mkApiRecord None (Some content) None None None None None.

(** A service that fails every request. *)
Definition down_service {R : Type} : HttpService R nat :=
  {| http_get := λ _ _ w, (None, S w) |}.

(* ===================================================================== *)
(** * Properties of the chunker *)
(* ===================================================================== *)

Module ChunkerFacts.
Import Chunker.

Section Loop.
Context {tok : Tokenizer}.
Variables (tokens : list Z) (m o : Z).
Hypothesis decode_total : ∀ l, is_Some (decode l).

Local Abbreviation L := (Py.len tokens).

Lemma chunk_loop_returns fuel start idx acc :
  (Z.to_nat (max_chunks - idx) < fuel)%nat →
  is_Some (chunk_loop fuel tokens m o start idx acc).
Proof.
  revert start idx acc.
  induction fuel as [|fuel IH]; intros start idx acc Hfuel; [lia|].
  simpl.
  destruct ((start <? L) && (idx <? max_chunks)) eqn:Hcond; [|by eexists].
  apply andb_prop in Hcond as [_ Hidx]. apply Z.ltb_lt in Hidx.
  destruct (decode_total (Py.slice tokens start (Z.min (start + m) L)))
    as [txt ->].
  apply IH. unfold max_chunks in *. lia.
Qed.

Lemma chunk_loop_chain fuel start idx acc r :
  chunk_loop fuel tokens m o start idx acc = Some r →
  ∃ new s',
    r = acc ++ new ∧ chain L m o start new s' ∧
    (new ≠ [] → idx + Py.len new ≤ max_chunks) ∧
    (L ≤ s' ∨ max_chunks ≤ idx + Py.len new) ∧
    (start < L → idx < max_chunks → new ≠ []).
Proof.
  revert start idx acc r.
  induction fuel as [|fuel IH]; intros start idx acc r Hrun; [done|].
  simpl in Hrun.
  destruct ((start <? L) && (idx <? max_chunks)) eqn:Hcond.
  - apply andb_prop in Hcond as [Hs Hidx].
    apply Z.ltb_lt in Hs. apply Z.ltb_lt in Hidx.
    destruct (decode_total (Py.slice tokens start (Z.min (start + m) L)))
      as [txt Htxt].
    rewrite Htxt in Hrun.
    apply IH in Hrun as (new & s' & -> & Hch & Hlen & Hexit & _).
    eexists (_ :: new), s'. split; [by rewrite <- app_assoc|].
    split; [by constructor|].
    unfold Py.len in *. simpl length.
    split; [|split; [|done]].
    + intros _. destruct new as [|c new]; [simpl; lia|].
      specialize (Hlen ltac:(done)). simpl length in *. lia.
    + destruct Hexit as [?|?]; [by left|right]. lia.
  - injection Hrun as <-. exists [], start.
    split; [by rewrite app_nil_r|]. split; [constructor|].
    split; [done|]. split; [|].
    + apply andb_false_iff in Hcond as [Hc|Hc]; apply Z.ltb_ge in Hc.
      * by left.
      * right. unfold Py.len. simpl. lia.
    + intros Hs Hidx.
      apply andb_false_iff in Hcond as [Hc|Hc]; apply Z.ltb_ge in Hc; lia.
Qed.

End Loop.

(** ** Shape of a chain of windows *)

Section Chain.
Variables (L m o : Z).

Lemma chain_head s c cs s' :
  chain L m o s (c :: cs) s' → start_token c = s.
Proof. by inversion 1. Qed.

Lemma chain_window s cs s' c :
  chain L m o s cs s' → c ∈ cs →
  end_token c = Z.min (start_token c + m) L.
Proof.
  induction 1 as [|s c' cs s' Hs He _ IH]; intros Hin.
  - by apply elem_of_nil in Hin.
  - apply elem_of_cons in Hin as [->|Hin]; [by rewrite Hs|auto].
Qed.

Lemma chain_next s cs s' i c c' :
  chain L m o s cs s' → cs !! i = Some c → cs !! S i = Some c' →
  start_token c' = end_token c - o.
Proof.
  intros Hch. revert i.
  induction Hch as [|s c0 cs s' Hs He Hch IH]; intros i Hi HSi; [done|].
  destruct i as [|i]; simpl in *.
  - injection Hi as ->. destruct cs as [|c1 cs]; [done|].
    injection HSi as ->. by apply chain_head in Hch.
  - eauto.
Qed.

(** Without progress ([m ≤ o]) the loop variable never grows. *)
Lemma chain_no_progress s cs s' :
  m ≤ o → chain L m o s cs s' → s' ≤ s.
Proof. intros Hmo. induction 1; lia. Qed.

Lemma chain_start_upper s cs s' c :
  m ≤ o → chain L m o s cs s' → c ∈ cs → start_token c ≤ s.
Proof.
  intros Hmo. induction 1 as [|s c0 cs s' Hs He _ IH]; intros Hin.
  - by apply elem_of_nil in Hin.
  - apply elem_of_cons in Hin as [->|Hin]; [lia|].
    specialize (IH Hin). lia.
Qed.

(** With progress the [i]-th window starts no earlier than [i] steps
    after the first one, unless it has reached the tail. *)
Lemma chain_start_lower s cs s' i c :
  o < m → chain L m o s cs s' → cs !! i = Some c →
  Z.min (s + Z.of_nat i * (m - o)) (L - o) ≤ start_token c.
Proof.
  intros Hmo Hch. revert i.
  induction Hch as [|s c0 cs s' Hs He Hch IH]; intros i Hi; [done|].
  destruct i as [|i]; simpl in Hi.
  - injection Hi as ->. lia.
  - apply IH in Hi. nia.
Qed.

Lemma chain_end s cs s' c :
  chain L m o s cs s' → last cs = Some c → s' = end_token c - o.
Proof.
  induction 1 as [|s c0 cs s' Hs He Hch IH]; intros Hl; [done|].
  destruct cs as [|c1 cs].
  - simpl in Hl. injection Hl as ->. by inversion Hch.
  - apply IH. by rewrite last_cons_cons in Hl.
Qed.

(** Consecutive windows leave no gap. *)
Lemma chain_covers s cs s' c p :
  0 ≤ o → chain L m o s cs s' → last cs = Some c →
  s ≤ p < end_token c →
  ∃ c', c' ∈ cs ∧ start_token c' ≤ p < end_token c'.
Proof.
  intros Ho Hch. revert p.
  induction Hch as [|s c0 cs s' Hs He Hch IH]; intros p Hl Hp; [done|].
  destruct cs as [|c1 cs].
  - simpl in Hl. injection Hl as ->. exists c. split; [by left|lia].
  - rewrite last_cons_cons in Hl.
    destruct (decide (p < end_token c0)) as [Hlt|Hge].
    + exists c0. split; [by left|lia].
    + destruct (IH p Hl) as (c' & Hin & Hc'); [lia|].
      exists c'. split; [by right|done].
Qed.

End Chain.
End ChunkerFacts.

Module ChunkerTheorems.
Import Chunker ChunkerFacts.

Section Results.
Context {tok : Tokenizer}.

(** C2 (as amended). [chunk_text] has no check of its window parameters:
    when [max_tokens <= overlap] it raises nothing. When the windows of the
    text all decode it returns, given enough fuel: no chunk for a text that
    is blank, that the tokenizer rejects or that has no token, and
    otherwise exactly the [max_chunks = 1000] chunks the safety limit
    allows, none of which starts after offset 0. *)
Theorem C2_no_parameter_check (fuel : nat) (text : string)
    (max_tokens overlap : Z) :
  (∀ l, is_Some (decode l)) →
  max_tokens ≤ overlap →
  (1000 < fuel)%nat →
  ∃ chunks,
    chunk_text fuel text max_tokens overlap = Some chunks ∧
    length chunks
    = (if Py.blank text then 0
       else match encode text with
            | Some (_ :: _) => 1000
            | _ => 0
            end)%nat ∧
    ∀ c, c ∈ chunks → start_token c ≤ 0.
Proof.
  intros Hdec Hmo Hfuel.
  assert (∀ c : Chunk, c ∈ [] → start_token c ≤ 0) as Hnil
    by (intros c Hc; by apply elem_of_nil in Hc).
  unfold chunk_text.
  destruct (Py.blank text); [by exists []|].
  destruct (encode text) as [[|t tokens]|]; [by exists []| |by exists []].
  set (toks := t :: tokens).
  assert (0 < Py.len toks) as HL by (unfold Py.len; simpl; lia).
  replace (Py.len toks =? 0) with false by (symmetry; apply Z.eqb_neq; lia).
  destruct (chunk_loop_returns toks max_tokens overlap Hdec fuel 0 0 [])
    as [chunks Hrun]; [unfold max_chunks; simpl; lia|].
  exists chunks. split; [done|].
  apply (chunk_loop_chain toks max_tokens overlap Hdec) in Hrun
    as (new & s' & -> & Hch & Hlen & Hexit & Hnonempty).
  simpl. specialize (Hnonempty HL ltac:(unfold max_chunks; lia)).
  specialize (Hlen Hnonempty).
  pose proof (chain_no_progress _ _ _ _ _ _ Hmo Hch) as Hs'.
  split; [|intros c Hc; exact (chain_start_upper _ _ _ _ _ _ c Hmo Hch Hc)].
  clearbody toks. unfold max_chunks, Py.len in *. lia.
Qed.

(** C3 (as amended). For a text with [L > 0] tokens whose windows all
    decode and [max_tokens > overlap >= 0], [chunk_text] returns, given
    enough fuel, between 1 and 1000 chunks; the first starts at 0; every
    chunk ends at [min (start + max_tokens) L], so it holds at most
    [max_tokens] tokens; each chunk starts [overlap] tokens before the end
    of the one before it, which is an advance of [max_tokens - overlap]
    whenever that one ended before [L]; and when the safety limit does not
    cut the text short ([L <= 999 * (max_tokens - overlap) + max_tokens])
    the last chunk ends at [L] and every offset of [0, L) lies in some
    chunk. *)
Theorem C3_windows (fuel : nat) (text : string) (tokens : list Z)
    (max_tokens overlap : Z) :
  (∀ l, is_Some (decode l)) →
  Py.blank text = false →
  encode text = Some tokens →
  tokens ≠ [] →
  0 ≤ overlap < max_tokens →
  (1000 < fuel)%nat →
  let L := Py.len tokens in
  ∃ chunks,
    chunk_text fuel text max_tokens overlap = Some chunks ∧
    (0 < length chunks ≤ 1000)%nat ∧
    start_token <$> head chunks = Some 0 ∧
    (∀ c, c ∈ chunks →
       end_token c = Z.min (start_token c + max_tokens) L ∧
       end_token c - start_token c ≤ max_tokens) ∧
    (∀ i c c', chunks !! i = Some c → chunks !! S i = Some c' →
       start_token c' = end_token c - overlap ∧
       (end_token c < L →
        start_token c' = start_token c + (max_tokens - overlap))) ∧
    (L ≤ 999 * (max_tokens - overlap) + max_tokens →
       end_token <$> last chunks = Some L ∧
       ∀ p, 0 ≤ p < L →
         ∃ c, c ∈ chunks ∧ start_token c ≤ p < end_token c).
Proof.
  intros Hdec Hblank Henc Hne Hmo Hfuel L.
  unfold chunk_text. rewrite Hblank, Henc.
  assert (0 < L) as HL.
  { unfold L, Py.len. destruct tokens; [done|simpl; lia]. }
  replace (Py.len tokens =? 0) with false
    by (symmetry; apply Z.eqb_neq; fold L; lia).
  destruct (chunk_loop_returns tokens max_tokens overlap Hdec fuel 0 0 [])
    as [chunks Hrun]; [unfold max_chunks; simpl; lia|].
  exists chunks. split; [done|].
  apply (chunk_loop_chain tokens max_tokens overlap Hdec) in Hrun
    as (new & s' & -> & Hch & Hlen & Hexit & Hnonempty).
  simpl. fold L in Hch, Hexit, Hnonempty. clearbody L.
  specialize (Hnonempty HL ltac:(unfold max_chunks; lia)).
  specialize (Hlen Hnonempty).
  unfold max_chunks, Py.len in Hlen, Hexit.
  assert (∀ c, c ∈ new → end_token c = Z.min (start_token c + max_tokens) L)
    as Hwin by (intros c Hc; exact (chain_window _ _ _ _ _ _ c Hch Hc)).
  split; [destruct new; [done|simpl in *; lia]|].
  split; [destruct new as [|c0 new]; [done|];
          simpl; f_equal; by apply chain_head in Hch|].
  split; [intros c Hc; specialize (Hwin c Hc); lia|].
  split.
  { intros i c c' Hi HSi.
    pose proof (chain_next _ _ _ _ _ _ _ _ _ Hch Hi HSi) as Hnext.
    split; [done|]. intros Hlt.
    assert (c ∈ new) as Hc by (by eapply list_elem_of_lookup_2).
    specialize (Hwin c Hc). lia. }
  intros Hcap.
  destruct (last new) as [cl|] eqn:Hlast;
    [|by apply last_None in Hlast].
  assert (end_token cl = L) as Hend.
  { assert (cl ∈ new) as Hcl.
    { rewrite last_lookup in Hlast. by eapply list_elem_of_lookup_2. }
    pose proof (Hwin cl Hcl) as Hw.
    destruct Hexit as [Hs'|Hfull].
    - rewrite (chain_end _ _ _ _ _ _ _ Hch Hlast) in Hs'.
      lia.
    - rewrite last_lookup in Hlast.
      pose proof (chain_start_lower _ _ _ _ _ _ _ _ (proj2 Hmo) Hch Hlast)
        as Hlow.
      assert (Z.of_nat (pred (length new)) = 999) as Hn by lia.
      rewrite Hn in Hlow. lia. }
  split; [simpl; by f_equal|].
  intros p Hp.
  apply (chain_covers _ _ _ _ _ _ cl p (proj1 Hmo) Hch Hlast). lia.
Qed.

End Results.

Lemma C2_no_parameter_check_witness :
  ∃ chunks,
    chunk_text (tok:=char_tokenizer) 1001 "abcde" 2 2 = Some chunks ∧
    length chunks = 1000%nat ∧
    ∀ c, c ∈ chunks → start_token c ≤ 0.
Proof.
  apply (C2_no_parameter_check (tok:=char_tokenizer) 1001 "abcde" 2 2).
  - intros l. eexists. reflexivity.
  - lia.
  - lia.
Defined.

(** C2 (counterexample). With [max_tokens = overlap = 2] the call returns
    normally, with 1000 chunks, instead of failing. *)
Lemma C2_returns_capped_chunks :
  length <$> chunk_text (tok:=char_tokenizer) 1001 "abcde" 2 2 = Some 1000%nat.
Proof. by vm_compute. Qed.

Lemma C3_windows_witness :
  ∃ chunks,
    chunk_text (tok:=char_tokenizer) 1001 "abcdefgh" 4 1 = Some chunks ∧
    (0 < length chunks ≤ 1000)%nat ∧
    start_token <$> head chunks = Some 0 ∧
    (∀ c, c ∈ chunks →
       end_token c = Z.min (start_token c + 4) 8 ∧
       end_token c - start_token c ≤ 4) ∧
    (∀ i c c', chunks !! i = Some c → chunks !! S i = Some c' →
       start_token c' = end_token c - 1 ∧
       (end_token c < 8 → start_token c' = start_token c + (4 - 1))) ∧
    (8 ≤ 999 * (4 - 1) + 4 →
       end_token <$> last chunks = Some 8 ∧
       ∀ p, 0 ≤ p < 8 →
         ∃ c, c ∈ chunks ∧ start_token c ≤ p < end_token c).
Proof.
  apply (C3_windows (tok:=char_tokenizer) 1001 "abcdefgh"
           [97; 98; 99; 100; 101; 102; 103; 104] 4 1).
  - intros l. eexists. reflexivity.
  - reflexivity.
  - reflexivity.
  - discriminate.
  - lia.
  - lia.
Defined.

(** C3 (counterexample). A text of 1001 tokens cut into windows of one
    token without overlap gives 1000 chunks, the last one being [999, 1000):
    the chunks do not reach the end of the text. And 8 tokens in windows of
    4 with overlap 1 give 1000 chunks whose start offsets are 0, 3, 6, 7,
    7, ...: once a window has reached the end of the text the start offset
    stops advancing and the loop goes on up to the safety limit. *)
Lemma C3_not_tiled :
  (Py.len <$> encode (Tokenizer:=char_tokenizer) long_text = Some 1001 ∧
   length <$> chunk_text (tok:=char_tokenizer) 1001 long_text 1 0
   = Some 1000%nat ∧
   (λ c, (start_token c, end_token c))
     <$> (chunk_text (tok:=char_tokenizer) 1001 long_text 1 0 ≫= last)
   = Some (999, 1000)) ∧
  (λ cs, (length cs, (λ c, (start_token c, end_token c)) <$> take 5 cs))
    <$> chunk_text (tok:=char_tokenizer) 1001 "abcdefgh" 4 1
  = Some (1000%nat, [(0, 4); (3, 7); (6, 8); (7, 8); (7, 8)]).
Proof. repeat split; by vm_compute. Qed.

End ChunkerTheorems.

(* ===================================================================== *)
(** * Properties of the vector index *)
(* ===================================================================== *)

Module IndexerFacts.
Import Indexer.

Section Facts.
Context {F : Type} {fl : FloatOps F}.

(** [add] stores the rows normalised, after the rows already there, and
    appends the metadata records. *)
Lemma add_rows (self self' : FaissIndexer F) vectors metas :
  add self vectors metas = Py.Ok self' →
  xb (index self') = xb (index self) ++ (normalize_L2 <$> vectors) ∧
  metadatas self' = metadatas self ++ metas ∧
  d (index self') = d (index self).
Proof.
  unfold add. destruct (columns vectors) as [c|e]; [|done].
  destruct (c =? d (index self)); [|done]. by intros [= <-].
Qed.

Lemma add_length (self self' : FaissIndexer F) vectors metas :
  add self vectors metas = Py.Ok self' →
  length (xb (index self')) = (length (xb (index self)) + length vectors)%nat ∧
  length (metadatas self') = (length (metadatas self) + length metas)%nat.
Proof.
  intros (-> & -> & _)%add_rows.
  by rewrite !length_app, length_fmap.
Qed.

Lemma scored_lookup ix q h :
  h ∈ scored ix q →
  ∃ i x, xb ix !! i = Some x ∧ h = (inner_product q x, Z.of_nat i).
Proof.
  intros [j Hj]%list_elem_of_lookup_1. unfold scored in Hj.
  rewrite list_lookup_imap in Hj.
  destruct (xb ix !! j) as [x|] eqn:Hx; [|done].
  injection Hj as <-. by exists j, x.
Qed.

Lemma scored_fst ix q : (scored ix q).*1 = inner_product q <$> xb ix.
Proof.
  unfold scored. rewrite fmap_imap.
  by rewrite <- (imap_const (inner_product q)).
Qed.

Lemma search_no_padding ix q k :
  0 ≤ k ≤ Py.len (xb ix) →
  search ix q k = take (Z.to_nat k) (merge_sort score_ge (scored ix q)) ∧
  Py.len (search ix q k) = k.
Proof.
  intros Hk. unfold search. fold (scored ix q).
  assert (length (take (Z.to_nat k) (merge_sort score_ge (scored ix q)))
          = Z.to_nat k) as Hlen.
  { rewrite length_take, (Permutation_length (merge_sort_Permutation _ _)).
    unfold scored. rewrite length_imap. unfold Py.len in Hk. lia. }
  rewrite Hlen, Nat.sub_diag. simpl. rewrite app_nil_r.
  split; [done|]. unfold Py.len. rewrite Hlen. lia.
Qed.

(** When every label is a position of the metadata list, [collect] keeps
    every hit, in order, with the record at its label. *)
Lemma collect_in_range metas hits acc :
  Forall (λ h : F * Z, 0 ≤ h.2 < Py.len metas) hits →
  ∃ res,
    collect metas hits acc = Py.Ok (acc ++ res) ∧
    Forall2 (λ h r, score r = h.1 ∧
                    metas !! Z.to_nat h.2 = Some (metadata r)) hits res.
Proof.
  intros Hall. revert acc.
  induction Hall as [|[s idx] hits Hidx _ IH]; intros acc; simpl in *.
  - exists []. by rewrite app_nil_r.
  - replace (idx <? Py.len metas) with true
      by (symmetry; apply Z.ltb_lt; lia).
    assert ((idx <? 0) = false) as Hneg by (apply Z.ltb_ge; lia).
    unfold Py.index. cbv zeta. rewrite !Hneg.
    destruct (metas !! Z.to_nat idx) as [meta|] eqn:Hmeta.
    + destruct (IH (acc ++ [mkHit s meta])) as (res & Hrun & Hres).
      rewrite Hrun.
      exists (mkHit s meta :: res).
      split; [by rewrite <- app_assoc|]. by constructor.
    + apply lookup_ge_None in Hmeta. unfold Py.len in Hidx. lia.
Qed.

(** On an index without rows every label is [-1], which passes the test
    [idx < len(self.metadatas)] and then indexes an empty list. *)
Lemma query_empty_raises (dim k : Z) (probe : list F) :
  Py.len probe = dim → 0 < k →
  query (new dim) probe k = Py.Raise Py.IndexError.
Proof.
  intros Hd Hk. unfold query. simpl.
  replace (Py.len probe =? dim) with true by (symmetry; by apply Z.eqb_eq).
  replace (0 <? k) with true by (symmetry; by apply Z.ltb_lt).
  simpl. unfold search. simpl.
  destruct (Z.to_nat k) as [|n] eqn:Hn; [lia|]. by simpl.
Qed.

Lemma collect_app metas (hits1 hits2 : list (F * Z)) acc :
  collect metas (hits1 ++ hits2) acc
  = match collect metas hits1 acc with
    | Py.Ok r => collect metas hits2 r
    | Py.Raise e => Py.Raise e
    end.
Proof.
  revert acc. induction hits1 as [|[s idx] hits1 IH]; intros acc; simpl;
    [done|].
  destruct (idx <? Py.len metas); [|done].
  by destruct (Py.index metas idx).
Qed.

(** The filling labels [-1] each yield the last metadata record. *)
Lemma collect_padding metas (last_meta : Metadata) (n : nat) acc :
  last metas = Some last_meta →
  collect metas (replicate n (lowest, -1)) acc
  = Py.Ok (acc ++ replicate n (mkHit lowest last_meta)).
Proof.
  intros Hlast.
  assert (0 < Py.len metas) as Hlen.
  { unfold Py.len. destruct metas; [done|simpl; lia]. }
  assert (Py.index metas (-1) = Py.Ok last_meta) as Hidx.
  { unfold Py.index. simpl.
    replace (-1 + Py.len metas <? 0) with false
      by (symmetry; apply Z.ltb_ge; lia).
    rewrite last_lookup in Hlast.
    replace (Z.to_nat (-1 + Py.len metas)) with (pred (length metas))
      by (unfold Py.len; lia).
    by rewrite Hlast. }
  revert acc. induction n as [|n IH]; intros acc; simpl.
  - by rewrite app_nil_r.
  - replace (-1 <? Py.len metas) with true by (symmetry; apply Z.ltb_lt; lia).
    rewrite Hidx, IH. by rewrite <- app_assoc.
Qed.

(** On an index that holds a record, asking for more neighbours than are
    stored gives as many hits as were asked for: every filling label
    contributes the last metadata record once more. *)
Lemma query_beyond_stored_pads (self : FaissIndexer F) (probe : list F)
    (k : Z) (last_meta : Metadata) :
  Py.len probe = d (index self) →
  length (metadatas self) = length (xb (index self)) →
  last (metadatas self) = Some last_meta →
  Py.len (xb (index self)) < k →
  ∃ stored,
    query self probe k
    = Py.Ok (stored ++ replicate (Z.to_nat k - length (xb (index self)))
                         (mkHit lowest last_meta)) ∧
    length stored = length (xb (index self)).
Proof.
  intros Hd Hlock Hlast Hk. unfold query.
  replace (Py.len probe =? d (index self)) with true
    by (symmetry; by apply Z.eqb_eq).
  replace (0 <? k) with true
    by (symmetry; apply Z.ltb_lt; unfold Py.len in Hk; lia).
  simpl. unfold search.
  set (q := normalize_L2 probe). set (ix := index self).
  assert (length (merge_sort score_ge (scored ix q)) = length (xb ix))
    as Hsorted.
  { rewrite (Permutation_length (merge_sort_Permutation _ _)).
    unfold scored. by rewrite length_imap. }
  rewrite take_ge by (unfold Py.len in Hk; fold ix in Hk; lia).
  rewrite Hsorted, collect_app.
  assert (Forall (λ h : F * Z, 0 ≤ h.2 < Py.len (metadatas self))
            (merge_sort score_ge (scored ix q))) as Hrange.
  { apply Forall_forall. intros h Hh.
    rewrite merge_sort_Permutation in Hh.
    apply scored_lookup in Hh as (i & x & Hx & ->). simpl.
    apply lookup_lt_Some in Hx. unfold Py.len, ix in *. lia. }
  destruct (collect_in_range (metadatas self) _ [] Hrange)
    as (stored & Hrun & Hrel).
  rewrite Hrun. simpl.
  rewrite (collect_padding _ last_meta _ _ Hlast).
  exists stored. split; [done|].
  apply Forall2_length in Hrel. by rewrite <- Hrel.
Qed.

End Facts.

Section Order.
Context {F : Type} {fl : FloatOps F} {ord : FloatOrder F}.

Global Instance score_ge_total : Total (score_ge (F:=F)).
Proof. intros a b. unfold score_ge. destruct (fle_total a.1 b.1); auto. Qed.

Global Instance score_ge_trans : Transitive (score_ge (F:=F)).
Proof. intros a b c Hab Hbc. unfold score_ge in *. by eapply fle_trans. Qed.

Lemma search_sorted ix q k :
  0 ≤ k ≤ Py.len (xb ix) → StronglySorted score_ge (search ix q k).
Proof.
  intros Hk. rewrite (proj1 (search_no_padding ix q k Hk)).
  pose proof (StronglySorted_merge_sort score_ge (scored ix q)) as Hs.
  rewrite <- (take_drop (Z.to_nat k)) in Hs.
  by apply StronglySorted_app_1_l in Hs.
Qed.

(** A descending list without repeated scores descends strictly. *)
Lemma sorted_strict (l : list F) :
  StronglySorted (λ a b, fle b a = true) l → NoDup l →
  StronglySorted (λ a b, fle a b = false) l.
Proof.
  induction 1 as [|a l _ IH Hall]; intros Hnd; [constructor|].
  apply NoDup_cons in Hnd as [Hnotin Hnd].
  constructor; [auto|].
  apply Forall_forall. intros b Hb.
  rewrite Forall_forall in Hall. specialize (Hall b Hb).
  destruct (fle a b) eqn:Hab; [|done].
  assert (a = b) as -> by (by apply fle_antisym). done.
Qed.

End Order.
End IndexerFacts.

Module IndexerTheorems.
Import Indexer IndexerFacts.

(** The integer order is a total order, so [axis_floats] is ordered. *)
Lemma axis_order : @FloatOrder Z axis_floats.
Proof.
  split; simpl.
  - intros x y. destruct (Z.leb_spec x y); [by left|right].
    apply Z.leb_le. lia.
  - intros x y z Hxy%Z.leb_le Hyz%Z.leb_le. apply Z.leb_le. lia.
  - intros x y Hxy%Z.leb_le Hyx%Z.leb_le. lia.
Qed.

(** C1 (the code at the failing inputs). On an empty index
    [query(v, 1)] raises [IndexError] instead of returning an empty list;
    on an index that holds one record [query(v, 2)] returns two hits, the
    second being the stored record once more with the score of a missing
    neighbour. *)
Theorem C1_query_beyond_stored :
  query (fl:=axis_floats) (new 2) [1; 0] 1 = Py.Raise Py.IndexError ∧
  add (fl:=axis_floats) (new 2) [[1; 0]] [alpha] = Py.Ok one_record ∧
  query (fl:=axis_floats) one_record [1; 0] 2
  = Py.Ok [mkHit 1 alpha; mkHit (- (2 ^ 128 - 2 ^ 104)) alpha].
Proof. split; [|split]; by vm_compute. Qed.

(** C6. [save] followed by [load] on a fresh indexer, of whatever
    dimension and whatever the files held before, gives an indexer with
    the same rows in the same order and the same metadata sequence, so
    that position [i] of the metadata still belongs to row [i], and every
    query has the same result as on the saved indexer. *)
Theorem C6_save_load_roundtrip {F : Type} {fl : FloatOps F}
    (self : FaissIndexer F) (fs : IndexFiles F) (dim' : Z) :
  ∃ loaded,
    load (new dim') (save self fs) = (loaded, true) ∧
    metadatas loaded = metadatas self ∧
    index loaded = index self ∧
    (∀ i, xb (index loaded) !! i = xb (index self) !! i ∧
          metadatas loaded !! i = metadatas self !! i) ∧
    (∀ probe k, query loaded probe k = query self probe k).
Proof.
  eexists. split; [reflexivity|]. simpl. by repeat split.
Qed.

Section Ranking.
Context {F : Type} {fl : FloatOps F} {ord : FloatOrder F}.

(** C7 (as amended). On an index whose metadata list is as long as its
    row list, for a probe of the index dimension and [0 < k <= n] where
    [n] rows are stored, [query] returns [k] hits ordered by non-increasing
    score; each hit carries the metadata at the position of some stored
    row and its score is the inner product of the normalised probe with
    that row (rows are stored normalised, [add_rows]); when the inner
    products of the probe with the stored rows are pairwise distinct the
    order is strictly descending. *)
Theorem C7_query_ranking (self : FaissIndexer F) (probe : list F) (k : Z) :
  Py.len probe = d (index self) →
  0 < k ≤ Py.len (xb (index self)) →
  length (metadatas self) = length (xb (index self)) →
  ∃ hits,
    query self probe k = Py.Ok hits ∧
    Py.len hits = k ∧
    StronglySorted (λ a b, fle (score b) (score a) = true) hits ∧
    Forall (λ h, ∃ i x,
              xb (index self) !! i = Some x ∧
              metadatas self !! i = Some (metadata h) ∧
              score h = inner_product (normalize_L2 probe) x) hits ∧
    (NoDup (inner_product (normalize_L2 probe) <$> xb (index self)) →
     StronglySorted (λ a b, fle (score a) (score b) = false) hits).
Proof.
  intros Hd Hk Hlock. unfold query.
  replace (Py.len probe =? d (index self)) with true
    by (symmetry; by apply Z.eqb_eq).
  replace (0 <? k) with true by (symmetry; apply Z.ltb_lt; lia).
  simpl.
  set (q := normalize_L2 probe). set (ix := index self).
  assert (0 ≤ k ≤ Py.len (xb ix)) as Hk' by (unfold ix; lia).
  destruct (search_no_padding ix q k Hk') as [Hsearch Hlen].
  pose proof (search_sorted ix q k Hk') as Hsorted.
  assert (Forall (λ h, h ∈ scored ix q) (search ix q k)) as Hin.
  { rewrite Hsearch. apply Forall_forall. intros h Hh.
    apply (subseteq_take (Z.to_nat k)) in Hh.
    by rewrite merge_sort_Permutation in Hh. }
  assert (Forall (λ h : F * Z, 0 ≤ h.2 < Py.len (metadatas self))
            (search ix q k)) as Hrange.
  { eapply Forall_impl; [exact Hin|]. intros h Hh. simpl in Hh.
    apply scored_lookup in Hh as (i & x & Hx & ->). simpl.
    apply lookup_lt_Some in Hx. unfold Py.len, ix in *. lia. }
  destruct (collect_in_range (metadatas self) (search ix q k) [] Hrange)
    as (hits & Hrun & Hrel).
  exists hits. split; [done|].
  assert (score <$> hits = (search ix q k).*1) as Hscores.
  { clear -Hrel. induction Hrel as [|h r hs rs [Hs _] _ IH]; [done|].
    rewrite !fmap_cons. by rewrite Hs, IH. }
  assert (StronglySorted (λ a b : F, fle b a = true) (score <$> hits))
    as Hdesc.
  { rewrite Hscores. clear -Hsorted.
    induction Hsorted as [|h hs _ IH Hall]; [constructor|].
    rewrite fmap_cons. constructor; [done|].
    apply Forall_fmap. eapply Forall_impl; [exact Hall|]. by intros. }
  split.
  { apply Forall2_length in Hrel. unfold Py.len in *. lia. }
  split.
  { clear -Hdesc. induction hits as [|h hits IH]; [constructor|].
    rewrite fmap_cons in Hdesc. apply StronglySorted_inv in Hdesc as [Htl Hhd].
    constructor; [auto|]. by apply Forall_fmap in Hhd. }
  split.
  { clear -Hrel Hin. induction Hrel as [|h r hs rs [Hs Hm] _ IH];
      [constructor|].
    apply Forall_cons in Hin as [Hh Hin]. constructor; [|auto].
    apply scored_lookup in Hh as (i & x & Hx & ->). simpl in *.
    exists i, x. by rewrite Nat2Z.id in Hm. }
  intros Hnd.
  assert (NoDup (score <$> hits)) as Hnd'.
  { rewrite Hscores, Hsearch, fmap_take.
    eapply sublist_NoDup; [|apply sublist_take].
    rewrite merge_sort_Permutation. by rewrite scored_fst. }
  pose proof (sorted_strict _ Hdesc Hnd') as Hstrict.
  clear -Hstrict. induction hits as [|h hits IH]; [constructor|].
  rewrite fmap_cons in Hstrict.
  apply StronglySorted_inv in Hstrict as [Htl Hhd].
  constructor; [auto|]. by apply Forall_fmap in Hhd.
Qed.

End Ranking.

Lemma C7_query_ranking_witness :
  ∃ hits,
    query (fl:=axis_floats) ranked3 [1; 0] 3 = Py.Ok hits ∧
    Py.len hits = 3 ∧
    StronglySorted (λ a b, (score b <=? score a) = true) hits ∧
    Forall (λ h, ∃ i x,
              xb (index ranked3) !! i = Some x ∧
              metadatas ranked3 !! i = Some (metadata h) ∧
              score h = dot (axis_normalize [1; 0]) x) hits ∧
    (NoDup (dot (axis_normalize [1; 0]) <$> xb (index ranked3)) →
     StronglySorted (λ a b, (score a <=? score b) = false) hits).
Proof.
  apply (C7_query_ranking (ord:=axis_order) ranked3 [1; 0] 3);
    [reflexivity | vm_compute; by split | reflexivity].
Defined.

(** C7 (counterexample). Two stored copies of one vector have the same
    score for every probe: the hits of [query([1, 0], 2)] on [twins] both
    score [1], so the order is not strictly descending. *)
Lemma C7_equal_scores :
  add (fl:=axis_floats) (new 2) [[1; 0]; [1; 0]] [alpha; beta] = Py.Ok twins ∧
  ∃ hits,
    query (fl:=axis_floats) twins [1; 0] 2 = Py.Ok hits ∧
    score <$> hits = [1; 1].
Proof. split; [by vm_compute|]. eexists. split; by vm_compute. Qed.

End IndexerTheorems.

(* ===================================================================== *)
(** * Properties of the embedding client *)
(* ===================================================================== *)

Module EmbedderFacts.
Import Embedder.

Lemma take_min_length {A} (l : list A) (k : nat) :
  take (k `min` length l) l = take k l.
Proof.
  destruct (decide (k ≤ length l)%nat).
  - by rewrite Nat.min_l.
  - rewrite Nat.min_r by lia. by rewrite !take_ge by lia.
Qed.

(** A slice with non-negative bounds, in terms of [take] and [drop]. *)
Lemma slice_nonneg {A} (l : list A) (a n : nat) :
  take a l ++ Py.slice l (Z.of_nat a) (Z.of_nat a + Z.of_nat n)
  = take (a + n) l.
Proof.
  unfold Py.slice, Py.clamp, Py.len.
  replace (Z.of_nat a <? 0) with false by (symmetry; apply Z.ltb_ge; lia).
  replace (Z.of_nat a + Z.of_nat n <? 0) with false
    by (symmetry; apply Z.ltb_ge; lia).
  destruct (decide (a ≤ length l)%nat) as [Hle|Hgt].
  - replace (Z.to_nat (Z.of_nat a `min` Z.of_nat (length l))) with a by lia.
    replace (Z.to_nat ((Z.of_nat a + Z.of_nat n) `min` Z.of_nat (length l)
                       - Z.of_nat a `min` Z.of_nat (length l)))
      with (((a + n) `min` length l) - a)%nat by lia.
    rewrite take_take_drop.
    replace (a + ((a + n) `min` length l - a))%nat
      with ((a + n) `min` length l)%nat by lia.
    apply take_min_length.
  - replace (Z.to_nat ((Z.of_nat a + Z.of_nat n) `min` Z.of_nat (length l)
                       - Z.of_nat a `min` Z.of_nat (length l)))
      with 0%nat by lia.
    simpl. rewrite app_nil_r. by rewrite !take_ge by lia.
Qed.

(** The sub-batches of [embed_texts] are the input, cut in order. *)
Lemma sub_batches_concat (texts : list string) :
  concat ((λ i, Py.slice texts (Z.of_nat i) (Z.of_nat i + Z.of_nat batch_size))
            <$> range_step (length texts) batch_size) = texts.
Proof.
  unfold range_step.
  assert (∀ c, concat ((λ i, Py.slice texts (Z.of_nat i)
                               (Z.of_nat i + Z.of_nat batch_size))
                         <$> ((λ j, j * batch_size)%nat <$> seq 0 c))
               = take (c * batch_size) texts) as Hc.
  { induction c as [|c IH]; [done|].
    rewrite seq_S, !fmap_app, concat_app, IH. simpl.
    rewrite app_nil_r. rewrite slice_nonneg. f_equal.
    unfold batch_size. lia. }
  rewrite Hc. apply take_ge. unfold batch_size.
  pose proof (Nat.div_mod_eq (length texts + 50 - 1) 50) as Hdiv.
  pose proof (Nat.mod_upper_bound (length texts + 50 - 1) 50) as Hmod.
  lia.
Qed.

Section Facts.
Context {F W : Type} {svc : EmbedService F W}.

Lemma with_retries_result {A} (n : nat) (body : W → option A * W) w r w' :
  with_retries n body w = (r, w') →
  match r with
  | Succeeded a => ∃ w0, body w0 = (Some a, w')
  | Failed => True
  | Exhausted => n = 0%nat
  end.
Proof.
  revert w. induction n as [|n IH]; intros w Hrun; simpl in Hrun.
  - by injection Hrun as <- <-.
  - destruct (body w) as [[a|] w1] eqn:Hbody.
    + injection Hrun as <- <-. by exists w.
    + destruct n as [|n]; [by injection Hrun as <- <-|].
      apply IH in Hrun. by destruct r.
Qed.

Lemma embed_each_length batch w es w' :
  embed_each batch w = (Some es, w') → length es = length batch.
Proof.
  revert w es. induction batch as [|text batch IH]; intros w es Hrun;
    simpl in Hrun.
  - by injection Hrun as <- <-.
  - destruct (embed_content retrieval_document text w) as [[e|] w1]; [|done].
    destruct (embed_each batch w1) as [[es1|] w2] eqn:Hrest; [|done].
    injection Hrun as <- <-. simpl. f_equal. by eapply IH.
Qed.

Lemma embed_batches_length n batches acc w es w' :
  (0 < n)%nat →
  embed_batches n batches acc w = (Some es, w') →
  length es = (length acc + length (concat batches))%nat.
Proof.
  intros Hn. revert acc w.
  induction batches as [|batch batches IH]; intros acc w Hrun;
    simpl in Hrun.
  - injection Hrun as <- <-. simpl. lia.
  - destruct (with_retries n (embed_each batch) w) as [r w1] eqn:Hretry.
    apply with_retries_result in Hretry.
    destruct r as [bes| |]; [|done|lia].
    destruct Hretry as [w0 Hbody%embed_each_length].
    apply IH in Hrun. rewrite Hrun, !length_app. simpl.
    rewrite length_app. lia.
Qed.

(** With the default number of attempts a successful [embed_texts]
    returns one vector per text. *)
Lemma embed_texts_length texts w vectors w' :
  embed_texts texts default_max_retries w = (Some vectors, w') →
  length vectors = length texts.
Proof.
  unfold embed_texts. intros Hrun.
  assert (∀ w, embed_batches default_max_retries
                 ((λ i, Py.slice texts (Z.of_nat i)
                          (Z.of_nat i + Z.of_nat batch_size))
                    <$> range_step (length texts) batch_size) [] w
               = (Some vectors, w') → length vectors = length texts)
    as Hbatches.
  { intros w0 Hb. apply embed_batches_length in Hb;
      [|unfold default_max_retries; lia].
    by rewrite Hb, sub_batches_concat. }
  destruct texts as [|text [|text' texts]]; [by eapply Hbatches| |by eapply Hbatches].
  destruct (with_retries default_max_retries (embed_query text) w)
    as [r w1] eqn:Hretry.
  apply with_retries_result in Hretry.
  destruct r as [res| |]; [|done|done].
  injection Hrun as <- <-. destruct Hretry as [w0 Hbody].
  unfold embed_query in Hbody.
  destruct (embed_content retrieval_query text w0) as [[e|] w2]; [|done].
  by injection Hbody as <- <-.
Qed.

End Facts.
End EmbedderFacts.

(* ===================================================================== *)
(** * Properties of the incremental builder *)
(* ===================================================================== *)

Module BuilderFacts.
Import Indexer Builder.

Section Facts.
Context {F W : Type} {tok : Tokenizer} {svc : EmbedService F W}
  {fl : FloatOps F} {hash : Hasher}.

(** Loop invariants: what one document preserves, the whole stream
    preserves; [D] restricts the documents, [Q] is what holds when the run
    is aborted. *)
Lemma process_loop_inv (fuel : nat) (D : Document → Prop)
    (I : Locals → Env F W → Prop) (Q : Py.exn → Env F W → Prop) :
  (∀ doc l s, D doc → I l s →
     match process_doc fuel doc l s with
     | Done l' s' => I l' s'
     | Raised e s' => Q e s'
     | OutOfFuel => True
     end) →
  ∀ documents l s, Forall D documents → I l s →
    match process_loop fuel documents l s with
    | Done l' s' => I l' s'
    | Raised e s' => Q e s'
    | OutOfFuel => True
    end.
Proof.
  intros Hstep documents.
  induction documents as [|doc rest IH]; intros l s HD HI; simpl; [done|].
  apply Forall_cons in HD as [Hdoc HD].
  specialize (Hstep doc l s Hdoc HI).
  destruct (process_doc fuel doc l s) as [l' s'|e s'|]; [|done|done].
  by apply IH.
Qed.

(** What [_process_batch] does to the environment. *)
Lemma process_batch_effect (texts : list string) (metas : list Metadata)
    (s : Env F W) :
  match process_batch texts metas s with
  | Done _ s' =>
      ∃ vectors ix,
        length vectors = length texts ∧
        Indexer.add (indexer s) vectors metas = Py.Ok ix ∧
        indexer s' = ix ∧
        builder s' = count_chunks (Py.len texts) (builder s) ∧
        disk s' = disk s ∧
        trace s' = trace s ++ [EvFlush metas (processed_ids (builder s));
                               EvIndexed (length texts)]
  | Raised e s' =>
      indexer s' = indexer s ∧ builder s' = builder s ∧ disk s' = disk s ∧
      trace s' = trace s ++ [EvFlush metas (processed_ids (builder s));
                             EvFlushFailed e]
  | OutOfFuel => False
  end.
Proof.
  unfold process_batch. simpl.
  destruct (Embedder.embed_texts texts Embedder.default_max_retries (world s))
    as [[vectors|] w'] eqn:Hembed; simpl.
  - apply EmbedderFacts.embed_texts_length in Hembed.
    destruct (add (indexer s) vectors metas) as [ix|e] eqn:Hadd; simpl.
    + exists vectors, ix. by rewrite <- app_assoc.
    + by rewrite <- app_assoc.
  - by rewrite <- app_assoc.
Qed.

Lemma save_checkpoint_effect (n : Z) (s : Env F W) :
  builder (save_checkpoint n s) = builder s ∧
  indexer (save_checkpoint n s) = indexer s ∧
  world (save_checkpoint n s) = world s ∧
  index_files (disk (save_checkpoint n s)) = index_files (disk s) ∧
  processed_ids_file (disk (save_checkpoint n s))
  = Some (processed_ids (builder s)) ∧
  trace (save_checkpoint n s)
  = trace s ++ [EvCheckpoint (processed_ids (builder s))].
Proof. done. Qed.

(** ** Accounting of chunks *)

Lemma process_batch_grown s0 texts metas s :
  length texts = length metas →
  grown s0 s →
  match process_batch texts metas s with
  | Done _ s' | Raised _ s' => grown s0 s'
  | OutOfFuel => False
  end.
Proof.
  intros Hlen [Htot Hrows].
  pose proof (process_batch_effect texts metas s) as Heff.
  destruct (process_batch texts metas s) as [[] s'|e s'|]; [| |done].
  - destruct Heff as (vectors & ix & Hv & Hadd & Hix & Hb & _ & _).
    apply IndexerFacts.add_length in Hadd as [Hxb Hmeta].
    unfold grown, Py.len in *. rewrite Hix, Hb. simpl. lia.
  - destruct Heff as (Hix & Hb & _ & _).
    unfold grown. by rewrite Hix, Hb.
Qed.

Lemma process_doc_accounted fuel s0 doc l s :
  accounted s0 l s →
  match process_doc fuel doc l s with
  | Done l' s' => accounted s0 l' s'
  | Raised _ s' => grown s0 s'
  | OutOfFuel => True
  end.
Proof.
  intros [Hbuf Hgrown]. unfold process_doc.
  case_decide as Hseen; [done|].
  destruct (Py.blank _); [done|].
  destruct (Chunker.chunk_text _ _ _ _) as [chunks|]; [|done].
  set (texts := batch_texts l ++ (Chunker.text <$> chunks)).
  set (metas := batch_metadatas l ++ (chunk_metadata doc <$> chunks)).
  assert (length texts = length metas) as Hlen
    by (unfold texts, metas; rewrite !length_app, !length_fmap; lia).
  set (s1 := log _ _).
  assert (grown s0 s1) as Hgrown1 by done.
  destruct (batch_size (builder s) <=? Py.len texts); [|done].
  pose proof (process_batch_grown s0 texts metas s1 Hlen Hgrown1) as Hflush.
  destruct (process_batch texts metas s1) as [[] s2|e s2|]; [|done|done].
  destruct (batch_size (builder s) * 10 =? 0); [done|].
  destruct (_ =? 0); done.
Qed.

Lemma process_documents_grown fuel documents s :
  match process_documents fuel documents s with
  | Done _ s' | Raised _ s' => grown s s'
  | OutOfFuel => True
  end.
Proof.
  unfold process_documents.
  pose proof (process_loop_inv fuel (λ _, True) (accounted s)
                (λ _ s', grown s s')
                (λ doc l s1 _, process_doc_accounted fuel s doc l s1)
                documents (mkLocals [] [] 0 0) s) as Hloop.
  destruct (process_loop fuel documents (mkLocals [] [] 0 0) s)
    as [l s1|e s1|]; [|apply Hloop|done].
  - destruct Hloop as [Hbuf Hgrown].
    + by apply Forall_true.
    + split; [done|]. unfold grown. lia.
    + destruct (batch_texts l) as [|text texts] eqn:Htexts; [done|].
      pose proof (process_batch_grown s (text :: texts) (batch_metadatas l)
                    s1 Hbuf Hgrown) as Hflush.
      by destruct (process_batch (text :: texts) (batch_metadatas l) s1)
        as [[] s2|e s2|].
  - by apply Forall_true.
  - split; [done|]. unfold grown. lia.
Qed.

(** ** Blank documents *)

Lemma process_doc_blank fuel doc l s :
  Py.blank (default "" (doc_text doc)) = true →
  get_doc_id doc ∉ processed_ids (builder s) →
  process_doc fuel doc l s = Done l s.
Proof.
  intros Hblank Hnew. unfold process_doc.
  case_decide; [done|]. by rewrite Hblank.
Qed.

Lemma process_batch_kept_out id texts metas s :
  kept_out id s →
  match process_batch texts metas s with
  | Done _ s' | Raised _ s' => kept_out id s'
  | OutOfFuel => False
  end.
Proof.
  intros Hout.
  pose proof (process_batch_effect texts metas s) as Heff.
  destruct (process_batch texts metas s) as [[] s'|e s'|]; [| |done].
  - destruct Heff as (vectors & ix & _ & _ & _ & Hb & Hd & _).
    unfold kept_out. by rewrite Hb, Hd.
  - destruct Heff as (_ & Hb & Hd & _). unfold kept_out. by rewrite Hb, Hd.
Qed.

Lemma process_doc_kept_out fuel id doc l s :
  (get_doc_id doc = id → Py.blank (default "" (doc_text doc)) = true) →
  kept_out id s →
  match process_doc fuel doc l s with
  | Done _ s' | Raised _ s' => kept_out id s'
  | OutOfFuel => True
  end.
Proof.
  intros Hdoc Hout. unfold process_doc.
  case_decide as Hseen; [done|].
  destruct (Py.blank _) eqn:Hblank; [done|].
  assert (get_doc_id doc ≠ id) as Hne by (intros Heq; by apply Hdoc in Heq).
  destruct (Chunker.chunk_text _ _ _ _) as [chunks|]; [|done].
  set (texts := batch_texts l ++ _). set (metas := batch_metadatas l ++ _).
  set (s1 := log _ _).
  assert (kept_out id s1) as Hout1.
  { destruct Hout as [Hmem Hdisk]. split; [|done]. simpl.
    rewrite elem_of_union, elem_of_singleton. by intros [?|?]. }
  destruct (batch_size (builder s) <=? Py.len texts); [|done].
  pose proof (process_batch_kept_out id texts metas s1 Hout1) as Hflush.
  destruct (process_batch texts metas s1) as [[] s2|e s2|]; [|done|done].
  destruct (batch_size (builder s) * 10 =? 0); [done|].
  destruct (_ =? 0); [|done].
  destruct Hflush as [Hmem Hdisk]. by split.
Qed.

Lemma process_documents_kept_out fuel id documents s :
  Forall (λ doc, get_doc_id doc = id →
                 Py.blank (default "" (doc_text doc)) = true) documents →
  kept_out id s →
  match process_documents fuel documents s with
  | Done _ s' | Raised _ s' => kept_out id s'
  | OutOfFuel => True
  end.
Proof.
  intros Hdocs Hout. unfold process_documents.
  pose proof (process_loop_inv fuel _ (λ _, kept_out id) (λ _, kept_out id)
                (λ doc l s1 Hdoc, process_doc_kept_out fuel id doc l s1 Hdoc)
                documents (mkLocals [] [] 0 0) s Hdocs Hout) as Hloop.
  destruct (process_loop fuel documents (mkLocals [] [] 0 0) s)
    as [l s1|e s1|]; [|done|done].
  assert (∀ s2 : Env F W, kept_out id s2 →
                kept_out id (save_checkpoint (docs_processed l) s2)) as Hsave.
  { intros s2 [Hmem Hdisk]. by split. }
  destruct (batch_texts l) as [|text texts]; [by apply Hsave|].
  pose proof (process_batch_kept_out id (text :: texts) (batch_metadatas l)
                s1 Hloop) as Hflush.
  destruct (process_batch (text :: texts) (batch_metadatas l) s1)
    as [[] s2|e s2|]; [by apply Hsave|done|done].
Qed.

(** ** Documents marked by a run *)

Lemma process_doc_marks fuel doc l s l' s' :
  process_doc fuel doc l s = Done l' s' →
  processed_ids (builder s) ⊆ processed_ids (builder s') ∧
  (Py.blank (default "" (doc_text doc)) = false →
   get_doc_id doc ∈ processed_ids (builder s')).
Proof.
  unfold process_doc.
  case_decide as Hseen; [by intros [= <- <-]|].
  destruct (Py.blank _) eqn:Hblank; [by intros [= <- <-]|].
  destruct (Chunker.chunk_text _ _ _ _) as [chunks|]; [|done].
  set (texts := batch_texts l ++ _). set (metas := batch_metadatas l ++ _).
  set (s1 := log _ _).
  assert (processed_ids (builder s1)
          = processed_ids (builder s) ∪ {[get_doc_id doc]}) as Hs1 by done.
  assert (∀ s2 : Env F W,
     processed_ids (builder s2) = processed_ids (builder s1) →
     processed_ids (builder s) ⊆ processed_ids (builder s2) ∧
     (false = false → get_doc_id doc ∈ processed_ids (builder s2))) as Hok.
  { intros s2 ->. rewrite Hs1. split; [|intros _].
    - apply union_subseteq_l.
    - apply elem_of_union_r. by apply elem_of_singleton. }
  destruct (batch_size (builder s) <=? Py.len texts);
    [|intros [= <- <-]; by apply Hok].
  pose proof (process_batch_effect texts metas s1) as Heff.
  destruct (process_batch texts metas s1) as [[] s2|e s2|]; [|done|done].
  destruct Heff as (vectors & ix & _ & _ & _ & Hb & _ & _).
  destruct (batch_size (builder s) * 10 =? 0); [done|].
  destruct (_ =? 0); intros [= <- <-]; apply Hok; simpl; by rewrite Hb.
Qed.

Lemma process_loop_marks fuel documents l s l' s' :
  process_loop fuel documents l s = Done l' s' →
  processed_ids (builder s) ⊆ processed_ids (builder s') ∧
  ∀ doc, doc ∈ documents →
    Py.blank (default "" (doc_text doc)) = false →
    get_doc_id doc ∈ processed_ids (builder s').
Proof.
  revert l s. induction documents as [|doc0 rest IH]; intros l s Hrun;
    simpl in Hrun.
  - injection Hrun as <- <-. split; [done|].
    intros doc Hin. by apply elem_of_nil in Hin.
  - destruct (process_doc fuel doc0 l s) as [l1 s1|e s1|] eqn:Hdoc;
      [|done|done].
    apply process_doc_marks in Hdoc as [Hsub Hmark].
    apply IH in Hrun as [Hsub' Hmarks].
    split; [by etrans|].
    intros doc [->|Hin]%elem_of_cons Hblank; [|by apply Hmarks].
    apply Hsub'. by apply Hmark.
Qed.

(** After a completed [process_documents] the processed-id file holds the
    in-memory set, which contains the id of every non-blank document of
    the stream. *)
Lemma process_documents_marks fuel documents s r s' :
  process_documents fuel documents s = Done r s' →
  processed_ids_file (disk s') = Some (processed_ids (builder s')) ∧
  ∀ doc, doc ∈ documents →
    Py.blank (default "" (doc_text doc)) = false →
    get_doc_id doc ∈ processed_ids (builder s').
Proof.
  unfold process_documents.
  destruct (process_loop fuel documents (mkLocals [] [] 0 0) s)
    as [l s1|e s1|] eqn:Hloop; [|done|done].
  apply process_loop_marks in Hloop as [_ Hmarks].
  destruct (batch_texts l) as [|text texts].
  - intros [= <- <-]. by split.
  - pose proof (process_batch_effect (text :: texts) (batch_metadatas l) s1)
      as Heff.
    destruct (process_batch (text :: texts) (batch_metadatas l) s1)
      as [[] s2|e s2|]; [|done|done].
    destruct Heff as (vectors & ix & _ & _ & _ & Hb & _ & _).
    intros [= <- <-]. simpl. rewrite Hb. by split.
Qed.

(** ** A stream without new documents *)

Lemma process_loop_nothing_new fuel documents l s :
  Forall (λ doc, get_doc_id doc ∈ processed_ids (builder s) ∨
                 Py.blank (default "" (doc_text doc)) = true) documents →
  ∃ s',
    process_loop fuel documents l s
    = Done (mkLocals (batch_texts l) (batch_metadatas l) (docs_processed l)
              (docs_skipped l
               + Py.len (filter (λ doc, get_doc_id doc
                                        ∈ processed_ids (builder s))
                           documents))) s' ∧
    builder s' = builder s ∧ indexer s' = indexer s ∧
    disk s' = disk s ∧ world s' = world s.
Proof.
  revert l s. induction documents as [|doc rest IH]; intros l s Hall; simpl.
  - exists s. unfold Py.len. simpl. rewrite Z.add_0_r. by destruct l.
  - apply Forall_cons in Hall as [Hdoc Hall].
    unfold process_doc. rewrite filter_cons.
    case_decide as Hseen.
    + destruct (IH (mkLocals (batch_texts l) (batch_metadatas l)
                      (docs_processed l) (docs_skipped l + 1))
                   (log (EvSkipped (get_doc_id doc)) s) Hall)
        as (s' & Hrun & Hrest).
      exists s'. simpl in Hrun. rewrite Hrun. split; [|done].
      unfold Py.len. simpl. do 2 f_equal. lia.
    + destruct Hdoc as [?|Hblank]; [done|]. rewrite Hblank.
      by apply IH.
Qed.

(** ** Traces *)

Lemma split_app_cons {A} (evs tail pre post : list A) (x : A) :
  evs ++ tail = pre ++ x :: post →
  (∃ post', evs = pre ++ x :: post' ∧ post = post' ++ tail) ∨
  (∃ pre', pre = evs ++ pre' ∧ tail = pre' ++ x :: post).
Proof.
  revert pre. induction evs as [|a evs IH]; intros pre Heq.
  - right. by exists pre.
  - destruct pre as [|b pre]; simpl in Heq.
    + injection Heq as -> <-. left. by exists evs.
    + injection Heq as -> Heq.
      destruct (IH pre Heq) as [(post' & -> & ->)|(pre' & -> & ->)].
      * left. by exists post'.
      * right. by exists pre'.
Qed.

Lemma last_checkpoint_app evs tail init :
  last_checkpoint (evs ++ tail) init
  = last_checkpoint tail (last_checkpoint evs init).
Proof. apply foldl_app. Qed.

Lemma quiet_marked_at_once evs : quiet evs → marked_at_once evs.
Proof.
  induction 1 as [|evs d _ IH|evs d n _ IH|evs metas ids n _ IH _|evs ids _ IH];
    intros pre doc k post Heq.
  - by destruct pre.
  - apply split_app_cons in Heq as [(post' & -> & ->)|(pre' & -> & Htail)].
    + destruct (IH _ _ _ _ eq_refl) as [p ->]. by eexists.
    + by destruct pre' as [|? [|? ?]].
  - apply split_app_cons in Heq as [(post' & -> & ->)|(pre' & -> & Htail)].
    + destruct (IH _ _ _ _ eq_refl) as [p ->]. by eexists.
    + destruct pre' as [|? [|? [|? ?]]]; simplify_eq/=. by eexists.
  - apply split_app_cons in Heq as [(post' & -> & ->)|(pre' & -> & Htail)].
    + destruct (IH _ _ _ _ eq_refl) as [p ->]. by eexists.
    + by destruct pre' as [|? [|? [|? ?]]].
  - apply split_app_cons in Heq as [(post' & -> & ->)|(pre' & -> & Htail)].
    + destruct (IH _ _ _ _ eq_refl) as [p ->]. by eexists.
    + by destruct pre' as [|? [|? ?]].
Qed.

Lemma quiet_flushes_marked evs : quiet evs → flushes_marked evs.
Proof.
  induction 1 as [|evs d _ IH|evs d n _ IH|evs metas ids n _ IH Hok|evs ids _ IH];
    intros metas' ids' Hin.
  - by apply elem_of_nil in Hin.
  - apply elem_of_app in Hin as [Hin|Hin]; [by eapply IH|].
    by apply list_elem_of_singleton in Hin.
  - apply elem_of_app in Hin as [Hin|Hin]; [by eapply IH|].
    apply elem_of_cons in Hin as [?|Hin]; [done|].
    by apply list_elem_of_singleton in Hin.
  - apply elem_of_app in Hin as [Hin|Hin]; [by eapply IH|].
    apply elem_of_cons in Hin as [[= -> ->]|Hin]; [done|].
    by apply list_elem_of_singleton in Hin.
  - apply elem_of_app in Hin as [Hin|Hin]; [by eapply IH|].
    by apply list_elem_of_singleton in Hin.
Qed.

Lemma quiet_no_failure evs e : quiet evs → EvFlushFailed e ∉ evs.
Proof.
  induction 1 as [|evs d _ IH|evs d n _ IH|evs metas ids n _ IH _|evs ids _ IH];
    intros Hin.
  - by apply elem_of_nil in Hin.
  - apply elem_of_app in Hin as [Hin|Hin]; [done|].
    by apply list_elem_of_singleton in Hin.
  - apply elem_of_app in Hin as [Hin|Hin]; [done|].
    apply elem_of_cons in Hin as [?|Hin]; [done|].
    by apply list_elem_of_singleton in Hin.
  - apply elem_of_app in Hin as [Hin|Hin]; [done|].
    apply elem_of_cons in Hin as [?|Hin]; [done|].
    by apply list_elem_of_singleton in Hin.
  - apply elem_of_app in Hin as [Hin|Hin]; [done|].
    by apply list_elem_of_singleton in Hin.
Qed.

(** A quiet trace followed by a failed flush. *)
Lemma failed_flush_trace evs metas ids e :
  quiet evs → flush_ok metas ids →
  marked_at_once (evs ++ [EvFlush metas ids; EvFlushFailed e]) ∧
  flushes_marked (evs ++ [EvFlush metas ids; EvFlushFailed e]) ∧
  failure_is_last e (evs ++ [EvFlush metas ids; EvFlushFailed e]).
Proof.
  intros Hq Hok. split; [|split].
  - intros pre doc k post Heq.
    apply split_app_cons in Heq as [(post' & -> & ->)|(pre' & -> & Htail)].
    + destruct (quiet_marked_at_once _ Hq _ _ _ _ eq_refl) as [p ->].
      by eexists.
    + by destruct pre' as [|? [|? [|? ?]]].
  - intros metas' ids' Hin.
    apply elem_of_app in Hin as [Hin|Hin];
      [by eapply quiet_flushes_marked|].
    apply elem_of_cons in Hin as [[= -> ->]|Hin]; [done|].
    by apply list_elem_of_singleton in Hin.
  - intros pre e' post Heq.
    apply split_app_cons in Heq as [(post' & -> & ->)|(pre' & -> & Htail)].
    + exfalso. apply (quiet_no_failure _ e' Hq).
      apply elem_of_app. right. by left.
    + destruct pre' as [|? [|? [|? ?]]]; by simplify_eq/=.
Qed.

Lemma chunk_metadata_doc_id doc chunk :
  chunk_metadata doc chunk !! "doc_id" = Some (get_doc_id doc).
Proof. unfold chunk_metadata. by rewrite lookup_insert_eq. Qed.

Lemma flush_ok_extend doc chunks metas ids :
  flush_ok metas ids →
  flush_ok (metas ++ (chunk_metadata doc <$> chunks))
    (ids ∪ {[get_doc_id doc]}).
Proof.
  intros Hok m [Hm|Hm]%elem_of_app.
  - destruct (Hok m Hm) as (d & Hd & Hin). exists d.
    split; [done|]. by apply elem_of_union_l.
  - apply list_elem_of_fmap in Hm as (chunk & -> & _).
    exists (get_doc_id doc). split; [apply chunk_metadata_doc_id|].
    apply elem_of_union_r. by apply elem_of_singleton.
Qed.

Lemma flush_ok_nil ids : flush_ok [] ids.
Proof. intros m Hm. by apply elem_of_nil in Hm. Qed.

(** A flush from a traced state. *)
Lemma process_batch_traced s0 l texts s :
  traced s0 l s →
  match process_batch texts (batch_metadatas l) s with
  | Done _ s' => traced s0 (mkLocals [] [] 0 0) s'
  | Raised e s' => aborted s0 e s'
  | OutOfFuel => False
  end.
Proof.
  intros (evs & Htr & Hq & Hok & Hfile).
  pose proof (process_batch_effect texts (batch_metadatas l) s) as Heff.
  destruct (process_batch texts (batch_metadatas l) s) as [[] s'|e s'|];
    [| |done].
  - destruct Heff as (vectors & ix & _ & _ & _ & Hb & Hd & Htr').
    exists (evs ++ [EvFlush (batch_metadatas l) (processed_ids (builder s));
                    EvIndexed (length texts)]).
    split; [by rewrite Htr', Htr, <- app_assoc|].
    split; [by constructor|].
    split; [apply flush_ok_nil|].
    by rewrite Hd, Hfile, last_checkpoint_app.
  - destruct Heff as (_ & _ & Hd & Htr').
    exists evs, [EvFlush (batch_metadatas l) (processed_ids (builder s));
                 EvFlushFailed e].
    split; [by rewrite Htr', Htr, <- app_assoc|].
    split; [done|]. split; [by rewrite Hd|].
    right. by eexists _, _.
Qed.

Lemma save_checkpoint_traced (s0 : Env F W) l n (s : Env F W) :
  traced s0 l s → traced s0 l (save_checkpoint n s).
Proof.
  intros (evs & Htr & Hq & Hok & Hfile).
  exists (evs ++ [EvCheckpoint (processed_ids (builder s))]).
  split; [simpl; by rewrite Htr, <- app_assoc|].
  split; [by constructor|]. split; [done|].
  by rewrite last_checkpoint_app.
Qed.

Lemma process_doc_traced fuel s0 doc l s :
  traced s0 l s →
  match process_doc fuel doc l s with
  | Done l' s' => traced s0 l' s'
  | Raised e s' => aborted s0 e s'
  | OutOfFuel => True
  end.
Proof.
  intros (evs & Htr & Hq & Hok & Hfile). unfold process_doc.
  case_decide as Hseen.
  { exists (evs ++ [EvSkipped (get_doc_id doc)]).
    split; [simpl; by rewrite Htr, <- app_assoc|].
    split; [by constructor|]. split; [done|].
    by rewrite last_checkpoint_app. }
  destruct (Py.blank _); [by exists evs|].
  destruct (Chunker.chunk_text _ _ _ _) as [chunks|]; [|done].
  set (texts := batch_texts l ++ _).
  set (metas := batch_metadatas l ++ (chunk_metadata doc <$> chunks)).
  set (s1 := log _ _).
  set (l1 := mkLocals texts metas (docs_processed l + 1) (docs_skipped l)).
  assert (traced s0 l1 s1) as Htraced1.
  { exists (evs ++ [EvChunked (get_doc_id doc) (length chunks);
                    EvMarked (get_doc_id doc)]).
    split; [simpl; by rewrite Htr, <- !app_assoc|].
    split; [by constructor|].
    split; [by apply flush_ok_extend|].
    by rewrite last_checkpoint_app. }
  destruct (batch_size (builder s) <=? Py.len texts); [|done].
  pose proof (process_batch_traced s0 l1 texts s1 Htraced1) as Hflush.
  simpl in Hflush.
  destruct (process_batch texts metas s1) as [[] s2|e s2|]; [|done|done].
  assert (∀ l', batch_metadatas l' = [] → traced s0 l' s2) as Hany.
  { intros l' Hl'. destruct Hflush as (evs2 & ? & ? & ? & ?).
    exists evs2. rewrite Hl'. by repeat split. }
  destruct (batch_size (builder s) * 10 =? 0).
  { destruct Hflush as (evs2 & ? & ? & ? & ?).
    exists evs2, []. rewrite app_nil_r. repeat split; auto. }
  destruct (_ =? 0); [apply save_checkpoint_traced|]; by apply Hany.
Qed.

Lemma process_documents_traced fuel documents s :
  match process_documents fuel documents s with
  | Done _ s' => traced s (mkLocals [] [] 0 0) s'
  | Raised e s' => aborted s e s'
  | OutOfFuel => True
  end.
Proof.
  unfold process_documents.
  assert (traced s (mkLocals [] [] 0 0) s) as Hstart.
  { exists []. rewrite app_nil_r. repeat split; try done.
    - constructor.
    - apply flush_ok_nil. }
  pose proof (process_loop_inv fuel (λ _, True) (traced s) (aborted s)
                (λ doc l s1 _, process_doc_traced fuel s doc l s1)
                documents (mkLocals [] [] 0 0) s
                (Forall_true _ _ (λ _, I)) Hstart) as Hloop.
  destruct (process_loop fuel documents (mkLocals [] [] 0 0) s)
    as [l s1|e s1|]; [|done|done].
  assert (∀ s2 : Env F W, traced s (mkLocals [] [] 0 0) s2 →
            traced s (mkLocals [] [] 0 0)
              (save_checkpoint (docs_processed l) s2)) as Hsave
    by (intros s2; apply save_checkpoint_traced).
  destruct (batch_texts l) as [|text texts].
  - apply Hsave. destruct Hloop as (evs & ? & ? & ? & ?).
    exists evs. repeat split; try done. apply flush_ok_nil.
  - pose proof (process_batch_traced s l (text :: texts) s1 Hloop) as Hflush.
    destruct (process_batch (text :: texts) (batch_metadatas l) s1)
      as [[] s2|e s2|]; [by apply Hsave|done|done].
Qed.

End Facts.
End BuilderFacts.

Module BuilderTheorems.
Import Indexer Builder BuilderFacts.

Section Results.
Context {F W : Type} {tok : Tokenizer} {svc : EmbedService F W}
  {fl : FloatOps F} {hash : Hasher}.

(** C10. A successful [_process_batch] on a batch of (text, metadata)
    pairs appends the metadata records of the batch to the indexer, so the
    metadata list grows by the number of texts of the batch, adds one row
    per text to the index and adds the number of texts to [total_chunks];
    a failing one, whether the embedding or the addition failed, leaves the
    counter and the indexer as they were. Over a whole [process_documents]
    run, however it ends, [total_chunks], the metadata list and the row
    list have grown by the same amount ([grown]), the buffers of texts and
    of metadata being filled and flushed together
    ([process_doc_accounted]). *)
Theorem C10_chunk_accounting (fuel : nat) (documents : list Document)
    (s : Env F W) :
  (∀ (batch : list (string * Metadata)) (s0 : Env F W),
     match process_batch batch.*1 batch.*2 s0 with
     | Done _ s1 =>
         metadatas (indexer s1) = metadatas (indexer s0) ++ batch.*2 ∧
         length (metadatas (indexer s1))
         = (length (metadatas (indexer s0)) + length batch)%nat ∧
         length (xb (index (indexer s1)))
         = (length (xb (index (indexer s0))) + length batch)%nat ∧
         total_chunks (builder s1)
         = total_chunks (builder s0) + Py.len batch
     | Raised _ s1 =>
         total_chunks (builder s1) = total_chunks (builder s0) ∧
         indexer s1 = indexer s0
     | OutOfFuel => False
     end) ∧
  match process_documents fuel documents s with
  | Done _ s' | Raised _ s' => grown s s'
  | OutOfFuel => True
  end.
Proof.
  split; [|apply process_documents_grown].
  intros batch s0.
  pose proof (process_batch_effect batch.*1 batch.*2 s0) as Heff.
  destruct (process_batch batch.*1 batch.*2 s0) as [[] s1|e s1|]; [| |done].
  - destruct Heff as (vectors & ix & Hv & Hadd & Hix & Hb & _ & _).
    pose proof (IndexerFacts.add_length _ _ _ _ Hadd) as [Hxb Hlen].
    apply IndexerFacts.add_rows in Hadd as (_ & Hmeta & _).
    rewrite length_fmap in Hv. rewrite length_fmap in Hlen.
    rewrite Hix, Hb, Hxb, Hlen, Hv. simpl.
    unfold Py.len. by rewrite Hmeta, length_fmap.
  - destruct Heff as (Hix & Hb & _ & _). by rewrite Hix, Hb.
Qed.

(** C9 (as amended). A document with non-blank text for which the chunker
    returns no chunk (the tokenizer rejected the text) does not abort the
    run and adds nothing to the buffers or the index; met while the buffer
    is below the batch size and its id is not yet processed, it is counted
    as processed and its id is added to the processed ids, and it is not
    counted as skipped. *)
Theorem C9_no_chunks_still_processed (fuel : nat) (doc : Document)
    (l : Locals) (s : Env F W) :
  Py.blank (default "" (doc_text doc)) = false →
  Chunker.chunk_text fuel (default "" (doc_text doc))
    (chunk_size (builder s)) (chunk_overlap (builder s)) = Some [] →
  get_doc_id doc ∉ processed_ids (builder s) →
  Py.len (batch_texts l) < batch_size (builder s) →
  ∃ s',
    process_doc fuel doc l s
    = Done (mkLocals (batch_texts l) (batch_metadatas l)
              (docs_processed l + 1) (docs_skipped l)) s' ∧
    processed_ids (builder s')
    = processed_ids (builder s) ∪ {[get_doc_id doc]} ∧
    total_chunks (builder s') = total_chunks (builder s) ∧
    indexer s' = indexer s ∧ disk s' = disk s ∧ world s' = world s.
Proof.
  intros Hblank Hchunks Hnew Hbuf. unfold process_doc.
  case_decide; [done|]. rewrite Hblank, Hchunks. simpl.
  rewrite !app_nil_r.
  replace (batch_size (builder s) <=? Py.len (batch_texts l)) with false
    by (symmetry; apply Z.leb_gt; lia).
  eexists. split; [reflexivity|]. done.
Qed.

(** C8. Handling a document whose text is empty or whitespace-only never
    changes the builder (its processed ids in particular), the index, the
    disk, the buffers or the count of processed documents; met while its id
    is not among the processed ids it changes nothing at all, so it is
    counted neither as processed nor as skipped. When every document of the
    stream that carries this id is blank and the id is not in the persisted
    processed ids, a build, however it ends, leaves the id out of the
    processed ids in memory and on disk, so the next build examines the
    document again. *)
Theorem C8_blank_document_never_marked (dim batch_size chunk_size chunk_overlap : Z)
    (fuel : nat) (documents : list Document) (doc : Document)
    (dk : Disk F) (w : W) :
  Py.blank (default "" (doc_text doc)) = true →
  get_doc_id doc ∉ load_processed_ids dk →
  Forall (λ d, get_doc_id d = get_doc_id doc →
               Py.blank (default "" (doc_text d)) = true) documents →
  (∀ l (s : Env F W),
     ∃ l' s',
       process_doc fuel doc l s = Done l' s' ∧
       builder s' = builder s ∧ indexer s' = indexer s ∧
       disk s' = disk s ∧ world s' = world s ∧
       batch_texts l' = batch_texts l ∧
       batch_metadatas l' = batch_metadatas l ∧
       docs_processed l' = docs_processed l ∧
       (get_doc_id doc ∉ processed_ids (builder s) → l' = l ∧ s' = s)) ∧
  match build_index dim batch_size chunk_size chunk_overlap fuel documents dk w with
  | Done _ s' | Raised _ s' =>
      (get_doc_id doc ∉ processed_ids (builder s')) ∧
      (get_doc_id doc ∉ load_processed_ids (disk s'))
  | OutOfFuel => True
  end.
Proof.
  intros Hblank Hnew Hdocs. split.
  { intros l s. unfold process_doc. case_decide as Hseen.
    - eexists _, _. split; [reflexivity|]. by repeat split.
    - rewrite Hblank. exists l, s. by repeat split. }
  unfold build_index.
  set (s0 := mkEnv _ _ dk w []).
  assert (kept_out (get_doc_id doc) s0) as Hout by done.
  pose proof (process_documents_kept_out fuel _ documents s0 Hdocs Hout)
    as Hrun.
  by destruct (process_documents fuel documents s0) as [r s'|e s'|].
Qed.

(** C4 (as amended). After a build that completed, a second build over
    the same stream against the artifacts the first one left completes as
    well; it processes no document, requests no embedding, adds nothing to
    the index (rows and metadata are those of the first build, and so are
    the index files and the processed-id file) and ends with
    [total_chunks = 0]. It reports as skipped the documents whose id is
    among the processed ids; these include every document with non-blank
    text, so a stream without blank documents is reported skipped in full. *)
Theorem C4_second_build_adds_nothing (dim batch_size chunk_size chunk_overlap : Z)
    (fuel fuel' : nat) (documents : list Document) (dk : Disk F) (w w' : W)
    (r1 : Z * Z) (s1 : Env F W) :
  build_index dim batch_size chunk_size chunk_overlap fuel documents dk w
  = Done r1 s1 →
  ∃ s2,
    build_index dim batch_size chunk_size chunk_overlap fuel' documents
      (disk s1) w'
    = Done (0, Py.len (filter (λ d, get_doc_id d ∈ processed_ids (builder s1))
                         documents)) s2 ∧
    metadatas (indexer s2) = metadatas (indexer s1) ∧
    index (indexer s2) = index (indexer s1) ∧
    index_files (disk s2) = index_files (disk s1) ∧
    processed_ids_file (disk s2) = processed_ids_file (disk s1) ∧
    total_chunks (builder s2) = 0 ∧
    world s2 = w' ∧
    (∀ d, d ∈ documents → Py.blank (default "" (doc_text d)) = false →
          get_doc_id d ∈ processed_ids (builder s1)) ∧
    (Forall (λ d, Py.blank (default "" (doc_text d)) = false) documents →
     Py.len (filter (λ d, get_doc_id d ∈ processed_ids (builder s1)) documents)
     = Py.len documents).
Proof.
  unfold build_index at 1.
  set (s0 := mkEnv _ _ dk w []).
  destruct (process_documents fuel documents s0) as [r s|e s|] eqn:Hrun1;
    [|done|done].
  intros [= <- <-].
  apply process_documents_marks in Hrun1 as [Hfile Hmarks].
  unfold build_index. simpl. rewrite Hfile.
  set (b2 := new batch_size chunk_size chunk_overlap _).
  set (ix2 := mkFaissIndexer dim (index (indexer s)) (metadatas (indexer s))).
  set (dk1 := mkDisk _ _ _).
  set (s0' := mkEnv b2 ix2 dk1 w' []).
  assert (Forall (λ d, get_doc_id d ∈ processed_ids (builder s0') ∨
                       Py.blank (default "" (doc_text d)) = true) documents)
    as Hseen.
  { apply Forall_forall. intros d Hd.
    destruct (Py.blank (default "" (doc_text d))) eqn:Hb; [by right|left].
    simpl. by apply Hmarks. }
  destruct (process_loop_nothing_new fuel' documents (mkLocals [] [] 0 0) s0'
              Hseen) as (s' & Hloop & Hb & Hix & Hd & Hw).
  unfold process_documents. rewrite Hloop. simpl.
  eexists. split; [reflexivity|]. simpl.
  rewrite Hb, Hix, Hd, Hw. simpl.
  repeat split; try done.
  intros Hall. f_equal. f_equal.
  clear -Hall Hmarks.
  induction documents as [|d rest IH]; [done|].
  apply Forall_cons in Hall as [Hd Hall].
  rewrite filter_cons_True by (apply Hmarks; [by left|done]).
  f_equal. apply IH; [|done].
  intros d' Hin. apply Hmarks. by right.
Qed.

(** C5. In every [process_documents] run that ends, normally or with an
    exception: each chunking of a document is followed at once by the
    marking of its id; at the start of every flush (before the embedding
    request and the addition to the index) the ids of all documents of the
    batch are among the in-memory processed ids; and the processed-id file
    holds what the last checkpoint of the run wrote (or what it held before
    the run). In a run where a flush fails, [process_documents] raises that
    exception and the failure is the last event: no checkpoint follows
    it. *)
Theorem C5_marked_before_flush (fuel : nat) (documents : list Document)
    (s : Env F W) :
  match process_documents fuel documents s with
  | Done _ s' =>
      ∃ evs,
        trace s' = trace s ++ evs ∧
        marked_at_once evs ∧ flushes_marked evs ∧
        (∀ e, EvFlushFailed e ∉ evs) ∧
        processed_ids_file (disk s')
        = last_checkpoint evs (processed_ids_file (disk s))
  | Raised e s' =>
      ∃ evs,
        trace s' = trace s ++ evs ∧
        marked_at_once evs ∧ flushes_marked evs ∧
        failure_is_last e evs ∧
        processed_ids_file (disk s')
        = last_checkpoint evs (processed_ids_file (disk s))
  | OutOfFuel => True
  end.
Proof.
  pose proof (process_documents_traced fuel documents s) as Hrun.
  destruct (process_documents fuel documents s) as [r s'|e s'|]; [| |done].
  - destruct Hrun as (evs & Htr & Hq & _ & Hfile).
    exists evs. split; [done|].
    split; [by apply quiet_marked_at_once|].
    split; [by apply quiet_flushes_marked|].
    split; [|done]. intros e. by apply quiet_no_failure.
  - destruct Hrun as (evs & tail & Htr & Hq & Hfile & Htail).
    exists (evs ++ tail). split; [done|].
    destruct Htail as [->|(metas & ids & -> & Hok)].
    + rewrite app_nil_r.
      split; [by apply quiet_marked_at_once|].
      split; [by apply quiet_flushes_marked|].
      split; [|done].
      intros pre e' post ->. exfalso.
      apply (quiet_no_failure _ e' Hq). apply elem_of_app. right. by left.
    + destruct (failed_flush_trace evs metas ids e Hq Hok) as (? & ? & ?).
      split; [done|]. split; [done|]. split; [done|].
      by rewrite last_checkpoint_app.
Qed.

End Results.

Lemma C9_no_chunks_still_processed_witness :
  ∃ s',
    process_doc (tok:=char_tokenizer) (svc:=toy_service) (fl:=axis_floats)
      (hash:=toy_hasher) 1001 rejected_doc (mkLocals [] [] 0 0) (fresh_env 5)
    = Done (mkLocals [] [] (0 + 1) 0) s' ∧
    processed_ids (builder s')
    = processed_ids (builder (fresh_env 5)) ∪ {[ "3" ]} ∧
    total_chunks (builder s') = total_chunks (builder (fresh_env 5)) ∧
    indexer s' = indexer (fresh_env 5) ∧ disk s' = disk (fresh_env 5) ∧
    world s' = world (fresh_env 5).
Proof.
  apply (C9_no_chunks_still_processed (tok:=char_tokenizer) (svc:=toy_service)
           (fl:=axis_floats) (hash:=toy_hasher) 1001 rejected_doc
           (mkLocals [] [] 0 0) (fresh_env 5)).
  - reflexivity.
  - reflexivity.
  - apply not_elem_of_empty.
  - reflexivity.
Defined.

(** C9 (counterexample). A build over one document whose text the
    tokenizer rejects reports one document processed and none skipped,
    and persists the id of the document among the processed ids, with an
    empty index. *)
Lemma C9_rejected_text_counted_processed :
  Chunker.chunk_text (tok:=char_tokenizer) 1001 "x<|endoftext|>" 4 0 = Some [] ∧
  match toy_build 5 [rejected_doc] empty_disk 0%nat with
  | Done r s =>
      r = (1, 0) ∧
      elements <$> processed_ids_file (disk s) = Some ["3"] ∧
      metadatas (indexer s) = []
  | _ => False
  end.
Proof. split; by vm_compute. Qed.

Lemma C8_blank_document_never_marked_witness :
  (∀ l (s : Env Z nat),
     ∃ l' s',
       process_doc (tok:=char_tokenizer) (svc:=toy_service) (fl:=axis_floats)
         (hash:=toy_hasher) 1001 (doc "2" "  ") l s = Done l' s' ∧
       builder s' = builder s ∧ indexer s' = indexer s ∧
       disk s' = disk s ∧ world s' = world s ∧
       batch_texts l' = batch_texts l ∧
       batch_metadatas l' = batch_metadatas l ∧
       docs_processed l' = docs_processed l ∧
       ("2" ∉ processed_ids (builder s) → l' = l ∧ s' = s)) ∧
  match toy_build 5 stream_with_blank empty_disk 0%nat with
  | Done _ s' | Raised _ s' =>
      ("2" ∉ processed_ids (builder s')) ∧
      ("2" ∉ load_processed_ids (disk s'))
  | OutOfFuel => True
  end.
Proof.
  apply (C8_blank_document_never_marked (tok:=char_tokenizer) (svc:=toy_service)
           (fl:=axis_floats) (hash:=toy_hasher) 2 5 4 0 1001 stream_with_blank
           (doc "2" "  ") empty_disk 0%nat).
  - reflexivity.
  - apply not_elem_of_empty.
  - unfold stream_with_blank.
    constructor; [intros Heq; discriminate Heq|].
    constructor; [intros _; reflexivity|]. constructor.
Defined.

(** A run whose second flush fails: the exception leaves
    [process_documents], both documents are marked in memory, nothing was
    checkpointed, and the index holds the chunk of the first flush only. *)
Example failed_flush_leaves_no_checkpoint :
  match toy_build 1 [doc "1" "abcd"; doc "5" "!boo"] empty_disk 0%nat with
  | Raised e s =>
      e = Py.EmbedException ∧
      elements (processed_ids (builder s)) = ["5"; "1"] ∧
      processed_ids_file (disk s) = None ∧
      length (metadatas (indexer s)) = 1%nat
  | _ => False
  end.
Proof. by vm_compute. Qed.

Lemma C4_second_build_adds_nothing_witness :
  toy_build 5 stream_with_blank empty_disk 0%nat
  = Done (1, 0) (built 5 stream_with_blank) ∧
  ∃ s2,
    toy_build 5 stream_with_blank (disk (built 5 stream_with_blank)) 7%nat
    = Done (0, Py.len (filter (λ d, get_doc_id (hash:=toy_hasher) d
                                    ∈ processed_ids
                                        (builder (built 5 stream_with_blank)))
                         stream_with_blank)) s2 ∧
    metadatas (indexer s2) = metadatas (indexer (built 5 stream_with_blank)) ∧
    total_chunks (builder s2) = 0 ∧
    world s2 = 7%nat.
Proof.
  assert (toy_build 5 stream_with_blank empty_disk 0%nat
          = Done (1, 0) (built 5 stream_with_blank)) as Hfirst
    by (vm_compute; reflexivity).
  split; [exact Hfirst|].
  destruct (C4_second_build_adds_nothing (tok:=char_tokenizer) (svc:=toy_service)
              (fl:=axis_floats) (hash:=toy_hasher) 2 5 4 0 1001 1001
              stream_with_blank empty_disk 0%nat 7%nat (1, 0)
              (built 5 stream_with_blank) Hfirst)
    as (s2 & Hsecond & Hmeta & _ & _ & _ & Htotal & Hworld & _).
  exists s2. repeat split; assumption.
Defined.

(** C4 (counterexample). The second build over a stream of one ordinary
    and one blank document reports one document skipped, not two: the
    blank document is not reported. *)
Lemma C4_blank_document_not_reported :
  match toy_build 5 stream_with_blank empty_disk 0%nat with
  | Done r1 s1 =>
      r1 = (1, 0) ∧
      match toy_build 5 stream_with_blank (disk s1) (world s1) with
      | Done r2 s2 =>
          r2 = (0, 1) ∧
          length (metadatas (indexer s2)) = length (metadatas (indexer s1))
      | _ => False
      end
  | _ => False
  end.
Proof. by vm_compute. Qed.

End BuilderTheorems.

(* ===================================================================== *)
(** * Further properties of the chunker *)
(* ===================================================================== *)

Module ChunkerExtras.
Import Chunker ChunkerFacts.

Section AnyDecoder.
Context {tok : Tokenizer}.
Variables (tokens : list Z) (m o : Z).

(** What the loop appends, whatever [decode] does: the chunks are numbered
    from [idx] on, each is a window that starts inside the text and whose
    tokens were decoded into its text. *)
Lemma chunk_loop_emitted fuel start idx acc r :
  chunk_loop fuel tokens m o start idx acc = Some r →
  ∃ new,
    r = acc ++ new ∧
    ∀ i c, new !! i = Some c →
      id c = "chunk_" +:+ pretty (idx + Z.of_nat i) ∧
      decode (Py.slice tokens (start_token c) (end_token c)) = Some (text c) ∧
      start_token c < Py.len tokens ∧
      end_token c = Z.min (start_token c + m) (Py.len tokens).
Proof.
  revert start idx acc r.
  induction fuel as [|fuel IH]; intros start idx acc r Hrun; [done|].
  simpl in Hrun.
  destruct ((start <? Py.len tokens) && (idx <? max_chunks)) eqn:Hcond.
  - apply andb_prop in Hcond as [Hs%Z.ltb_lt _].
    destruct (decode (Py.slice tokens start
                        (Z.min (start + m) (Py.len tokens))))
      as [txt|] eqn:Hdec.
    + apply IH in Hrun as (new & -> & Hnew).
      eexists (_ :: new). split; [by rewrite <- app_assoc|].
      intros [|i] c Hc; simpl in Hc.
      * injection Hc as <-. simpl. by rewrite Z.add_0_r.
      * destruct (Hnew i c Hc) as (Hid & Hd & Hlt & Hend).
        replace (idx + Z.of_nat (S i)) with (idx + 1 + Z.of_nat i) by lia.
        done.
    + by apply IH in Hrun.
  - injection Hrun as <-. exists []. by rewrite app_nil_r.
Qed.

(** Without overlap and with windows of at least one token the start
    offset grows by at least [m] from one emitted chunk to the next. *)
Lemma chunk_loop_starts_grow fuel start idx acc r :
  o = 0 → 1 ≤ m →
  chunk_loop fuel tokens m o start idx acc = Some r →
  ∃ new,
    r = acc ++ new ∧
    ∀ i c, new !! i = Some c →
      Z.min (start + Z.of_nat i * m) (Py.len tokens) ≤ start_token c.
Proof.
  intros -> Hm. revert start idx acc r.
  induction fuel as [|fuel IH]; intros start idx acc r Hrun; [done|].
  simpl in Hrun.
  destruct ((start <? Py.len tokens) && (idx <? max_chunks)) eqn:Hcond.
  - apply andb_prop in Hcond as [Hs%Z.ltb_lt _].
    destruct (decode (Py.slice tokens start
                        (Z.min (start + m) (Py.len tokens))))
      as [txt|] eqn:Hdec.
    + apply IH in Hrun as (new & -> & Hnew).
      eexists (_ :: new). split; [by rewrite <- app_assoc|].
      intros [|i] c Hc; simpl in Hc.
      * injection Hc as <-. simpl. lia.
      * pose proof (Hnew i c Hc) as Hlow. nia.
    + apply IH in Hrun as (new & -> & Hnew).
      exists new. split; [done|].
      intros i c Hc. pose proof (Hnew i c Hc) as Hlow. nia.
  - injection Hrun as <-. exists []. split; [by rewrite app_nil_r|].
    by intros i c Hc.
Qed.

(** Without overlap every pass of the loop moves the start offset forward,
    so the loop ends after at most as many passes as there are tokens. *)
Lemma chunk_loop_advances fuel start idx acc :
  o = 0 → 1 ≤ m →
  (Z.to_nat (Py.len tokens - start) < fuel)%nat →
  is_Some (chunk_loop fuel tokens m o start idx acc).
Proof.
  intros -> Hm. revert start idx acc.
  induction fuel as [|fuel IH]; intros start idx acc Hfuel; [lia|].
  simpl.
  destruct ((start <? Py.len tokens) && (idx <? max_chunks)) eqn:Hcond;
    [|by eexists].
  apply andb_prop in Hcond as [Hs%Z.ltb_lt _].
  destruct (decode _); apply IH; lia.
Qed.

(** With an overlap the start offset stays below the length of the text;
    when no window of the text can be decoded the loop never ends. *)
Lemma chunk_loop_stalls fuel start idx acc :
  1 ≤ o → start < Py.len tokens → idx < max_chunks →
  (∀ s, decode (Py.slice tokens s (Z.min (s + m) (Py.len tokens))) = None) →
  chunk_loop fuel tokens m o start idx acc = None.
Proof.
  intros Ho Hs Hidx Hdec. revert start Hs.
  induction fuel as [|fuel IH]; intros start Hs; [done|].
  simpl.
  replace (start <? Py.len tokens) with true by (symmetry; by apply Z.ltb_lt).
  replace (idx <? max_chunks) with true by (symmetry; by apply Z.ltb_lt).
  simpl. rewrite Hdec. apply IH. lia.
Qed.

End AnyDecoder.

Section Results.
Context {tok : Tokenizer}.

(** X1. Whenever [chunk_text] returns, the chunk at position [i] has the id
    [chunk_i], so the ids of one document are pairwise distinct, and its
    text is the decoding of the tokens [start_token, end_token) of the
    text, a window that starts before the end of the text and ends at
    [min (start_token + max_tokens) L]. This holds whatever windows
    [decode] rejected on the way. *)
Theorem X1_chunks_numbered_and_decoded (fuel : nat) (text : string)
    (max_tokens overlap : Z) (chunks : list Chunk) :
  chunk_text fuel text max_tokens overlap = Some chunks →
  NoDup (id <$> chunks) ∧
  ∀ i c, chunks !! i = Some c →
    id c = "chunk_" +:+ pretty (Z.of_nat i) ∧
    ∃ tokens,
      encode text = Some tokens ∧
      decode (Py.slice tokens (start_token c) (end_token c)) = Some (Chunker.text c) ∧
      start_token c < Py.len tokens ∧
      end_token c = Z.min (start_token c + max_tokens) (Py.len tokens).
Proof.
  intros Hrun.
  assert (∀ i c, chunks !! i = Some c →
    id c = "chunk_" +:+ pretty (Z.of_nat i) ∧
    ∃ tokens,
      encode text = Some tokens ∧
      decode (Py.slice tokens (start_token c) (end_token c))
      = Some (Chunker.text c) ∧
      start_token c < Py.len tokens ∧
      end_token c = Z.min (start_token c + max_tokens) (Py.len tokens))
    as Hall.
  { unfold chunk_text in Hrun.
    destruct (Py.blank text); [by injection Hrun as <-|].
    destruct (encode text) as [tokens|] eqn:Henc; [|by injection Hrun as <-].
    destruct (Py.len tokens =? 0); [by injection Hrun as <-|].
    apply chunk_loop_emitted in Hrun as (new & -> & Hnew).
    intros i c Hc. destruct (Hnew i c Hc) as (Hid & Hd & Hlt & Hend).
    split; [done|]. by exists tokens. }
  split; [|done].
  apply NoDup_alt. intros i j x Hi Hj.
  rewrite list_lookup_fmap in Hi, Hj.
  destruct (chunks !! i) as [ci|] eqn:Hci; [|done].
  destruct (chunks !! j) as [cj|] eqn:Hcj; [|done].
  simpl in Hi, Hj.
  destruct (Hall i ci Hci) as [Hidi _]. destruct (Hall j cj Hcj) as [Hidj _].
  assert (pretty (Z.of_nat i) = pretty (Z.of_nat j)) as Heq.
  { apply (inj (String.app "chunk_")). congruence. }
  apply (inj pretty) in Heq. lia.
Qed.

(** X2. With a positive overlap the loop cannot leave through its test on
    the start offset: for a text with at least one token (and a [decode]
    that does not fail) [chunk_text] returns exactly 1000 chunks, whatever
    [max_tokens] is; when [overlap <= max_tokens], every chunk that follows
    a chunk ending at the end of the text is the same tail window
    [L - overlap, L). *)
Theorem X2_overlap_fills_the_limit (fuel : nat) (text : string)
    (tokens : list Z) (max_tokens overlap : Z) :
  (∀ l, is_Some (decode l)) →
  Py.blank text = false →
  encode text = Some tokens →
  tokens ≠ [] →
  1 ≤ overlap →
  (1000 < fuel)%nat →
  ∃ chunks,
    chunk_text fuel text max_tokens overlap = Some chunks ∧
    length chunks = 1000%nat ∧
    (overlap ≤ max_tokens →
     ∀ i j c c', chunks !! i = Some c → end_token c = Py.len tokens →
       (i < j)%nat → chunks !! j = Some c' →
       start_token c' = Py.len tokens - overlap ∧
       end_token c' = Py.len tokens).
Proof.
  intros Hdec Hblank Henc Hne Ho Hfuel.
  unfold chunk_text. rewrite Hblank, Henc.
  assert (0 < Py.len tokens) as HL.
  { unfold Py.len. destruct tokens; [done|simpl; lia]. }
  replace (Py.len tokens =? 0) with false by (symmetry; apply Z.eqb_neq; lia).
  destruct (chunk_loop_returns tokens max_tokens overlap Hdec fuel 0 0 [])
    as [chunks Hrun]; [unfold max_chunks; simpl; lia|].
  exists chunks. split; [done|].
  apply (chunk_loop_chain tokens max_tokens overlap Hdec) in Hrun
    as (new & s' & -> & Hch & Hlen & Hexit & Hnonempty).
  simpl. specialize (Hnonempty HL ltac:(unfold max_chunks; lia)).
  specialize (Hlen Hnonempty).
  split.
  - destruct (last new) as [cl|] eqn:Hlast; [|by apply last_None in Hlast].
    pose proof (chain_end _ _ _ _ _ _ _ Hch Hlast) as Hs'.
    assert (cl ∈ new) as Hcl
      by (rewrite last_lookup in Hlast; by eapply list_elem_of_lookup_2).
    pose proof (chain_window _ _ _ _ _ _ cl Hch Hcl) as Hw.
    generalize dependent (Py.len tokens). intros L HL Hch Hexit Hw.
    unfold max_chunks, Py.len in *. lia.
  - intros Hmo i j c c' Hi Hend Hij Hj.
    assert (∀ n ck, new !! (S i + n)%nat = Some ck →
              start_token ck = Py.len tokens - overlap ∧
              end_token ck = Py.len tokens) as Htail.
    { induction n as [|n IHn]; intros ck Hk.
      - rewrite Nat.add_0_r in Hk.
        pose proof (chain_next _ _ _ _ _ _ _ _ _ Hch Hi Hk) as Hnext.
        pose proof (chain_window _ _ _ _ _ _ ck Hch
                      (list_elem_of_lookup_2 _ _ _ Hk)) as Hw.
        lia.
      - replace (S i + S n)%nat with (S (S i + n)) in Hk by lia.
        destruct (new !! (S i + n)%nat) as [cp|] eqn:Hp.
        + destruct (IHn cp eq_refl) as [_ Hpend].
          pose proof (chain_next _ _ _ _ _ _ _ _ _ Hch Hp Hk) as Hnext.
          pose proof (chain_window _ _ _ _ _ _ ck Hch
                        (list_elem_of_lookup_2 _ _ _ Hk)) as Hw.
          lia.
        + apply lookup_ge_None in Hp. apply lookup_lt_Some in Hk. lia. }
    apply (Htail (j - S i)%nat).
    by replace (S i + (j - S i))%nat with j by lia.
Qed.

(** X3. Without overlap and with windows of [max_tokens >= 1] tokens the
    chunks tile the text: chunk [i] is the window
    [i * max_tokens, min ((i + 1) * max_tokens) L), and there are as many
    chunks as windows are needed to reach [L], unless the limit of 1000
    chunks stops the loop first. *)
Theorem X3_tiling_without_overlap (fuel : nat) (text : string)
    (tokens : list Z) (max_tokens : Z) :
  (∀ l, is_Some (decode l)) →
  Py.blank text = false →
  encode text = Some tokens →
  tokens ≠ [] →
  1 ≤ max_tokens →
  (1000 < fuel)%nat →
  ∃ chunks,
    chunk_text fuel text max_tokens 0 = Some chunks ∧
    (∀ i c, chunks !! i = Some c →
       start_token c = Z.of_nat i * max_tokens ∧
       end_token c = Z.min ((Z.of_nat i + 1) * max_tokens) (Py.len tokens)) ∧
    (length chunks = 1000%nat ∨
     (Py.len chunks - 1) * max_tokens < Py.len tokens
       ≤ Py.len chunks * max_tokens).
Proof.
  intros Hdec Hblank Henc Hne Hm Hfuel.
  unfold chunk_text. rewrite Hblank, Henc.
  assert (0 < Py.len tokens) as HL.
  { unfold Py.len. destruct tokens; [done|simpl; lia]. }
  replace (Py.len tokens =? 0) with false by (symmetry; apply Z.eqb_neq; lia).
  destruct (chunk_loop_returns tokens max_tokens 0 Hdec fuel 0 0 [])
    as [chunks Hrun]; [unfold max_chunks; simpl; lia|].
  exists chunks. split; [done|].
  destruct (chunk_loop_emitted _ _ _ _ _ _ _ _ Hrun) as (new' & Heq & Hem).
  simpl in Heq. subst new'.
  apply (chunk_loop_chain tokens max_tokens 0 Hdec) in Hrun
    as (new & s' & Heq & Hch & Hlen & Hexit & Hnonempty).
  simpl in Heq. subst new.
  specialize (Hnonempty HL ltac:(unfold max_chunks; lia)).
  specialize (Hlen Hnonempty).
  assert (∀ i c, chunks !! i = Some c →
            start_token c = Z.of_nat i * max_tokens) as Hstart.
  { induction i as [|i IHi]; intros c Hc.
    - destruct chunks as [|c0 cs]; [done|]. injection Hc as <-.
      apply chain_head in Hch. lia.
    - destruct (chunks !! i) as [cp|] eqn:Hp.
      + pose proof (IHi cp eq_refl) as Hsp.
        pose proof (chain_next _ _ _ _ _ _ _ _ _ Hch Hp Hc) as Hnext.
        destruct (Hem i cp Hp) as (_ & _ & _ & Hpe).
        destruct (Hem (S i) c Hc) as (_ & _ & Hclt & _).
        lia.
      + apply lookup_ge_None in Hp. apply lookup_lt_Some in Hc. lia. }
  split.
  { intros i c Hc. pose proof (Hstart i c Hc) as Hs.
    destruct (Hem i c Hc) as (_ & _ & _ & He). split; [done|].
    rewrite He, Hs. f_equal. lia. }
  destruct (last chunks) as [cl|] eqn:Hlast; [|by apply last_None in Hlast].
  pose proof (chain_end _ _ _ _ _ _ _ Hch Hlast) as Hs'.
  rewrite last_lookup in Hlast.
  pose proof (Hstart _ _ Hlast) as Hsl.
  destruct (Hem _ _ Hlast) as (_ & _ & Hllt & Hle).
  assert (0 < length chunks)%nat as Hpos
    by (destruct chunks; [done|simpl; lia]).
  unfold max_chunks, Py.len in *.
  destruct Hexit as [Hex|Hfull]; [right|left; lia].
  replace (Z.of_nat (pred (length chunks)))
    with (Z.of_nat (length chunks) - 1) in Hsl by lia.
  split; [lia|]. lia.
Qed.

(** X4. With a [decode] that does not fail, [chunk_text] returns no chunk
    exactly for the texts it gives up on before the loop: a blank text, a
    text the tokenizer rejects, or a text without tokens. Every other
    text gives at least one chunk, whatever the window parameters. *)
Theorem X4_no_chunk_only_without_tokens (fuel : nat) (text : string)
    (max_tokens overlap : Z) :
  (∀ l, is_Some (decode l)) →
  (1000 < fuel)%nat →
  ∃ chunks,
    chunk_text fuel text max_tokens overlap = Some chunks ∧
    (chunks = [] ↔
     Py.blank text = true ∨ encode text = None ∨ encode text = Some []).
Proof.
  intros Hdec Hfuel. unfold chunk_text.
  destruct (Py.blank text); [exists []; split; [done|]; by intuition|].
  destruct (encode text) as [[|t tokens]|];
    [exists []; split; [done|]; by intuition| |
     exists []; split; [done|]; by intuition].
  set (toks := t :: tokens).
  assert (0 < Py.len toks) as HL by (unfold Py.len; simpl; lia).
  replace (Py.len toks =? 0) with false by (symmetry; apply Z.eqb_neq; lia).
  destruct (chunk_loop_returns toks max_tokens overlap Hdec fuel 0 0 [])
    as [chunks Hrun]; [unfold max_chunks; simpl; lia|].
  exists chunks. split; [done|].
  apply (chunk_loop_chain toks max_tokens overlap Hdec) in Hrun
    as (new & s' & -> & _ & _ & _ & Hnonempty).
  specialize (Hnonempty HL ltac:(unfold max_chunks; lia)). simpl.
  split; [done|]. intros [?|[?|?]]; done.
Qed.

(** X5. With a positive overlap, a text with at least one token none of
    whose windows can be decoded makes [chunk_text] loop for ever: no
    amount of fuel gives a result. *)
Theorem X5_undecodable_text_stalls (fuel : nat) (text : string)
    (tokens : list Z) (max_tokens overlap : Z) :
  Py.blank text = false →
  encode text = Some tokens →
  tokens ≠ [] →
  1 ≤ overlap →
  (∀ s, decode (Py.slice tokens s
                  (Z.min (s + max_tokens) (Py.len tokens))) = None) →
  chunk_text fuel text max_tokens overlap = None.
Proof.
  intros Hblank Henc Hne Ho Hdec.
  unfold chunk_text. rewrite Hblank, Henc.
  assert (0 < Py.len tokens) as HL.
  { unfold Py.len. destruct tokens; [done|simpl; lia]. }
  replace (Py.len tokens =? 0) with false by (symmetry; apply Z.eqb_neq; lia).
  by apply chunk_loop_stalls.
Qed.

(** X6. Without overlap and with windows of at least one token
    [chunk_text] ends whatever [decode] does, after at most one pass per
    token; the chunk at position [i] starts at or after [i * max_tokens]
    and before the end of the text, so the start offsets grow strictly. *)
Theorem X6_no_overlap_terminates (fuel : nat) (text : string)
    (tokens : list Z) (max_tokens : Z) :
  encode text = Some tokens →
  1 ≤ max_tokens →
  (length tokens < fuel)%nat →
  ∃ chunks,
    chunk_text fuel text max_tokens 0 = Some chunks ∧
    ∀ i c, chunks !! i = Some c →
      Z.of_nat i * max_tokens ≤ start_token c < Py.len tokens.
Proof.
  intros Henc Hm Hfuel. unfold chunk_text. rewrite Henc.
  destruct (Py.blank text); [by exists []|].
  destruct (Py.len tokens =? 0); [by exists []|].
  destruct (chunk_loop_advances tokens max_tokens 0 fuel 0 0 [] eq_refl Hm)
    as [chunks Hrun]; [unfold Py.len; lia|].
  exists chunks. split; [done|].
  destruct (chunk_loop_emitted _ _ _ _ _ _ _ _ Hrun) as (new & Heq & Hem).
  destruct (chunk_loop_starts_grow _ _ _ _ _ _ _ _ eq_refl Hm Hrun)
    as (new' & Heq' & Hgrow).
  simpl in Heq, Heq'. subst new new'.
  intros i c Hc. destruct (Hem i c Hc) as (_ & _ & Hlt & _).
  pose proof (Hgrow i c Hc) as Hlow. lia.
Qed.

End Results.

Lemma X1_chunks_numbered_and_decoded_witness :
  chunk_text (tok:=char_tokenizer) 1001 "abcdefgh" 4 0
  = Some [mkChunk "chunk_0" "abcd" 0 4; mkChunk "chunk_1" "efgh" 4 8] ∧
  NoDup ["chunk_0"; "chunk_1"].
Proof.
  assert (chunk_text (tok:=char_tokenizer) 1001 "abcdefgh" 4 0
          = Some [mkChunk "chunk_0" "abcd" 0 4; mkChunk "chunk_1" "efgh" 4 8])
    as Hrun by (vm_compute; reflexivity).
  split; [exact Hrun|].
  exact (proj1 (X1_chunks_numbered_and_decoded (tok:=char_tokenizer) 1001
                  "abcdefgh" 4 0 _ Hrun)).
Defined.

Lemma X2_overlap_fills_the_limit_witness :
  ∃ chunks,
    chunk_text (tok:=char_tokenizer) 1001 "abcdefgh" 4 1 = Some chunks ∧
    length chunks = 1000%nat.
Proof.
  destruct (X2_overlap_fills_the_limit (tok:=char_tokenizer) 1001 "abcdefgh"
              [97; 98; 99; 100; 101; 102; 103; 104] 4 1)
    as (chunks & Hrun & Hlen & _).
  - intros l. eexists. reflexivity.
  - reflexivity.
  - reflexivity.
  - discriminate.
  - lia.
  - lia.
  - exists chunks. split; assumption.
Defined.

Lemma X3_tiling_without_overlap_witness :
  ∃ chunks,
    chunk_text (tok:=char_tokenizer) 1001 "abcdefgh" 3 0 = Some chunks ∧
    (∀ i c, chunks !! i = Some c →
       start_token c = Z.of_nat i * 3 ∧
       end_token c = Z.min ((Z.of_nat i + 1) * 3) 8) ∧
    (length chunks = 1000%nat ∨
     (Py.len chunks - 1) * 3 < 8 ≤ Py.len chunks * 3).
Proof.
  apply (X3_tiling_without_overlap (tok:=char_tokenizer) 1001 "abcdefgh"
           [97; 98; 99; 100; 101; 102; 103; 104] 3).
  - intros l. eexists. reflexivity.
  - reflexivity.
  - reflexivity.
  - discriminate.
  - lia.
  - lia.
Defined.

Lemma X4_no_chunk_only_without_tokens_witness :
  ∃ chunks,
    chunk_text (tok:=char_tokenizer) 1001 "x<|endoftext|>" 4 1 = Some chunks ∧
    (chunks = [] ↔
     Py.blank "x<|endoftext|>" = true ∨
     char_encode "x<|endoftext|>" = None ∨
     char_encode "x<|endoftext|>" = Some []).
Proof.
  apply (X4_no_chunk_only_without_tokens (tok:=char_tokenizer) 1001
           "x<|endoftext|>" 4 1).
  - intros l. eexists. reflexivity.
  - lia.
Defined.

Lemma X5_undecodable_text_stalls_witness :
  chunk_text (tok:=mute_tokenizer) 5000 "abc" 2 1 = None.
Proof.
  apply (X5_undecodable_text_stalls (tok:=mute_tokenizer) 5000 "abc"
           [97; 98; 99] 2 1).
  - reflexivity.
  - reflexivity.
  - discriminate.
  - lia.
  - intros s. reflexivity.
Defined.

Lemma X6_no_overlap_terminates_witness :
  ∃ chunks,
    chunk_text (tok:=mute_tokenizer) 4 "abc" 2 0 = Some chunks ∧
    ∀ i c, chunks !! i = Some c →
      Z.of_nat i * 2 ≤ start_token c < 3.
Proof.
  apply (X6_no_overlap_terminates (tok:=mute_tokenizer) 4 "abc"
           [97; 98; 99] 2).
  - reflexivity.
  - lia.
  - simpl. lia.
Defined.

End ChunkerExtras.

(* ===================================================================== *)
(** * Further properties of the embedding client *)
(* ===================================================================== *)

Module EmbedderExtras.
Import Embedder EmbedderFacts.

Section Facts.
Context {F W : Type} {svc : EmbedService F W}.

Lemma embed_each_answers batch w es w' :
  embed_each batch w = (Some es, w') →
  Forall2 (answers retrieval_document) batch es.
Proof.
  revert w es. induction batch as [|text batch IH]; intros w es Hrun;
    simpl in Hrun.
  - injection Hrun as <- <-. constructor.
  - destruct (embed_content retrieval_document text w) as [[e|] w1] eqn:He;
      [|done].
    destruct (embed_each batch w1) as [[es1|] w2] eqn:Hrest; [|done].
    injection Hrun as <- <-. constructor; [by exists w, w1|by eapply IH].
Qed.

Lemma embed_batches_answers n batches acc w es w' :
  (0 < n)%nat →
  embed_batches n batches acc w = (Some es, w') →
  ∃ new, es = acc ++ new ∧
         Forall2 (answers retrieval_document) (concat batches) new.
Proof.
  intros Hn. revert acc w.
  induction batches as [|batch batches IH]; intros acc w Hrun;
    simpl in Hrun.
  - injection Hrun as <- <-. exists []. by rewrite app_nil_r.
  - destruct (with_retries n (embed_each batch) w) as [r w1] eqn:Hretry.
    apply with_retries_result in Hretry.
    destruct r as [bes| |]; [|done|lia].
    destruct Hretry as [w0 Hbody%embed_each_answers].
    apply IH in Hrun as (new & -> & Hnew).
    exists (bes ++ new). split; [by rewrite app_assoc|].
    simpl. by apply Forall2_app.
Qed.

Lemma embed_batches_no_attempt batches acc (w : W) :
  embed_batches 0 batches acc w = (Some acc, w).
Proof. revert acc. induction batches as [|b bs IH]; intros acc; by simpl. Qed.

Lemma with_retries_always_failing {A} (body : W → option A * W) n w :
  (∀ w0, (body w0).1 = None) →
  with_retries (S n) body w = (Failed, Nat.iter (S n) (λ w0, (body w0).2) w).
Proof.
  intros Hfail. revert w. induction n as [|n IH]; intros w.
  - simpl. specialize (Hfail w). by destruct (body w) as [[a|] w1].
  - rewrite Nat.iter_succ_r.
    change (with_retries (S (S n)) body w)
      with (match body w with
            | (Some a, w') => (Succeeded a, w')
            | (None, w') => with_retries (S n) body w'
            end).
    specialize (Hfail w). destruct (body w) as [[a|] w1]; [done|].
    simpl snd. apply IH.
Qed.

Lemma embed_each_reliable batch w :
  (∀ task text w0, is_Some (embed_content task text w0).1) →
  is_Some (embed_each batch w).1.
Proof.
  intros Hok. revert w. induction batch as [|text batch IH]; intros w; simpl;
    [by eexists|].
  destruct (Hok retrieval_document text w) as [e He].
  destruct (embed_content retrieval_document text w) as [[e'|] w1]; [|done].
  destruct (IH w1) as [es Hes].
  destruct (embed_each batch w1) as [[es'|] w2]; [|done]. by eexists.
Qed.

Lemma embed_batches_reliable n batches acc w :
  (∀ task text w0, is_Some (embed_content task text w0).1) →
  is_Some (embed_batches (S n) batches acc w).1.
Proof.
  intros Hok. revert acc w.
  induction batches as [|batch batches IH]; intros acc w; [by eexists|].
  change (embed_batches (S n) (batch :: batches) acc w)
    with (match with_retries (S n) (embed_each batch) w with
          | (Succeeded bes, w') => embed_batches (S n) batches (acc ++ bes) w'
          | (Exhausted, w') => embed_batches (S n) batches acc w'
          | (Failed, w') => (None, w')
          end).
  destruct (embed_each_reliable batch w Hok) as [es Hes].
  simpl. destruct (embed_each batch w) as [[es'|] w1]; [|done]. apply IH.
Qed.

Lemma embed_texts_answers (texts : list string) (max_retries : nat)
    (w w' : W) (vectors : list (list F)) :
  (0 < max_retries)%nat →
  embed_texts texts max_retries w = (Some vectors, w') →
  Forall2
    (answers (if decide (length texts = 1%nat) then retrieval_query
              else retrieval_document))
    texts vectors.
Proof.
  intros Hn Hrun. unfold embed_texts in Hrun.
  assert (∀ w0, embed_batches max_retries
                  ((λ i, Py.slice texts (Z.of_nat i)
                           (Z.of_nat i + Z.of_nat batch_size))
                     <$> range_step (length texts) batch_size) [] w0
                = (Some vectors, w') →
                Forall2 (answers retrieval_document) texts vectors)
    as Hbatches.
  { intros w0 Hb.
    apply embed_batches_answers in Hb as (new & -> & Hnew); [|done].
    by rewrite sub_batches_concat in Hnew. }
  destruct texts as [|text [|text' texts]].
  - by eapply Hbatches.
  - simpl. destruct (with_retries max_retries (embed_query text) w)
      as [r w1] eqn:Hretry.
    apply with_retries_result in Hretry.
    destruct r as [res| |]; [|done|lia].
    injection Hrun as <- <-. destruct Hretry as [w0 Hbody].
    unfold embed_query in Hbody.
    destruct (embed_content retrieval_query text w0) as [[e|] w2] eqn:He;
      [|done].
    injection Hbody as <- <-. repeat constructor. by exists w0, w2.
  - by eapply Hbatches.
Qed.

End Facts.

Section Results.
Context {F W : Type} {svc : EmbedService F W}.

(** X7. A successful [embed_texts] returns the embeddings in the order of
    the texts, one per text, each an answer of the service for that very
    text; a list of exactly one text is requested as [retrieval_query],
    any other list as [retrieval_document]. *)
Theorem X7_embeddings_in_order (texts : list string) (max_retries : nat)
    (w w' : W) (vectors : list (list F)) :
  (0 < max_retries)%nat →
  embed_texts texts max_retries w = (Some vectors, w') →
  Forall2
    (answers (if decide (length texts = 1%nat) then retrieval_query
              else retrieval_document))
    texts vectors.
Proof. apply embed_texts_answers. Qed.

(** X8. With [max_retries = 0] no request is made and no exception is
    raised: [embed_texts] returns the empty list for every list of texts
    and leaves the service as it was. *)
Theorem X8_no_attempt_no_embedding (texts : list string) (w : W) :
  embed_texts texts 0 w = (Some [], w).
Proof.
  unfold embed_texts.
  destruct texts as [|text [|text' texts]]; simpl;
    first [done|apply embed_batches_no_attempt].
Qed.

(** X9. When the service fails on every request for a text, [embed_texts]
    on that single text makes exactly [max_retries] requests, one after
    the other, and then raises. *)
Theorem X9_single_text_retried (text : string) (max_retries : nat) (w : W) :
  (0 < max_retries)%nat →
  (∀ w0, (embed_content retrieval_query text w0).1 = None) →
  embed_texts [text] max_retries w
  = (None, Nat.iter max_retries
             (λ w0, (embed_content retrieval_query text w0).2) w).
Proof.
  intros Hn Hfail. destruct max_retries as [|n]; [lia|].
  unfold embed_texts.
  assert (∀ w0, (embed_query text w0).1 = None) as Hq.
  { intros w0. unfold embed_query. specialize (Hfail w0).
    by destruct (embed_content retrieval_query text w0) as [[e|] w1]. }
  rewrite (with_retries_always_failing (embed_query text) n w Hq).
  f_equal. clear. revert w. induction n as [|n IH]; intros w.
  - simpl. unfold embed_query.
    by destruct (embed_content retrieval_query text w).
  - rewrite !(Nat.iter_succ_r (S n)). rewrite IH. f_equal.
    unfold embed_query. by destruct (embed_content retrieval_query text w).
Qed.

(** X10. [embed_texts] raises only when the service does: with a service
    that answers every request and at least one attempt allowed, every
    call returns one embedding per text. *)
Theorem X10_reliable_service_never_raises (texts : list string)
    (max_retries : nat) (w : W) :
  (0 < max_retries)%nat →
  (∀ task text w0, is_Some (embed_content task text w0).1) →
  ∃ vectors w',
    embed_texts texts max_retries w = (Some vectors, w') ∧
    length vectors = length texts.
Proof.
  intros Hn Hok. destruct max_retries as [|n]; [lia|].
  assert (∃ vectors w', embed_texts texts (S n) w = (Some vectors, w'))
    as (vectors & w' & Hrun).
  { unfold embed_texts.
    destruct texts as [|text [|text' texts]].
    - destruct (embed_batches_reliable n
                  ((λ i, Py.slice [] (Z.of_nat i)
                           (Z.of_nat i + Z.of_nat batch_size))
                     <$> range_step (length (@nil string)) batch_size)
                  [] w Hok) as [vs Hvs].
      destruct (embed_batches _ _ _ _) as [[vs'|] w1]; [|done].
      by eexists _, _.
    - destruct (Hok retrieval_query text w) as [e He].
      simpl. unfold embed_query at 1.
      destruct (embed_content retrieval_query text w) as [[e'|] w1]; [|done].
      by eexists _, _.
    - match goal with |- ∃ _ _, embed_batches ?k ?bs ?a ?w0 = _ =>
        destruct (embed_batches_reliable n bs a w0 Hok) as [vs Hvs];
        destruct (embed_batches k bs a w0) as [[vs'|] w1]; [|done]
      end.
      by eexists _, _. }
  exists vectors, w'. split; [done|].
  apply embed_texts_answers in Hrun; [|lia].
  by apply Forall2_length in Hrun.
Qed.

End Results.

Lemma X7_embeddings_in_order_witness :
  Forall2 (answers (svc:=toy_service) retrieval_document)
    ["abc"; "xyz"] [[1; 0]; [0; 1]].
Proof.
  apply (X7_embeddings_in_order (svc:=toy_service) ["abc"; "xyz"] 3
           0%nat 2%nat [[1; 0]; [0; 1]]).
  - lia.
  - reflexivity.
Defined.

Lemma X9_single_text_retried_witness :
  embed_texts (svc:=toy_service) ["!x"] 3 0%nat = (None, 3%nat).
Proof.
  apply (X9_single_text_retried (svc:=toy_service) "!x" 3 0%nat).
  - lia.
  - intros w0. reflexivity.
Defined.

Lemma X10_reliable_service_never_raises_witness :
  ∃ vectors w',
    embed_texts (svc:=steady_service) ["abc"; "!x"] 1 0%nat
    = (Some vectors, w') ∧
    length vectors = 2%nat.
Proof.
  apply (X10_reliable_service_never_raises (svc:=steady_service)
           ["abc"; "!x"] 1 0%nat).
  - lia.
  - intros task text w0. eexists. reflexivity.
Defined.

End EmbedderExtras.

(* ===================================================================== *)
(** * Further properties of the vector index *)
(* ===================================================================== *)

Module IndexerExtras.
Import Indexer IndexerFacts.

Section Facts.
Context {F : Type} {fl : FloatOps F}.

Lemma forallb_false_witness {A} (f : A → bool) (l : list A) :
  forallb f l = false → ∃ x, x ∈ l ∧ f x = false.
Proof.
  induction l as [|a l IH]; simpl; [done|].
  destruct (f a) eqn:Ha; simpl.
  - intros (x & Hx & Hfx)%IH. exists x. split; [by right|done].
  - intros _. exists a. split; [by left|done].
Qed.

Lemma columns_cases (vectors : list (list F)) :
  match columns vectors with
  | Py.Ok c => vectors ≠ [] ∧ Forall (λ r, Py.len r = c) vectors
  | Py.Raise Py.IndexError => vectors = []
  | Py.Raise Py.ValueError =>
      ∃ r r', r ∈ vectors ∧ r' ∈ vectors ∧ length r ≠ length r'
  | Py.Raise _ => False
  end.
Proof.
  unfold columns. destruct vectors as [|v vs]; [done|].
  destruct (forallb _ _) eqn:Hall.
  - split; [done|]. apply Forall_forall. intros r Hr.
    rewrite forallb_forall in Hall.
    apply Z.eqb_eq, Hall. by apply list_elem_of_In.
  - apply forallb_false_witness in Hall as (r & Hr & Hlen).
    exists r, v. split; [done|]. split; [by left|].
    intros Heq. apply Z.eqb_neq in Hlen. apply Hlen.
    unfold Py.len. by rewrite Heq.
Qed.

(** The labels of a search: positions of rows, or [-1]. *)
Lemma search_labels ix (q : list F) k h :
  h ∈ search ix q k → -1 ≤ h.2.
Proof.
  unfold search. intros [Hh|Hh]%elem_of_app.
  - apply (subseteq_take (Z.to_nat k)) in Hh.
    rewrite merge_sort_Permutation in Hh.
    apply scored_lookup in Hh as (i & x & _ & ->). simpl. lia.
  - apply elem_of_replicate in Hh as [-> _]. simpl. lia.
Qed.

Lemma search_length ix (q : list F) k :
  0 ≤ k → Py.len (search ix q k) = k.
Proof.
  intros Hk. unfold search, Py.len.
  rewrite length_app, length_replicate, length_take. lia.
Qed.

(** With a metadata record to fall back on, every label gives a hit or is
    passed over: [collect] does not raise and keeps at most one hit per
    label. *)
Lemma collect_nonempty metas (hits : list (F * Z)) acc :
  metas ≠ [] → Forall (λ h, -1 ≤ h.2) hits →
  ∃ res, collect metas hits acc = Py.Ok (acc ++ res) ∧
         (length res ≤ length hits)%nat.
Proof.
  intros Hne Hall. revert acc.
  assert (0 < Py.len metas) as Hlen
    by (unfold Py.len; destruct metas; [done|simpl; lia]).
  induction Hall as [|[s idx] hits Hidx _ IH]; intros acc; simpl in *.
  - exists []. by rewrite app_nil_r.
  - destruct (idx <? Py.len metas) eqn:Hlt.
    + apply Z.ltb_lt in Hlt.
      assert (∃ meta, Py.index metas idx = Py.Ok meta) as [meta ->].
      { unfold Py.index. cbv zeta.
        destruct (idx <? 0) eqn:Hneg.
        - apply Z.ltb_lt in Hneg.
          replace (idx + Py.len metas <? 0) with false
            by (symmetry; apply Z.ltb_ge; lia).
          destruct (metas !! Z.to_nat (idx + Py.len metas)) eqn:Hm;
            [by eexists|].
          apply lookup_ge_None in Hm. unfold Py.len in *. lia.
        - rewrite Hneg. apply Z.ltb_ge in Hneg.
          destruct (metas !! Z.to_nat idx) eqn:Hm; [by eexists|].
          apply lookup_ge_None in Hm. unfold Py.len in *. lia. }
      destruct (IH (acc ++ [mkHit s meta])) as (res & -> & Hres).
      exists (mkHit s meta :: res).
      split; [by rewrite <- app_assoc|]. simpl. lia.
    + destruct (IH acc) as (res & -> & Hres).
      exists res. split; [done|]. lia.
Qed.

(** Without metadata the labels of rows are passed over and the first
    filling label raises. *)
Lemma collect_no_metadata (hits : list (F * Z)) acc :
  Forall (λ h, 0 ≤ h.2) hits → collect [] hits acc = Py.Ok acc.
Proof.
  induction 1 as [|[s idx] hits Hidx _ IH]; simpl in *; [done|].
  by replace (idx <? Py.len []) with false
    by (symmetry; apply Z.ltb_ge; unfold Py.len; simpl; lia).
Qed.

(** The ways [query] ends. *)
Lemma query_cases (self : FaissIndexer F) (probe : list F) (k : Z) :
  match query self probe k with
  | Py.Ok hits =>
      Py.len probe = d (index self) ∧ 0 < k ∧ Py.len hits ≤ k ∧
      (metadatas self = [] → hits = [])
  | Py.Raise Py.AssertionError => ¬ (Py.len probe = d (index self) ∧ 0 < k)
  | Py.Raise Py.IndexError =>
      Py.len probe = d (index self) ∧ 0 < k ∧
      metadatas self = [] ∧ Py.len (xb (index self)) < k
  | Py.Raise _ => False
  end.
Proof.
  unfold query.
  destruct (Py.len probe =? d (index self)) eqn:Hd; simpl;
    [|apply Z.eqb_neq in Hd; by intros [? _]].
  apply Z.eqb_eq in Hd.
  destruct (0 <? k) eqn:Hk; simpl;
    [|apply Z.ltb_ge in Hk; intros [_ ?]; lia].
  apply Z.ltb_lt in Hk.
  set (q := normalize_L2 probe). set (ix := index self).
  destruct (metadatas self) as [|m0 ms] eqn:Hmetas.
  - (* no metadata *)
    unfold search.
    set (top := take (Z.to_nat k) (merge_sort score_ge (scored ix q))).
    rewrite collect_app.
    assert (Forall (λ h : F * Z, 0 ≤ h.2) top) as Htop.
    { apply Forall_forall. intros h Hh.
      apply (subseteq_take (Z.to_nat k)) in Hh.
      rewrite merge_sort_Permutation in Hh.
      apply scored_lookup in Hh as (i & x & _ & ->). simpl. lia. }
    rewrite (collect_no_metadata top [] Htop).
    assert (length top = Nat.min (Z.to_nat k) (length (xb ix))) as Hlen.
    { unfold top.
      rewrite length_take, (Permutation_length (merge_sort_Permutation _ _)).
      unfold scored. by rewrite length_imap. }
    destruct (Z.to_nat k - length top)%nat as [|n] eqn:Hpad; simpl.
    + repeat split; try done. unfold Py.len. simpl. lia.
    + repeat split; try done. unfold Py.len. lia.
  - assert (Forall (λ h : F * Z, -1 ≤ h.2) (search ix q k)) as Hlabels.
    { apply Forall_forall. intros h. apply search_labels. }
    destruct (collect_nonempty (m0 :: ms) (search ix q k) [] ltac:(done)
                Hlabels) as (res & -> & Hres).
    simpl. repeat split; try done.
    pose proof (search_length ix q k ltac:(lia)) as Hlen.
    unfold Py.len in *. lia.
Qed.

End Facts.

Section Results.
Context {F : Type} {fl : FloatOps F}.

(** X11. [add] succeeds exactly on a non-empty list of vectors that all
    have the dimension of the index; it then appends the normalised
    vectors to the rows and the given metadata records to the metadata,
    in order, without comparing how many there are of each. An empty list
    raises [IndexError], vectors of different lengths raise [ValueError],
    vectors of one length other than the dimension raise
    [AssertionError]. *)
Theorem X11_add_outcomes (self : FaissIndexer F) (vectors : list (list F))
    (metas : list Metadata) :
  match add self vectors metas with
  | Py.Ok self' =>
      vectors ≠ [] ∧
      Forall (λ r, Py.len r = d (index self)) vectors ∧
      xb (index self') = xb (index self) ++ (normalize_L2 <$> vectors) ∧
      metadatas self' = metadatas self ++ metas ∧
      d (index self') = d (index self) ∧ dim self' = dim self
  | Py.Raise Py.IndexError => vectors = []
  | Py.Raise Py.ValueError =>
      ∃ r r', r ∈ vectors ∧ r' ∈ vectors ∧ length r ≠ length r'
  | Py.Raise Py.AssertionError =>
      vectors ≠ [] ∧
      ∃ c, c ≠ d (index self) ∧ Forall (λ r, Py.len r = c) vectors
  | Py.Raise _ => False
  end.
Proof.
  unfold add. pose proof (columns_cases vectors) as Hc.
  destruct (columns vectors) as [c|e]; [|by destruct e].
  destruct Hc as [Hne Hall].
  destruct (c =? d (index self)) eqn:Hd.
  - apply Z.eqb_eq in Hd. subst c. by simpl.
  - apply Z.eqb_neq in Hd. split; [done|]. by exists c.
Qed.


End Results.

Section Ranking.
Context {F : Type} {fl : FloatOps F} {ord : FloatOrder F}.

(** X13. The hits of [query] are a selection of the [k] best rows: on an
    index whose metadata list is as long as its row list, for a probe of
    the index dimension and [0 < k <= n], the inner products of the probe
    with the stored rows are, up to their order, the scores of the hits
    together with scores none of which exceeds the score of any hit. *)
Theorem X13_hits_are_the_best (self : FaissIndexer F) (probe : list F)
    (k : Z) :
  Py.len probe = d (index self) →
  0 < k ≤ Py.len (xb (index self)) →
  length (metadatas self) = length (xb (index self)) →
  ∃ hits rest,
    query self probe k = Py.Ok hits ∧
    (score <$> hits) ++ rest
      ≡ₚ (inner_product (normalize_L2 probe) <$> xb (index self)) ∧
    ∀ h s, h ∈ hits → s ∈ rest → fle s (score h) = true.
Proof.
  intros Hd Hk Hlock. unfold query.
  replace (Py.len probe =? d (index self)) with true
    by (symmetry; by apply Z.eqb_eq).
  replace (0 <? k) with true by (symmetry; apply Z.ltb_lt; lia).
  simpl.
  set (q := normalize_L2 probe). set (ix := index self).
  assert (0 ≤ k ≤ Py.len (xb ix)) as Hk' by (unfold ix; lia).
  destruct (search_no_padding ix q k Hk') as [Hsearch _].
  set (sorted := merge_sort score_ge (scored ix q)) in *.
  assert (Forall (λ h : F * Z, 0 ≤ h.2 < Py.len (metadatas self))
            (search ix q k)) as Hrange.
  { rewrite Hsearch. apply Forall_forall. intros h Hh.
    apply (subseteq_take (Z.to_nat k)) in Hh. unfold sorted in Hh.
    rewrite merge_sort_Permutation in Hh.
    apply scored_lookup in Hh as (i & x & Hx & ->). simpl.
    apply lookup_lt_Some in Hx. unfold Py.len, ix in *. lia. }
  destruct (collect_in_range (metadatas self) (search ix q k) [] Hrange)
    as (hits & Hrun & Hrel).
  exists hits, (drop (Z.to_nat k) sorted).*1. split; [done|].
  assert (score <$> hits = (take (Z.to_nat k) sorted).*1) as Hscores.
  { rewrite <- Hsearch. clear -Hrel.
    induction Hrel as [|h r hs rs [Hs _] _ IH]; [done|].
    rewrite !fmap_cons. by rewrite Hs, IH. }
  split.
  - rewrite Hscores, <- fmap_app, take_drop. unfold sorted.
    by rewrite merge_sort_Permutation, scored_fst.
  - intros h s Hh Hs.
    assert (score h ∈ (take (Z.to_nat k) sorted).*1) as Hh'
      by (rewrite <- Hscores; by apply list_elem_of_fmap_2).
    apply list_elem_of_fmap in Hh' as (a & Ha & Hain).
    apply list_elem_of_fmap in Hs as (b & -> & Hbin).
    pose proof (StronglySorted_merge_sort score_ge (scored ix q)) as Hsorted.
    fold sorted in Hsorted.
    rewrite <- (take_drop (Z.to_nat k) sorted) in Hsorted.
    pose proof (StronglySorted_app_1_elem_of _ _ _ _ _ Hsorted Hain Hbin)
      as Hge.
    unfold score_ge in Hge. by rewrite Ha.
Qed.

End Ranking.

Lemma X13_hits_are_the_best_witness :
  ∃ hits rest,
    query (fl:=axis_floats) ranked3 [1; 0] 2 = Py.Ok hits ∧
    (score <$> hits) ++ rest
      ≡ₚ (dot (axis_normalize [1; 0]) <$> xb (index ranked3)) ∧
    ∀ h s, h ∈ hits → s ∈ rest → (s <=? score h) = true.
Proof.
  apply (X13_hits_are_the_best (ord:=IndexerTheorems.axis_order) ranked3
           [1; 0] 2);
    [reflexivity | vm_compute; by split | reflexivity].
Defined.

End IndexerExtras.

(* ===================================================================== *)
(** * Further properties of the incremental builder *)
(* ===================================================================== *)

Module BuilderExtras.
Import Indexer Builder BuilderFacts.

Section Facts.
Context {F W : Type} {tok : Tokenizer} {svc : EmbedService F W}
  {fl : FloatOps F} {hash : Hasher}.

(** ** Counters *)

Lemma process_doc_counts fuel doc l (s : Env F W) l' s' :
  process_doc fuel doc l s = Done l' s' →
  docs_processed l' - docs_processed l
  = Z.of_nat (size (processed_ids (builder s')))
    - Z.of_nat (size (processed_ids (builder s))) ∧
  0 ≤ docs_processed l' - docs_processed l ∧
  0 ≤ docs_skipped l' - docs_skipped l ∧
  (docs_processed l' - docs_processed l)
  + (docs_skipped l' - docs_skipped l) ≤ 1.
Proof.
  unfold process_doc.
  case_decide as Hseen; [intros [= <- <-]; simpl; lia|].
  destruct (Py.blank _); [intros [= <- <-]; lia|].
  destruct (Chunker.chunk_text _ _ _ _) as [chunks|]; [|done].
  set (texts := batch_texts l ++ _). set (metas := batch_metadatas l ++ _).
  set (s1 := log _ _).
  assert (Z.of_nat (size (processed_ids (builder s1)))
          = Z.of_nat (size (processed_ids (builder s))) + 1) as Hsize.
  { simpl. rewrite size_union by set_solver. rewrite size_singleton. lia. }
  destruct (batch_size (builder s) <=? Py.len texts);
    [|intros [= <- <-]; simpl in *; lia].
  pose proof (process_batch_effect texts metas s1) as Heff.
  destruct (process_batch texts metas s1) as [[] s2|e s2|]; [|done|done].
  destruct Heff as (vectors & ix & _ & _ & _ & Hb & _ & _).
  assert (processed_ids (builder s2) = processed_ids (builder s1)) as HP
    by (by rewrite Hb).
  destruct (batch_size (builder s) * 10 =? 0); [done|].
  destruct (_ =? 0); intros [= <- <-]; simpl; rewrite ?HP; simpl in *; lia.
Qed.

Lemma process_loop_counts fuel documents l (s : Env F W) l' s' :
  process_loop fuel documents l s = Done l' s' →
  docs_processed l' - docs_processed l
  = Z.of_nat (size (processed_ids (builder s')))
    - Z.of_nat (size (processed_ids (builder s))) ∧
  0 ≤ docs_processed l' - docs_processed l ∧
  0 ≤ docs_skipped l' - docs_skipped l ∧
  (docs_processed l' - docs_processed l)
  + (docs_skipped l' - docs_skipped l) ≤ Py.len documents.
Proof.
  revert l s. induction documents as [|doc rest IH]; intros l s Hrun;
    simpl in Hrun.
  - injection Hrun as <- <-. unfold Py.len. simpl. lia.
  - destruct (process_doc fuel doc l s) as [l1 s1|e s1|] eqn:Hdoc;
      [|done|done].
    apply process_doc_counts in Hdoc. apply IH in Hrun.
    unfold Py.len in *. simpl length. lia.
Qed.

(** ** Nothing is taken away *)

Lemma extends_refl (s : Env F W) : extends s s.
Proof. by repeat split. Qed.

Lemma process_batch_extends (s0 : Env F W) texts metas s :
  extends s0 s →
  match process_batch texts metas s with
  | Done _ s' | Raised _ s' => extends s0 s'
  | OutOfFuel => False
  end.
Proof.
  intros (HP & Hm & Hx & Hd & Ht & Hbs & Hcs & Hco & Hf).
  pose proof (process_batch_effect texts metas s) as Heff.
  destruct (process_batch texts metas s) as [[] s'|e s'|]; [| |done].
  - destruct Heff as (vectors & ix & _ & Hadd & Hix & Hb & Hdk & _).
    apply IndexerFacts.add_rows in Hadd as (Hxb & Hmeta & Hd').
    unfold extends. rewrite Hix, Hb, Hdk, Hxb, Hmeta, Hd'. simpl.
    repeat split; try done.
    + by apply prefix_app_r.
    + by apply prefix_app_r.
    + unfold Py.len. lia.
  - destruct Heff as (Hix & Hb & Hdk & _).
    unfold extends. rewrite Hix, Hb, Hdk. by repeat split.
Qed.

Lemma process_doc_extends fuel (s0 : Env F W) doc l s :
  extends s0 s →
  match process_doc fuel doc l s with
  | Done _ s' | Raised _ s' => extends s0 s'
  | OutOfFuel => True
  end.
Proof.
  intros Hext. unfold process_doc.
  case_decide as Hseen; [done|].
  destruct (Py.blank _); [done|].
  destruct (Chunker.chunk_text _ _ _ _) as [chunks|]; [|done].
  set (texts := batch_texts l ++ _). set (metas := batch_metadatas l ++ _).
  set (s1 := log _ _).
  assert (extends s0 s1) as Hext1.
  { destruct Hext as (HP & Hm & Hx & Hd & Ht & Hbs & Hcs & Hco & Hf).
    repeat split; try done. simpl.
    etrans; [exact HP|]. apply union_subseteq_l. }
  destruct (batch_size (builder s) <=? Py.len texts); [|done].
  pose proof (process_batch_extends s0 texts metas s1 Hext1) as Hflush.
  destruct (process_batch texts metas s1) as [[] s2|e s2|]; [|done|done].
  destruct (batch_size (builder s) * 10 =? 0); [done|].
  destruct (_ =? 0); done.
Qed.

Lemma process_documents_extends fuel documents (s : Env F W) :
  match process_documents fuel documents s with
  | Done _ s' | Raised _ s' => extends s s'
  | OutOfFuel => True
  end.
Proof.
  unfold process_documents.
  pose proof (process_loop_inv fuel (λ _, True) (λ _, extends s)
                (λ _, extends s)
                (λ doc l s1 _, process_doc_extends fuel s doc l s1)
                documents (mkLocals [] [] 0 0) s
                (Forall_true _ _ (λ _, I)) (extends_refl s)) as Hloop.
  destruct (process_loop fuel documents (mkLocals [] [] 0 0) s)
    as [l s1|e s1|]; [|done|done].
  destruct (batch_texts l) as [|text texts]; [done|].
  pose proof (process_batch_extends s (text :: texts) (batch_metadatas l)
                s1 Hloop) as Hflush.
  by destruct (process_batch (text :: texts) (batch_metadatas l) s1)
    as [[] s2|e s2|].
Qed.

(** ** The records of a run *)

Lemma process_loop_records fuel documents l (s : Env F W) l' s' :
  process_loop fuel documents l s = Done l' s' →
  metadatas (indexer s') ++ batch_metadatas l'
  = (metadatas (indexer s) ++ batch_metadatas l)
    ++ chunk_records fuel (chunk_size (builder s)) (chunk_overlap (builder s))
         documents (processed_ids (builder s)).
Proof.
  revert l s. induction documents as [|doc rest IH]; intros l s Hrun;
    simpl in Hrun.
  - injection Hrun as <- <-. simpl. by rewrite app_nil_r.
  - simpl. unfold process_doc in Hrun.
    case_decide as Hseen; [by apply IH in Hrun|].
    destruct (Py.blank _); [by apply IH in Hrun|].
    destruct (Chunker.chunk_text _ _ _ _) as [chunks|]; [|done].
    set (texts := batch_texts l ++ _) in *.
    set (metas := batch_metadatas l ++ (chunk_metadata doc <$> chunks)) in *.
    set (s1 := log _ _) in *.
    destruct (batch_size (builder s) <=? Py.len texts).
    + pose proof (process_batch_effect texts metas s1) as Heff.
      destruct (process_batch texts metas s1) as [[] s2|e s2|];
        [|done|done].
      destruct Heff as (vectors & ix & _ & Hadd & Hix & Hb & _ & _).
      apply IndexerFacts.add_rows in Hadd as (_ & Hmeta & _).
      assert (∀ s3 : Env F W,
                builder s3 = builder s2 → indexer s3 = indexer s2 →
                process_loop fuel rest
                  (mkLocals [] [] (docs_processed l + 1) (docs_skipped l)) s3
                = Done l' s' →
                metadatas (indexer s') ++ batch_metadatas l'
                = (metadatas (indexer s) ++ batch_metadatas l)
                  ++ (chunk_metadata doc <$> chunks)
                  ++ chunk_records fuel (chunk_size (builder s))
                       (chunk_overlap (builder s)) rest
                       (processed_ids (builder s) ∪ {[get_doc_id doc]}))
        as Hrest.
      { intros s3 Hb3 Hix3 Hrun3. apply IH in Hrun3.
        rewrite Hrun3, Hb3, Hix3, Hb, Hix, Hmeta. simpl.
        unfold metas. by rewrite app_nil_r, <- !app_assoc. }
      destruct (batch_size (builder s) * 10 =? 0); [done|].
      destruct (_ =? 0); (eapply Hrest; [| |exact Hrun]; done).
    + apply IH in Hrun. rewrite Hrun. simpl.
      unfold metas. by rewrite <- !app_assoc.
Qed.

End Facts.

Section Results.
Context {F W : Type} {tok : Tokenizer} {svc : EmbedService F W}
  {fl : FloatOps F} {hash : Hasher}.

(** X14. A completed [process_documents] reports counters that agree with
    what it did: the number of documents processed is the number of ids
    the run added to the processed ids, so no id is processed twice in a
    run; processed and skipped documents together are at most the
    documents of the stream; and the final checkpoint holds the processed
    ids and these numbers. *)
Theorem X14_counters_agree (fuel : nat) (documents : list Document)
    (s s' : Env F W) (processed skipped : Z) :
  process_documents fuel documents s = Done (processed, skipped) s' →
  processed = Z.of_nat (size (processed_ids (builder s')))
              - Z.of_nat (size (processed_ids (builder s))) ∧
  0 ≤ processed ∧ 0 ≤ skipped ∧
  processed + skipped ≤ Py.len documents ∧
  processed_ids_file (disk s') = Some (processed_ids (builder s')) ∧
  checkpoint_info_file (disk s')
  = Some (mkCheckpointInfo processed (total_chunks (builder s'))
            (Z.of_nat (size (processed_ids (builder s'))))).
Proof.
  unfold process_documents.
  destruct (process_loop fuel documents (mkLocals [] [] 0 0) s)
    as [l s1|e s1|] eqn:Hloop; [|done|done].
  apply process_loop_counts in Hloop. simpl in Hloop.
  destruct (batch_texts l) as [|text texts].
  - intros [= <- <- <-]. simpl. repeat split; try lia; done.
  - pose proof (process_batch_effect (text :: texts) (batch_metadatas l) s1)
      as Heff.
    destruct (process_batch (text :: texts) (batch_metadatas l) s1)
      as [[] s2|e s2|]; [|done|done].
    destruct Heff as (vectors & ix & _ & _ & _ & Hb & _ & _).
    intros [= <- <- <-]. simpl. rewrite Hb. simpl.
    repeat split; try lia; done.
Qed.

(** X15. However a [process_documents] run ends, it has taken nothing
    away: the processed ids contain those of the start, the rows and the
    metadata of the index are those of the start followed by what the run
    appended, [total_chunks] has not decreased, the dimension of the index
    and the parameters of the builder are unchanged, and the index files
    on disk were not written. *)
Theorem X15_run_only_appends (fuel : nat) (documents : list Document)
    (s : Env F W) :
  match process_documents fuel documents s with
  | Done _ s' | Raised _ s' => extends s s'
  | OutOfFuel => True
  end.
Proof. apply process_documents_extends. Qed.

(** X16. The index files are written by the final [indexer.save()] only:
    a build that completes leaves in them the rows and the metadata of its
    indexer, and a build that is aborted leaves them as they were before
    it, whatever checkpoints of the processed ids it wrote. *)
Theorem X16_index_saved_at_the_end_only
    (dim batch_size chunk_size chunk_overlap : Z) (fuel : nat)
    (documents : list Document) (dk : Disk F) (w : W) :
  match build_index dim batch_size chunk_size chunk_overlap fuel documents
          dk w with
  | Done _ s' =>
      index_files (disk s')
      = mkIndexFiles (Some (index (indexer s')))
          (Some (metadatas (indexer s')))
  | Raised _ s' => index_files (disk s') = index_files dk
  | OutOfFuel => True
  end.
Proof.
  unfold build_index.
  set (s0 := mkEnv _ _ dk w []).
  pose proof (process_documents_extends fuel documents s0) as Hext.
  destruct (process_documents fuel documents s0) as [r s'|e s'|];
    [done| |done].
  by destruct Hext as (_ & _ & _ & _ & _ & _ & _ & _ & Hf).
Qed.

(** X17. A completed [process_documents] has appended to the metadata of
    the index exactly the records of the chunks of the documents it
    processed, in stream order and in chunk order ([chunk_records]): a
    document is left out when its id was already processed, at the start
    or earlier in the stream, or when its text is blank. The batch size
    has no influence on this. *)
Theorem X17_records_in_stream_order (fuel : nat) (documents : list Document)
    (s s' : Env F W) (r : Z * Z) :
  process_documents fuel documents s = Done r s' →
  metadatas (indexer s')
  = metadatas (indexer s)
    ++ chunk_records fuel (chunk_size (builder s)) (chunk_overlap (builder s))
         documents (processed_ids (builder s)).
Proof.
  unfold process_documents.
  assert (accounted s (mkLocals [] [] 0 0) s) as Hstart.
  { split; [done|]. unfold grown. lia. }
  pose proof (process_loop_inv fuel (λ _, True) (accounted s)
                (λ _ s1, grown s s1)
                (λ doc l s1 _, process_doc_accounted fuel s doc l s1)
                documents (mkLocals [] [] 0 0) s
                (Forall_true _ _ (λ _, I)) Hstart) as Hacc.
  destruct (process_loop fuel documents (mkLocals [] [] 0 0) s)
    as [l s1|e s1|] eqn:Hloop; [|done|done].
  destruct Hacc as [Hbuf _].
  apply process_loop_records in Hloop. simpl in Hloop.
  rewrite app_nil_r in Hloop.
  destruct (batch_texts l) as [|text texts] eqn:Htexts.
  - intros [= <- <-]. simpl. rewrite <- Hloop.
    destruct (batch_metadatas l); [by rewrite app_nil_r|done].
  - pose proof (process_batch_effect (text :: texts) (batch_metadatas l) s1)
      as Heff.
    destruct (process_batch (text :: texts) (batch_metadatas l) s1)
      as [[] s2|e s2|]; [|done|done].
    destruct Heff as (vectors & ix & _ & Hadd & Hix & _ & _ & _).
    apply IndexerFacts.add_rows in Hadd as (_ & Hmeta & _).
    intros [= <- <-]. simpl. by rewrite Hix, Hmeta.
Qed.

End Results.

Lemma X14_counters_agree_witness :
  toy_run 5 stream_with_repeat = Done (1, 1) (ran 5 stream_with_repeat) ∧
  1 = Z.of_nat (size (processed_ids (builder (ran 5 stream_with_repeat))))
      - Z.of_nat (size (processed_ids (builder (fresh_env 5)))) ∧
  1 + 1 ≤ Py.len stream_with_repeat.
Proof.
  assert (toy_run 5 stream_with_repeat
          = Done (1, 1) (ran 5 stream_with_repeat)) as Hrun
    by (vm_compute; reflexivity).
  split; [exact Hrun|].
  destruct (X14_counters_agree (tok:=char_tokenizer) (svc:=toy_service)
              (fl:=axis_floats) (hash:=toy_hasher) 1001 stream_with_repeat
              (fresh_env 5) (ran 5 stream_with_repeat) 1 1 Hrun)
    as (Hp & _ & _ & Hsum & _).
  split; assumption.
Defined.

Lemma X17_records_in_stream_order_witness :
  toy_run 5 stream_with_repeat = Done (1, 1) (ran 5 stream_with_repeat) ∧
  metadatas (indexer (ran 5 stream_with_repeat))
  = metadatas (indexer (fresh_env 5))
    ++ chunk_records (tok:=char_tokenizer) (hash:=toy_hasher) 1001 4 0
         stream_with_repeat ∅.
Proof.
  assert (toy_run 5 stream_with_repeat
          = Done (1, 1) (ran 5 stream_with_repeat)) as Hrun
    by (vm_compute; reflexivity).
  split; [exact Hrun|].
  exact (X17_records_in_stream_order (tok:=char_tokenizer) (svc:=toy_service)
           (fl:=axis_floats) (hash:=toy_hasher) 1001 stream_with_repeat
           (fresh_env 5) (ran 5 stream_with_repeat) (1, 1) Hrun).
Defined.

(** A build with batches of one chunk over eleven documents of one chunk
    each, the last of which the service rejects: the checkpoint written
    after the tenth document has persisted ten processed ids, the build is
    aborted, and the index files are still absent. *)
Example aborted_build_keeps_checkpoint :
  match toy_build 1
          (((λ i, doc (pretty i) "abcd") <$> seqZ 0 10) ++ [doc "x" "!boo"])
          empty_disk 0%nat with
  | Raised e s =>
      e = Py.EmbedException ∧
      size <$> processed_ids_file (disk s) = Some 10%nat ∧
      index_files (disk s) = mkIndexFiles None None
  | _ => False
  end.
Proof. by vm_compute. Qed.

End BuilderExtras.

(* ===================================================================== *)
(** * Properties of the file-based build *)
(* ===================================================================== *)

Module IndexBuildExtras.
Import Indexer IndexBuild.

Section Facts.
Context {F W : Type} {tok : Tokenizer} {svc : EmbedService F W}
  {fl : FloatOps F}.

(** What the loop over the files appends: one text and one record for each
    chunk of each file that could be read, in the order of the files. *)
Lemma chunk_files_spec fuel read files acc_c acc_m r_c r_m :
  chunk_files fuel read files acc_c acc_m = Some (r_c, r_m) →
  ∃ new : list (string * Chunker.Chunk),
    r_c = acc_c ++ ((λ p, Chunker.text p.2) <$> new) ∧
    r_m = acc_m ++ ((λ p, file_metadata p.1 p.2) <$> new) ∧
    Forall (λ p, p.1 ∈ files ∧
              ∃ txt chunks, read p.1 = Some txt ∧
                Chunker.chunk_text fuel txt 300 50 = Some chunks ∧
                p.2 ∈ chunks) new.
Proof.
  revert acc_c acc_m.
  induction files as [|fpath rest IH]; intros acc_c acc_m Hrun;
    simpl in Hrun.
  - injection Hrun as <- <-. exists []. by rewrite !app_nil_r.
  - assert (∀ a b, chunk_files fuel read rest a b = Some (r_c, r_m) →
              ∃ new : list (string * Chunker.Chunk),
                r_c = a ++ ((λ p, Chunker.text p.2) <$> new) ∧
                r_m = b ++ ((λ p, file_metadata p.1 p.2) <$> new) ∧
                Forall (λ p, p.1 ∈ fpath :: rest ∧
                          ∃ txt chunks, read p.1 = Some txt ∧
                            Chunker.chunk_text fuel txt 300 50 = Some chunks ∧
                            p.2 ∈ chunks) new) as Hskip.
    { intros a b (new & -> & -> & Hall)%IH. exists new.
      split; [done|]. split; [done|].
      eapply Forall_impl; [exact Hall|].
      intros p [Hin Hp]. split; [by right|done]. }
    destruct (read fpath) as [txt|] eqn:Hread; [|by apply Hskip].
    destruct (negb _); [by apply Hskip|].
    destruct (Chunker.chunk_text fuel txt 300 50) as [chunks|] eqn:Hchunks;
      [|done].
    destruct chunks as [|c cs]; [by apply Hskip|].
    apply Hskip in Hrun as (new & -> & -> & Hall).
    exists (((λ c, (fpath, c)) <$> (c :: cs)) ++ new).
    rewrite !fmap_app, <- !list_fmap_compose, <- !app_assoc.
    split; [done|]. split; [done|].
    apply Forall_app. split; [|done].
    apply Forall_fmap, Forall_forall. intros c' Hc'. simpl.
    split; [by left|]. by exists txt, (c :: cs).
Qed.

(** With the overlap of 50 tokens a text gives no chunk or a full 1000. *)
Lemma chunk_text_overlap_count fuel text m o :
  (∀ l, is_Some (decode l)) → 1 ≤ o → (1000 < fuel)%nat →
  ∃ chunks, Chunker.chunk_text fuel text m o = Some chunks ∧
            (chunks = [] ∨ length chunks = 1000%nat).
Proof.
  intros Hdec Ho Hfuel. unfold Chunker.chunk_text.
  destruct (Py.blank text); [exists []; by split; [|left]|].
  destruct (encode text) as [tokens|]; [|exists []; by split; [|left]].
  destruct (Py.len tokens =? 0) eqn:HL0; [exists []; by split; [|left]|].
  apply Z.eqb_neq in HL0.
  assert (0 < Py.len tokens) as HL by (unfold Py.len in *; lia).
  destruct (ChunkerFacts.chunk_loop_returns tokens m o Hdec fuel 0 0 [])
    as [chunks Hrun]; [unfold Chunker.max_chunks; simpl; lia|].
  exists chunks. split; [done|]. right.
  apply (ChunkerFacts.chunk_loop_chain tokens m o Hdec) in Hrun
    as (new & s' & -> & Hch & Hlen & Hexit & Hnonempty).
  simpl. specialize (Hnonempty HL ltac:(unfold Chunker.max_chunks; lia)).
  specialize (Hlen Hnonempty).
  destruct (last new) as [cl|] eqn:Hlast; [|by apply last_None in Hlast].
  pose proof (ChunkerFacts.chain_end _ _ _ _ _ _ _ Hch Hlast) as Hs'.
  assert (cl ∈ new) as Hcl
    by (rewrite last_lookup in Hlast; by eapply list_elem_of_lookup_2).
  pose proof (ChunkerFacts.chain_window _ _ _ _ _ _ cl Hch Hcl) as Hw.
  generalize dependent (Py.len tokens). intros L _ HL Hch Hexit Hw.
  unfold Chunker.max_chunks, Py.len in *. lia.
Qed.

Lemma chunk_files_thousands fuel read files acc_c acc_m :
  (∀ l, is_Some (decode l)) → (1000 < fuel)%nat →
  ∃ r_c r_m k,
    chunk_files fuel read files acc_c acc_m = Some (r_c, r_m) ∧
    length r_c = (length acc_c + 1000 * k)%nat ∧ (k ≤ length files)%nat.
Proof.
  intros Hdec Hfuel. revert acc_c acc_m.
  induction files as [|fpath rest IH]; intros acc_c acc_m; simpl.
  - exists acc_c, acc_m, 0%nat. split; [done|]. lia.
  - assert (∀ a b, length a = length acc_c →
              ∃ r_c r_m k,
                chunk_files fuel read rest a b = Some (r_c, r_m) ∧
                length r_c = (length acc_c + 1000 * k)%nat ∧
                (k ≤ S (length rest))%nat) as Hskip.
    { intros a b Hlen. destruct (IH a b) as (r_c & r_m & k & Hrun & Hk & Hle).
      exists r_c, r_m, k. split; [done|]. lia. }
    destruct (read fpath) as [txt|]; [|by apply Hskip].
    destruct (negb _); [by apply Hskip|].
    destruct (chunk_text_overlap_count fuel txt 300 50 Hdec ltac:(lia) Hfuel)
      as (chunks & -> & Hcount).
    destruct chunks as [|c cs]; [by apply Hskip|].
    destruct Hcount as [?|Hcount]; [done|].
    destruct (IH (acc_c ++ (Chunker.text <$> c :: cs))
                (acc_m ++ (file_metadata fpath <$> c :: cs)))
      as (r_c & r_m & k & Hrun & Hk & Hle).
    exists r_c, r_m, (S k). split; [done|].
    rewrite length_app, length_fmap, Hcount in Hk. lia.
Qed.

(** [list_text_files] keeps the [.txt] names, in order, under the folder. *)
Lemma list_text_files_spec folder names fpath :
  fpath ∈ list_text_files folder names →
  ∃ f, f ∈ names ∧ endswith f ".txt" = true ∧ fpath = folder +:+ "/" +:+ f.
Proof.
  unfold list_text_files.
  intros (f & -> & [Hf Hin]%list_elem_of_filter)%list_elem_of_fmap.
  by exists f.
Qed.

(** The ways [build_index] ends. *)
Lemma build_index_cases fuel folder (fs : IndexFiles F) (w : W) :
  match build_index fuel folder fs w with
  | Finished (Built n) fs' w' =>
      ∃ all_chunks metas v0 vs,
        list_text_files DATA_DIR (listing folder) ≠ [] ∧
        chunk_files fuel (read_text folder)
          (list_text_files DATA_DIR (listing folder)) [] []
        = Some (all_chunks, metas) ∧
        Embedder.embed_texts all_chunks Embedder.default_max_retries w
        = (Some (v0 :: vs), w') ∧
        n = length (v0 :: vs) ∧
        Forall (λ r, Py.len r = Py.len v0) (v0 :: vs) ∧
        fs' = mkIndexFiles
                (Some (mkFlatIndex (Py.len v0) (normalize_L2 <$> v0 :: vs)))
                (Some metas) ∧
        ∀ fs0, build_index fuel folder fs0 w = Finished (Built n) fs' w'
  | Finished EmbedMismatch _ _ => False
  | Finished NoFiles fs' w' =>
      fs' = fs ∧ w' = w ∧ list_text_files DATA_DIR (listing folder) = []
  | Finished NoChunks fs' w' => fs' = fs ∧ w' = w
  | Finished EmbedFailed fs' _ => fs' = fs
  | Failed e fs' _ => e = Py.ValueError ∧ fs' = fs
  | OutOfFuel => True
  end.
Proof.
  unfold build_index.
  destruct (list_text_files DATA_DIR (listing folder)) as [|f0 files]
    eqn:Hfiles; [done|].
  destruct (chunk_files _ _ _ _ _) as [[all_chunks metas]|] eqn:Hc; [|done].
  destruct all_chunks as [|t ts]; [done|].
  destruct (Embedder.embed_texts _ _ _) as [[vectors|] w'] eqn:Hemb; [|done].
  pose proof (EmbedderFacts.embed_texts_length _ _ _ _ Hemb) as Hlen.
  destruct vectors as [|v0 vs]; [done|].
  rewrite bool_decide_eq_false_2 by (intros Hne; by apply Hne).
  pose proof (IndexerExtras.columns_cases (v0 :: vs)) as Hcols.
  unfold add at 1.
  destruct (columns (v0 :: vs)) as [c|e] eqn:Hcol.
  - destruct Hcols as [_ Hall].
    assert (c = Py.len v0) as ->
      by (by apply Forall_cons in Hall as [Hv0 _]).
    simpl. rewrite Z.eqb_refl.
    exists (t :: ts), metas, v0, vs. repeat split; try done.
    intros fs0. unfold add. rewrite ?Hcol. simpl. by rewrite ?Z.eqb_refl.
  - unfold columns in Hcol.
    destruct (forallb _ _); [done|]. by injection Hcol as <-.
Qed.

End Facts.

Section Results.
Context {F W : Type} {tok : Tokenizer} {svc : EmbedService F W}
  {fl : FloatOps F}.


(** X19. After a successful [build_index] the metadata file holds one
    record for every indexed chunk, [n] in all; each record is that of a
    chunk of a file of the data folder whose name ends in [.txt], with the
    path of the file as its source; and the rows of the index file are, in
    the same order, the normalised embeddings the service gave for the
    texts of the records, each of the dimension of the index. *)
Theorem X19_saved_rows_match_records (fuel : nat) (folder : DataFolder)
    (fs fs' : IndexFiles F) (w w' : W) (n : nat) :
  build_index fuel folder fs w = Finished (Built n) fs' w' →
  ∃ ix metas,
    fs' = mkIndexFiles (Some ix) (Some metas) ∧
    length metas = n ∧
    Forall (λ m, ∃ f c txt chunks,
              f ∈ listing folder ∧ endswith f ".txt" = true ∧
              read_text folder ("data/" +:+ f) = Some txt ∧
              Chunker.chunk_text fuel txt 300 50 = Some chunks ∧
              c ∈ chunks ∧
              m = file_metadata ("data/" +:+ f) c) metas ∧
    Forall2 (λ m row, ∃ text v,
               m !! "text" = Some text ∧
               Embedder.answers
                 (if decide (n = 1%nat) then retrieval_query
                  else retrieval_document) text v ∧
               Py.len v = d ix ∧
               row = normalize_L2 v) metas (xb ix).
Proof.
  intros Hrun.
  pose proof (build_index_cases fuel folder fs w) as Hcases.
  rewrite Hrun in Hcases.
  destruct Hcases as (all_chunks & metas & v0 & vs & _ & Hc & Hemb & -> & Hdim
                      & -> & _).
  pose proof (EmbedderFacts.embed_texts_length _ _ _ _ Hemb) as Hlen.
  apply EmbedderExtras.embed_texts_answers in Hemb;
    [|unfold Embedder.default_max_retries; lia].
  apply chunk_files_spec in Hc as (new & Hac & Hme & Hnew).
  simpl in Hac, Hme. subst all_chunks metas.
  rewrite length_fmap in Hlen. rewrite length_fmap, <- Hlen in Hemb.
  rewrite Forall2_fmap_l in Hemb.
  eexists _, _. split; [done|]. simpl.
  split; [by rewrite length_fmap|].
  split.
  - apply Forall_fmap. eapply Forall_impl; [exact Hnew|].
    intros [fpath c] [Hin (txt & chunks & Hread & Hchunks & Hc)]. simpl in *.
    apply list_text_files_spec in Hin as (f & Hf & Hext & ->).
    by exists f, c, txt, chunks.
  - rewrite <- fmap_cons. apply Forall2_fmap.
    apply Forall2_same_length_lookup.
    split; [by apply Forall2_length in Hemb|].
    intros i [fpath c] v Hp Hv. simpl.
    exists (Chunker.text c), v.
    split; [unfold file_metadata; by simplify_map_eq|].
    split; [exact (Forall2_lookup_lr _ _ _ _ _ _ Hemb Hp Hv)|].
    split; [|done].
    rewrite Forall_forall in Hdim. apply Hdim.
    by eapply list_elem_of_lookup_2.
Qed.

(** X20. With its fixed windows of 300 tokens and overlap of 50 (and a
    [decode] that does not fail), [build_index] ends, and a successful
    build indexes exactly 1000 chunks for every file it indexes, however
    short the file is: the number of chunks is a positive multiple of
    1000, at most 1000 times the number of [.txt] files. *)
Theorem X20_thousand_chunks_per_file (fuel : nat) (folder : DataFolder)
    (fs : IndexFiles F) (w : W) :
  (∀ l, is_Some (decode l)) →
  (1000 < fuel)%nat →
  match build_index fuel folder fs w with
  | Finished (Built n) _ _ =>
      ∃ k, n = (1000 * k)%nat ∧
           (1 ≤ k ≤ length (filter (λ f, endswith f ".txt" = true)
                              (listing folder)))%nat
  | Finished _ _ _ | Failed _ _ _ => True
  | OutOfFuel => False
  end.
Proof.
  intros Hdec Hfuel.
  pose proof (build_index_cases fuel folder fs w) as Hcases.
  destruct (chunk_files_thousands fuel (read_text folder)
              (list_text_files DATA_DIR (listing folder)) [] [] Hdec Hfuel)
    as (r_c & r_m & k & Hc & Hk & Hle).
  destruct (build_index fuel folder fs w) as [[| | | |n] fs' w'|e fs' w'|]
    eqn:Hrun; try done.
  - destruct Hcases as (all_chunks & metas & v0 & vs & _ & Hc' & Hemb & ->
                        & _).
    rewrite Hc in Hc'. injection Hc' as <- <-.
    apply EmbedderFacts.embed_texts_length in Hemb.
    exists k. unfold list_text_files in Hle. rewrite length_fmap in Hle.
    simpl in *. lia.
  - unfold build_index in Hrun.
    destruct (list_text_files _ _); [done|]. rewrite Hc in Hrun.
    destruct r_c; [done|].
    destruct (Embedder.embed_texts _ _ _) as [[[|]|] ?]; try done.
    case_bool_decide; [done|]. by destruct (add _ _ _).
Qed.

End Results.

Lemma X19_saved_rows_match_records_witness :
  ∃ fs' w',
    toy_index_build = Finished (Built 1000) fs' w' ∧
    ∃ ix metas,
      fs' = mkIndexFiles (Some ix) (Some metas) ∧ length metas = 1000%nat.
Proof.
  assert (match toy_index_build with
          | Finished st _ w' => Some (st, w')
          | _ => None
          end = Some (Built 1000, 1000%nat)) as Hst
    by (vm_compute; reflexivity).
  destruct toy_index_build as [st fs' w'|e fs' w'|] eqn:Hrun;
    [|discriminate Hst|discriminate Hst].
  injection Hst as -> ->.
  exists fs', 1000%nat. split; [reflexivity|].
  destruct (X19_saved_rows_match_records (tok:=char_tokenizer)
              (svc:=toy_service) (fl:=axis_floats) 1001 toy_folder
              (mkIndexFiles None None) fs' 0%nat 1000%nat 1000%nat Hrun)
    as (ix & metas & Hfs & Hlen & _).
  exists ix, metas. split; assumption.
Defined.

Lemma X20_thousand_chunks_per_file_witness :
  match toy_index_build with
  | Finished (Built n) _ _ =>
      ∃ k, n = (1000 * k)%nat ∧
           (1 ≤ k ≤ length (filter (λ f, endswith f ".txt" = true)
                              (listing toy_folder)))%nat
  | Finished _ _ _ | Failed _ _ _ => True
  | OutOfFuel => False
  end.
Proof.
  apply (X20_thousand_chunks_per_file (tok:=char_tokenizer)
           (svc:=toy_service) (fl:=axis_floats) 1001 toy_folder
           (mkIndexFiles None None) 0%nat).
  - intros l. eexists. reflexivity.
  - lia.
Defined.

End IndexBuildExtras.

(* ===================================================================== *)
(** * Properties of the query endpoint *)
(* ===================================================================== *)

Module RetrieverExtras.
Import Indexer Retriever.

Section Facts.
Context {F W : Type} {svc : EmbedService F W} {gen : GenerateService W}
  {fl : FloatOps F}.

Lemma str_prefix_length n s :
  String.length (str_prefix n s) = Nat.min n (String.length s).
Proof.
  unfold str_prefix. revert s.
  induction n as [|n IH]; intros [|c s]; simpl; try done.
  by rewrite IH.
Qed.

Lemma str_prefix_prefix n s : String.prefix (str_prefix n s) s = true.
Proof.
  unfold str_prefix. revert s.
  induction n as [|n IH]; intros [|c s]; simpl; try done.
  destruct (ascii_dec c c); [apply IH|done].
Qed.

(** The embedding of one text is one vector, asked for as a query. *)
Lemma embed_question question (w w' : W) vectors :
  Embedder.embed_texts [question] Embedder.default_max_retries w
  = (Some vectors, w') →
  ∃ v, vectors = [v] ∧ Embedder.answers retrieval_query question v.
Proof.
  intros Hemb.
  pose proof (EmbedderFacts.embed_texts_length _ _ _ _ Hemb) as Hlen.
  apply EmbedderExtras.embed_texts_answers in Hemb;
    [|unfold Embedder.default_max_retries; lia].
  destruct vectors as [|v [|v' vs]]; [done| |done].
  exists v. split; [done|].
  by apply Forall2_cons_1 in Hemb as [Hv _].
Qed.

End Facts.

Section Results.
Context {F W : Type} {tok : Tokenizer} {svc : EmbedService F W}
  {gen : GenerateService W} {fl : FloatOps F}.

(** X21. The API starts on what [build_index] leaves: after a successful
    build of [n] chunks [startup_event] loads an indexer with [n] rows and
    [n] metadata records (so rows and records are in step), whatever the
    dimension of the embeddings was; after a build that ends in any other
    way it finds what it would have found before the build. *)
Theorem X21_api_starts_on_built_index (fuel : nat)
    (folder : IndexBuild.DataFolder) (fs fs' : IndexFiles F) (w w' : W)
    (st : IndexBuild.status) :
  IndexBuild.build_index fuel folder fs w = IndexBuild.Finished st fs' w' →
  match st with
  | IndexBuild.Built n =>
      ∃ indexer,
        startup_event fs' = Some indexer ∧
        length (xb (index indexer)) = n ∧
        length (metadatas indexer) = n
  | _ => startup_event fs' = startup_event fs
  end.
Proof.
  intros Hrun.
  pose proof (IndexBuildExtras.build_index_cases fuel folder fs w) as Hcases.
  rewrite Hrun in Hcases. destruct st as [| | | |n].
  - by destruct Hcases as (-> & _).
  - by destruct Hcases as (-> & _).
  - by subst fs'.
  - done.
  - destruct Hcases as (all_chunks & metas & v0 & vs & _ & Hc & Hemb & ->
                        & _ & -> & _).
    apply EmbedderFacts.embed_texts_length in Hemb.
    apply IndexBuildExtras.chunk_files_spec in Hc as (new & -> & -> & _).
    eexists. split; [reflexivity|]. simpl in *.
    rewrite !length_fmap in *. by split; [|lia].
Qed.

(** X22. Every failure of the endpoint is answered with status 500. The
    detail names the embedding exactly when the embedding of the question
    failed, and then neither the index nor the generation service is
    used. An exception of the index search (the [AssertionError] of a
    probe of the wrong dimension or of [top_k <= 0], the [IndexError] of
    an index without metadata asked for more neighbours than it has rows)
    is reported with its own message, before any generation request. The
    detail names the generation exactly when the generation failed, on the
    prompt built from the hits. *)
Theorem X22_error_responses (indexer : FaissIndexer F) (question : string)
    (top_k : Z) (w : W) :
  match query indexer question top_k w with
  | (Answered _ _, _) => True
  | (HttpError status_code EmbedFailed, w') =>
      status_code = 500 ∧
      Embedder.embed_texts [question] Embedder.default_max_retries w
      = (None, w')
  | (HttpError status_code (Unexpected e), w') =>
      status_code = 500 ∧
      ∃ v,
        Embedder.embed_texts [question] Embedder.default_max_retries w
        = (Some [v], w') ∧
        Indexer.query indexer v top_k = Py.Raise e ∧
        (e = Py.AssertionError ∧
         ¬ (Py.len v = d (index indexer) ∧ 0 < top_k)
         ∨ e = Py.IndexError ∧ metadatas indexer = [] ∧
           Py.len (xb (index indexer)) < top_k)
  | (HttpError status_code GenerateFailed, w') =>
      status_code = 500 ∧
      ∃ v w1 hits,
        Embedder.embed_texts [question] Embedder.default_max_retries w
        = (Some [v], w1) ∧
        Indexer.query indexer v top_k = Py.Ok hits ∧
        generate_content (build_prompt question hits) w1 = (None, w')
  end.
Proof.
  unfold query.
  destruct (Embedder.embed_texts _ _ _) as [[vectors|] w1] eqn:Hemb; [|done].
  destruct (embed_question _ _ _ _ Hemb) as (v & -> & _).
  pose proof (IndexerExtras.query_cases indexer v top_k) as Hq.
  destruct (Indexer.query indexer v top_k) as [hits|e] eqn:Hquery.
  - destruct (generate_content _ _) as [[answer|] w2] eqn:Hgen; [done|].
    split; [done|]. by exists v, w1, hits.
  - split; [done|]. exists v. split; [done|]. split; [done|].
    destruct e; try done.
    + destruct Hq as (_ & _ & Hmetas & Hrows). by right.
    + by left.
Qed.

(** X23. An answer comes with one retrieved item for each hit of the index
    search on the embedding of the question (asked for as a query), in the
    order of the hits and at most [top_k] of them: the item keeps the score
    and the source of the hit and carries the first 200 characters of its
    text; the answer is what the generation service gave for the prompt
    built from these hits. *)
Theorem X23_retrieved_follow_hits (indexer : FaissIndexer F)
    (question : string) (top_k : Z) (w w' : W) (answer : string)
    (retrieved : list (Retrieved F)) :
  query indexer question top_k w = (Answered answer retrieved, w') →
  ∃ v hits,
    Embedder.answers retrieval_query question v ∧
    Indexer.query indexer v top_k = Py.Ok hits ∧
    Py.len retrieved ≤ top_k ∧
    Forall2
      (λ h r,
         score r = Indexer.score h ∧
         source r = Indexer.metadata h !! "source" ∧
         String.prefix (text r) (default "" (Indexer.metadata h !! "text"))
         = true ∧
         String.length (text r)
         = Nat.min 200
             (String.length (default "" (Indexer.metadata h !! "text"))))
      hits retrieved ∧
    ∃ w1, generate_content (build_prompt question hits) w1
          = (Some answer, w').
Proof.
  unfold query.
  destruct (Embedder.embed_texts _ _ _) as [[vectors|] w1] eqn:Hemb; [|done].
  destruct (embed_question _ _ _ _ Hemb) as (v & -> & Hans).
  pose proof (IndexerExtras.query_cases indexer v top_k) as Hq.
  destruct (Indexer.query indexer v top_k) as [hits|e] eqn:Hquery; [|done].
  destruct (generate_content _ _) as [[answer'|] w2] eqn:Hgen; [|done].
  intros [= <- <- <-].
  destruct Hq as (_ & _ & Hk & _).
  exists v, hits. split; [done|]. split; [done|].
  split; [unfold Py.len in *; by rewrite length_fmap|].
  split; [|by exists w1].
  apply Forall2_fmap_r, Forall_Forall2_diag, Forall_forall.
  intros h _. simpl.
  split; [done|]. split; [done|].
  split; [apply str_prefix_prefix|apply str_prefix_length].
Qed.

End Results.

Lemma X21_api_starts_on_built_index_witness :
  ∃ fs' w',
    toy_index_build = IndexBuild.Finished (IndexBuild.Built 1000) fs' w' ∧
    ∃ indexer,
      startup_event fs' = Some indexer ∧
      length (xb (index indexer)) = 1000%nat ∧
      length (metadatas indexer) = 1000%nat.
Proof.
  assert (match toy_index_build with
          | IndexBuild.Finished st _ w' => Some (st, w')
          | _ => None
          end = Some (IndexBuild.Built 1000, 1000%nat)) as Hst
    by (vm_compute; reflexivity).
  destruct toy_index_build as [st fs' w'|e fs' w'|] eqn:Hrun;
    [|discriminate Hst|discriminate Hst].
  injection Hst as -> ->.
  exists fs', 1000%nat. split; [reflexivity|].
  exact (X21_api_starts_on_built_index (tok:=char_tokenizer)
           (svc:=toy_service) (fl:=axis_floats) 1001 toy_folder
           (mkIndexFiles None None) fs' 0%nat 1000%nat
           (IndexBuild.Built 1000) Hrun).
Defined.

Lemma X23_retrieved_follow_hits_witness :
  ∃ answer retrieved w',
    query (svc:=toy_service) (gen:=toy_generator) (fl:=axis_floats)
      sourced3 "a question" 2 0%nat
    = (Answered answer retrieved, w') ∧
    Py.len retrieved ≤ 2.
Proof.
  destruct (query (svc:=toy_service) (gen:=toy_generator) (fl:=axis_floats)
              sourced3 "a question" 2 0%nat)
    as [[answer retrieved|status_code dt] w'] eqn:Hrun.
  - exists answer, retrieved, w'. split; [reflexivity|].
    destruct (X23_retrieved_follow_hits (svc:=toy_service)
                (gen:=toy_generator) (fl:=axis_floats) sourced3 "a question"
                2 0%nat w' answer retrieved Hrun)
      as (v & hits & _ & _ & Hle & _).
    exact Hle.
  - vm_compute in Hrun. discriminate Hrun.
Defined.

End RetrieverExtras.

(* ===================================================================== *)
(** * Properties of the API ingestion *)
(* ===================================================================== *)

Module ApiIngestionExtras.
Import ApiIngestion.

Section Fetching.
Context {R W : Type} {http : HttpService R W}.

Local Ltac nothing_yielded :=
  split; [done|]; split; [intros t _ _ _ pre b Hb; by destruct pre|];
  split; [intros; simpl; lia|]; first [done | intros; exfalso; lia].

(** What the loop yields, for every API. *)
Lemma fetch_loop_batches fuel self total max_retries offset fetched (w : W)
    batches e w' :
  fetch_loop fuel self total max_retries offset fetched w = (batches, e, w') →
  Forall (λ b : list R, b ≠ []) batches ∧
  (∀ t, total = Some t → 0 < t → fetched < t →
     ∀ pre b, batches = pre ++ [b] → fetched + Py.len (concat pre) < t) ∧
  (∀ t, total = Some t → t < 0 → t ≤ fetched → (length batches ≤ 1)%nat) ∧
  (rate_limit self ≤ 0 → batches = [] ∧ w' = w ∧ e ≠ Returned).
Proof.
  revert offset fetched w batches e w'.
  induction fuel as [|fuel IH]; intros offset fetched w batches e w' Hrun;
    simpl in Hrun.
  { injection Hrun as <- <- <-. nothing_yielded. }
  destruct (rate_limit self =? 0) eqn:Hzero.
  { injection Hrun as <- <- <-. nothing_yielded. }
  destruct (rate_limit self <? 0) eqn:Hneg.
  { injection Hrun as <- <- <-. nothing_yielded. }
  apply Z.eqb_neq in Hzero. apply Z.ltb_ge in Hneg.
  destruct (Embedder.with_retries _ _ _) as [[page| |] w1].
  - destruct (page_records page) as [|r rs] eqn:Hrecords.
    { injection Hrun as <- <- <-. nothing_yielded. }
    set (records := r :: rs) in *.
    set (reached := match total with
                    | Some t => negb (t =? 0) && (t <=? fetched + Py.len records)
                    | None => false
                    end) in *.
    destruct reached eqn:Hreached.
    + injection Hrun as <- <- <-.
      split; [by repeat constructor|]. split; [|split].
      * intros t _ _ Hlt pre b Hb.
        destruct pre as [|p [|p' pre]]; [|done|done].
        unfold Py.len. simpl. lia.
      * intros. simpl. lia.
      * intros. exfalso. lia.
    + destruct (fetch_loop fuel self total max_retries
                  (offset + batch_size self) (fetched + Py.len records) w1)
        as [[bs e1] w2] eqn:Hrest.
      injection Hrun as <- <- <-.
      apply IH in Hrest as (Hne & Hsum & Hfirst & _).
      assert (∀ t, total = Some t → t ≠ 0 → fetched + Py.len records < t)
        as Hnext.
      { intros t -> Ht. unfold reached in Hreached.
        apply andb_false_iff in Hreached as [H0|Hle].
        - by apply negb_false_iff, Z.eqb_eq in H0.
        - by apply Z.leb_gt in Hle. }
      split; [by constructor|]. split; [|split].
      * intros t Ht Hpos Hlt pre b Hb.
        pose proof (Hnext t Ht ltac:(lia)) as Hlt'.
        destruct pre as [|p pre]; simpl in Hb.
        { unfold Py.len. simpl. lia. }
        injection Hb as <- ->.
        specialize (Hsum t Ht Hpos Hlt' pre b eq_refl).
        change (concat (records :: pre)) with (records ++ concat pre).
        unfold Py.len in *. rewrite length_app. lia.
      * intros t Ht Hneg' Hle. exfalso.
        pose proof (Hnext t Ht ltac:(lia)) as Hlt'.
        unfold Py.len in Hlt'. lia.
      * intros. exfalso. lia.
  - injection Hrun as <- <- <-. nothing_yielded.
  - apply IH in Hrun as (Hne & Hsum & Hfirst & _).
    split; [done|]. split; [done|]. split; [done|].
    intros. exfalso. lia.
Qed.

(** A total of zero records is no limit. *)
Lemma fetch_loop_zero_total fuel self max_retries offset fetched (w : W) :
  fetch_loop fuel self (Some 0) max_retries offset fetched w
  = fetch_loop fuel self None max_retries offset fetched w.
Proof.
  revert offset fetched w.
  induction fuel as [|fuel IH]; intros offset fetched w; simpl; [done|].
  destruct (rate_limit self =? 0); [done|].
  destruct (rate_limit self <? 0); [done|].
  destruct (Embedder.with_retries _ _ _) as [[page| |] w1]; [|done|apply IH].
  destruct (page_records page) as [|r rs]; [done|].
  simpl. by rewrite IH.
Qed.

(** Without attempts no request is made and the loop does not end. *)
Lemma fetch_loop_no_attempt fuel self total offset fetched (w : W) :
  0 < rate_limit self →
  fetch_loop fuel self total 0 offset fetched w = ([], OutOfFuel, w).
Proof.
  intros Hrate. revert w.
  induction fuel as [|fuel IH]; intros w; simpl; [done|].
  replace (rate_limit self =? 0) with false by (symmetry; apply Z.eqb_neq; lia).
  replace (rate_limit self <? 0) with false by (symmetry; apply Z.ltb_ge; lia).
  apply IH.
Qed.

End Fetching.

Section Fetched.
Context {R W : Type} {http : HttpService R W}.

(** X24. [fetch_paginated] never yields an empty batch. With a positive
    [total_records] it stops as soon as the records yielded reach the
    total: the batches before the last one hold fewer records than the
    total; a negative total ends it after one batch. With a rate limit of
    zero or below it yields nothing and makes no request: the sleep
    raises. *)
Theorem X24_batches_and_total (fuel : nat) (self : APIDataFetcher)
    (total_records : option Z) (max_retries : nat) (w w' : W)
    (batches : list (list R)) (e : ending) :
  fetch_paginated fuel self total_records max_retries w = (batches, e, w') →
  Forall (λ b, b ≠ []) batches ∧
  (∀ t, total_records = Some t → 0 < t →
     ∀ pre b, batches = pre ++ [b] → Py.len (concat pre) < t) ∧
  (∀ t, total_records = Some t → t < 0 → (length batches ≤ 1)%nat) ∧
  (rate_limit self ≤ 0 → batches = [] ∧ w' = w ∧ e ≠ Returned).
Proof.
  unfold fetch_paginated.
  intros (Hne & Hsum & Hfirst & Hrate)%fetch_loop_batches.
  repeat split; try done.
  - intros t Ht Hpos pre b Hb. by apply (Hsum t Ht Hpos Hpos pre b Hb).
  - intros t Ht Hneg. apply (Hfirst t Ht Hneg). lia.
  - by apply Hrate.
  - by apply Hrate.
  - by apply Hrate.
Qed.

(** X25. Two settings of [fetch_paginated] that do not do what they say: a
    [total_records] of zero is no limit, the generator behaves as without
    a total; and with [max_retries = 0] (and a positive rate limit) it
    makes no request, yields nothing and never ends, whatever the API
    would answer. *)
Theorem X25_zero_total_and_zero_retries (fuel : nat) (self : APIDataFetcher)
    (total_records : option Z) (max_retries : nat) (w : W) :
  fetch_paginated fuel self (Some 0) max_retries w
  = fetch_paginated fuel self None max_retries w ∧
  (0 < rate_limit self →
   fetch_paginated fuel self total_records 0 w = ([], OutOfFuel, w)).
Proof.
  unfold fetch_paginated. split.
  - apply fetch_loop_zero_total.
  - apply fetch_loop_no_attempt.
Qed.

End Fetched.

Section Ingested.
Context {F W : Type} {tok : Tokenizer} {svc : EmbedService F W}
  {fl : FloatOps F} {hash : Hasher}.
Import Builder BuilderFacts.

Lemma process_batch_ids texts metas (s : Env F W) :
  match process_batch texts metas s with
  | Done _ s' | Raised _ s' =>
      processed_ids (builder s') = processed_ids (builder s)
  | OutOfFuel => False
  end.
Proof.
  pose proof (process_batch_effect texts metas s) as Heff.
  destruct (process_batch texts metas s) as [[] s'|e s'|]; [| |done].
  - destruct Heff as (vectors & ix & _ & _ & _ & Hb & _). by rewrite Hb.
  - destruct Heff as (_ & Hb & _). by rewrite Hb.
Qed.

(** A document adds at most its own id to the processed ids. *)
Lemma process_doc_within (bound : gset string) fuel doc l (s : Env F W) :
  get_doc_id doc ∈ bound →
  processed_ids (builder s) ⊆ bound →
  match process_doc fuel doc l s with
  | Done _ s' | Raised _ s' => processed_ids (builder s') ⊆ bound
  | OutOfFuel => True
  end.
Proof.
  intros Hid Hsub. unfold process_doc.
  case_decide as Hseen; [done|].
  destruct (Py.blank _); [done|].
  destruct (Chunker.chunk_text _ _ _ _) as [chunks|]; [|done].
  set (texts := batch_texts l ++ _). set (metas := batch_metadatas l ++ _).
  set (s1 := log _ _).
  assert (processed_ids (builder s1) ⊆ bound) as Hsub1.
  { simpl. apply union_least; [done|]. by apply singleton_subseteq_l. }
  destruct (batch_size (builder s) <=? Py.len texts); [|done].
  pose proof (process_batch_ids texts metas s1) as Hflush.
  destruct (process_batch texts metas s1) as [[] s2|e s2|];
    [|by rewrite Hflush|done].
  destruct (batch_size (builder s) * 10 =? 0); [by rewrite Hflush|].
  destruct (_ =? 0); simpl; by rewrite Hflush.
Qed.

Lemma process_documents_within (bound : gset string) fuel documents
    (s : Env F W) :
  Forall (λ doc, get_doc_id doc ∈ bound) documents →
  processed_ids (builder s) ⊆ bound →
  match process_documents fuel documents s with
  | Done _ s' | Raised _ s' => processed_ids (builder s') ⊆ bound
  | OutOfFuel => True
  end.
Proof.
  intros Hdocs Hsub. unfold process_documents.
  pose proof (process_loop_inv fuel _
                (λ _ s1, processed_ids (builder s1) ⊆ bound)
                (λ _ s1, processed_ids (builder s1) ⊆ bound)
                (λ doc l s1 Hdoc, process_doc_within bound fuel doc l s1 Hdoc)
                documents (mkLocals [] [] 0 0) s Hdocs Hsub) as Hloop.
  destruct (process_loop fuel documents (mkLocals [] [] 0 0) s)
    as [l s1|e s1|]; [|done|done].
  destruct (batch_texts l) as [|text texts]; [done|].
  pose proof (process_batch_ids (text :: texts) (batch_metadatas l) s1)
    as Hflush.
  destruct (process_batch (text :: texts) (batch_metadatas l) s1)
    as [[] s2|e s2|]; [|by rewrite Hflush|done].
  simpl. by rewrite Hflush.
Qed.

(** The number of documents a completed run reports as processed is the
    number of ids it added. *)
Lemma process_documents_processed fuel documents (s s' : Env F W)
    (processed skipped : Z) :
  process_documents fuel documents s = Done (processed, skipped) s' →
  processed = Z.of_nat (size (processed_ids (builder s')))
              - Z.of_nat (size (processed_ids (builder s))).
Proof.
  unfold process_documents.
  destruct (process_loop fuel documents (mkLocals [] [] 0 0) s)
    as [l s1|e s1|] eqn:Hloop; [|done|done].
  apply BuilderExtras.process_loop_counts in Hloop as (Hp & _).
  simpl in Hp.
  destruct (batch_texts l) as [|text texts].
  - intros [= <- <- <-]. simpl. lia.
  - pose proof (process_batch_ids (text :: texts) (batch_metadatas l) s1)
      as Hflush.
    destruct (process_batch (text :: texts) (batch_metadatas l) s1)
      as [[] s2|e s2|]; [|done|done].
    intros [= <- <- <-]. simpl. rewrite Hflush. lia.
Qed.

(** X26. The documents [fetch_rest_api] makes of API records always carry
    the key [id], so [process_documents] never falls back on the content
    hash for them: a completed run adds to the processed ids only ids of
    the records, where a record without id counts as the id [None], and
    processes at most one document per such id. Of records none of which
    has an id, at most one is processed; the others are skipped as already
    processed, whatever their content. *)
Theorem X26_records_without_id_collide (fuel : nat)
    (records : list ApiRecord) (s s' : Env F W) (processed skipped : Z) :
  process_documents fuel (to_document <$> records) s
  = Done (processed, skipped) s' →
  processed_ids (builder s')
    ⊆ processed_ids (builder s) ∪ record_ids records ∧
  processed ≤ Z.of_nat (size (record_ids records)) ∧
  (Forall (λ record, rec_id record = None) records → processed ≤ 1).
Proof.
  intros Hrun.
  pose proof (process_documents_processed _ _ _ _ _ _ Hrun) as Hcount.
  pose proof (process_documents_within
                (processed_ids (builder s) ∪ record_ids records) fuel
                (to_document <$> records) s) as Hwithin.
  rewrite Hrun in Hwithin.
  assert (processed_ids (builder s')
            ⊆ processed_ids (builder s) ∪ record_ids records) as Hsub.
  { apply Hwithin; [|apply union_subseteq_l].
    apply Forall_fmap, Forall_forall. intros record Hin. simpl.
    apply elem_of_union_r. unfold record_ids.
    apply elem_of_list_to_set, list_elem_of_fmap. by exists record. }
  assert (processed ≤ Z.of_nat (size (record_ids records))) as Hle.
  { apply subseteq_size in Hsub. rewrite size_union_alt in Hsub.
    assert (record_ids records ∖ processed_ids (builder s)
              ⊆ record_ids records) as Hdiff
      by (by apply subseteq_difference_l).
    apply subseteq_size in Hdiff. lia. }
  split; [done|]. split; [done|].
  intros Hnone.
  assert (record_ids records ⊆ {["None"]}) as Hone.
  { unfold record_ids. intros id Hid.
    apply elem_of_list_to_set, list_elem_of_fmap in Hid as (record & -> & Hin).
    rewrite Forall_forall in Hnone. rewrite (Hnone record Hin). simpl.
    by apply elem_of_singleton. }
  apply subseteq_size in Hone. rewrite size_singleton in Hone. lia.
Qed.

End Ingested.

Lemma X24_batches_and_total_witness :
  fetch_paginated (http:=paged_service [1; 2; 3; 4; 5]) 10 (mkFetcher 5 2)
    (Some 3) 3 0%nat
  = ([[1; 2]; [3; 4]], Returned, 2%nat) ∧
  Forall (λ b : list Z, b ≠ []) [[1; 2]; [3; 4]].
Proof.
  assert (fetch_paginated (http:=paged_service [1; 2; 3; 4; 5]) 10
            (mkFetcher 5 2) (Some 3) 3 0%nat
          = ([[1; 2]; [3; 4]], Returned, 2%nat)) as Hrun
    by (vm_compute; reflexivity).
  split; [exact Hrun|].
  exact (proj1 (X24_batches_and_total (http:=paged_service [1; 2; 3; 4; 5])
                  10 (mkFetcher 5 2) (Some 3) 3 0%nat 2%nat _ _ Hrun)).
Defined.

Lemma X25_zero_total_and_zero_retries_witness :
  fetch_paginated (http:=paged_service [1; 2; 3]) 10 (mkFetcher 5 2)
    (Some 3) 0 0%nat
  = ([], OutOfFuel, 0%nat).
Proof.
  apply (X25_zero_total_and_zero_retries (http:=paged_service [1; 2; 3]) 10
           (mkFetcher 5 2) (Some 3) 3 0%nat).
  simpl. lia.
Defined.

Lemma X26_records_without_id_collide_witness :
  toy_run 5 (to_document <$> [anonymous "abcdefgh"; anonymous "ijklmnop"])
  = Builder.Done (1, 1)
      (ran 5 (to_document <$> [anonymous "abcdefgh"; anonymous "ijklmnop"])) ∧
  1 ≤ 1.
Proof.
  assert (toy_run 5
            (to_document <$> [anonymous "abcdefgh"; anonymous "ijklmnop"])
          = Builder.Done (1, 1)
              (ran 5 (to_document
                        <$> [anonymous "abcdefgh"; anonymous "ijklmnop"])))
    as Hrun by (vm_compute; reflexivity).
  split; [exact Hrun|].
  destruct (X26_records_without_id_collide (tok:=char_tokenizer)
              (svc:=toy_service) (fl:=axis_floats) (hash:=toy_hasher) 1001
              [anonymous "abcdefgh"; anonymous "ijklmnop"] (fresh_env 5)
              _ 1 1 Hrun) as (_ & _ & Hone).
  apply Hone. by repeat constructor.
Defined.

End ApiIngestionExtras.
